(** * S3-to-S3 batch transfer: the transfer engine, embedded and verified

    A shallow embedding of the Python sources under [src/lambda]:
    [common/exceptions.py], [common/retry.py], [common/s3_client.py],
    [common/sts_client.py], [transfer_object/handler.py] and
    [validate_transfer/handler.py]; and, with a log of their own,
    [list_objects/handler.py] and [generate_report/handler.py].

    Conventions of the embedding.
    - Python [int] is [Z]; Python [float] (delays, timestamps) is [Q].  The
      quotient of two integers is rounded to binary64 as Python rounds it,
      and the conversion of an integer to a float overflows as it does in
      Python; the rounding of sums and products of floats is not modelled.
    - Python [str] is [string]; formatted integers use stdpp's [pretty].
    - Everything outside the process (the clock, the random generator, STS,
      S3, the process environment) is a [World]: each call is answered as a
      function of the history of calls so far, and is appended to that
      history.  The history is the [trace] of the [state]; the only other
      mutable state is the module-level credential cache.
    - Exceptions are values; a computation returns [Ok v] or [Raise e].
    - Logging is not modelled. *)

From Stdlib Require Import ZArith QArith Qminmax Qround Lia Lqa.
From stdpp Require Import base decidable option list strings gmap pretty.

Local Open Scope Z_scope.

(** ** Python built-ins used by the sources *)

Module Py.

(** [s.startswith(p)] *)
Fixpoint startswith (s p : string) {struct p} : bool :=
  match p with
  | EmptyString => true
  | String c p' =>
      match s with
      | EmptyString => false
      | String d s' => Ascii.eqb c d && startswith s' p'
      end
  end.

(** [s[n:]] *)
Fixpoint slice_from (n : nat) (s : string) : string :=
  match n with
  | O => s
  | S n' =>
      match s with
      | EmptyString => EmptyString
      | String _ s' => slice_from n' s'
      end
  end.

(** [s[:n]] *)
Fixpoint slice_to (n : nat) (s : string) : string :=
  match n with
  | O => EmptyString
  | S n' =>
      match s with
      | EmptyString => EmptyString
      | String c s' => String c (slice_to n' s')
      end
  end.

(** Truth value of a string: [bool(s)]. *)
Definition truthy (s : string) : bool :=
  match s with
  | EmptyString => false
  | String _ _ => true
  end.

(** [range(lo, hi)] over integers. *)
Definition range (lo hi : Z) : list Z :=
  map (fun i => lo + Z.of_nat i) (seq 0 (Z.to_nat (hi - lo))).

(** *** [a / b] on integers: true division, a float

    Python returns the binary64 nearest to the quotient, a tie going to
    the even significand; a quotient too small for a subnormal becomes
    zero, and one that rounds beyond the largest float is an
    [OverflowError]. *)

(** [floor(log2(p / q))] for positive [p] and [q]. *)
Definition binade (p q : Z) : Z :=
  let d := Z.log2 p - Z.log2 q in
  if (if 0 <=? d then q * 2 ^ d <=? p else q <=? p * 2 ^ (- d))
  then d else d - 1.

(** [num / den] rounded to the nearest integer, a tie to the even one. *)
Definition round_half_even (num den : Z) : Z :=
  let k := num / den in
  match 2 * (num mod den) ?= den with
  | Lt => k
  | Gt => k + 1
  | Eq => if Z.even k then k else k + 1
  end.

(** The binary64 nearest to [p / q], for positive [p] and [q]: 53
    significant bits, the last of them worth [2^-shift], and no bit
    worth less than [2^-1074]. *)
Definition nearest_binary64 (p q : Z) : Q :=
  let shift := 52 - Z.max (binade p q) (-1022) in
  if 0 <=? shift
  then Qmake (round_half_even (p * 2 ^ shift) q) (Z.to_pos (2 ^ shift))
  else inject_Z (round_half_even p (q * 2 ^ (- shift)) * 2 ^ (- shift)).

(** What [a / b] does: it raises [ZeroDivisionError], raises
    [OverflowError], or returns a float. *)
Inductive division :=
  | DivisionByZero
  | ResultTooLarge
  | Quotient (x : Q).

Definition truediv (a b : Z) : division :=
  if b =? 0 then DivisionByZero
  else if a =? 0 then Quotient 0
  else
    let x := nearest_binary64 (Z.abs a) (Z.abs b) in
    if Qle_bool (inject_Z (2 ^ 1024)) x then ResultTooLarge
    else Quotient (if xorb (a <? 0) (b <? 0) then - x else x)%Q.

(** [math.ceil(x)] *)
Definition math_ceil (x : Q) : Z := Qceiling x.

(** [a < b] on floats. *)
Definition Qltb (a b : Q) : bool := negb (Qle_bool b a).

End Py.

(** ** Destination keys ([transfer_object/handler.py], lines 47-53, and
       [validate_transfer/handler.py], lines 115-120: the same four lines) *)

Definition relative_key (source_prefix source_key : string) : string :=
  if Py.truthy source_prefix && Py.startswith source_key source_prefix
  then Py.slice_from (String.length source_prefix) source_key
  else source_key.

Definition dest_key (source_prefix dest_prefix source_key : string) : string :=
  let relative_key := relative_key source_prefix source_key in
  if Py.truthy dest_prefix then dest_prefix +:+ relative_key else relative_key.

(** ** Data of the validation result ([validate_transfer/handler.py]) *)

Inductive status_t := PASSED | FAILED.

(** One record of the [failures] list; [actual_size] is absent when the
    probe itself failed. *)
Record failure := {
  f_key : string;
  f_expected_size : Z;
  f_actual_size : option Z;
  f_reason : string
}.

Record validation_result := {
  status : status_t;
  total_expected : Z;
  total_found : Z;
  samples_checked : Z;
  samples_passed : Z;
  failures : list failure;
  r_execution_id : string;
  r_manifest_bucket : string;
  r_manifest_key : string;
  r_destination_bucket : string
}.

(** ** Exceptions ([common/exceptions.py] and the built-in ones raised) *)

Inductive exn_class :=
  | Exception
  | TransferError | RetryableError | NonRetryableError
  | AccessDeniedError | ObjectTooLargeError | ManifestError | ValidationError
  | ClientError            (* botocore.exceptions.ClientError *)
  | KeyError | TypeError | ValueError | ZeroDivisionError | OverflowError.

Global Instance exn_class_eq_dec : EqDecision exn_class.
Proof. solve_decision. Defined.

(** The classes a class derives from, itself first (its [__mro__] up to
    [Exception]). *)
Definition mro (c : exn_class) : list exn_class :=
  match c with
  | Exception => [Exception]
  | TransferError => [TransferError; Exception]
  | RetryableError => [RetryableError; TransferError; Exception]
  | NonRetryableError => [NonRetryableError; TransferError; Exception]
  | AccessDeniedError =>
      [AccessDeniedError; NonRetryableError; TransferError; Exception]
  | ObjectTooLargeError =>
      [ObjectTooLargeError; NonRetryableError; TransferError; Exception]
  | ManifestError =>
      [ManifestError; NonRetryableError; TransferError; Exception]
  | ValidationError =>
      [ValidationError; NonRetryableError; TransferError; Exception]
  | ClientError => [ClientError; Exception]
  | KeyError => [KeyError; Exception]
  | TypeError => [TypeError; Exception]
  | ValueError => [ValueError; Exception]
  | ZeroDivisionError => [ZeroDivisionError; Exception]
  | OverflowError => [OverflowError; Exception]
  end.

Definition issubclass (c d : exn_class) : bool := bool_decide (d ∈ mro c).

(** The [details] argument of [TransferError.__init__]. *)
Inductive details_t :=
  | NoDetails
  | Fields (kv : list (string * string))
  | ResultDetails (r : validation_result).

(** An exception object: its class, [str(e)], the [details] attribute of
    a [TransferError], and [e.response["Error"]["Code"]] of a
    [ClientError]. *)
Record exn := {
  cls : exn_class;
  message : string;
  details : details_t;
  error_code : string
}.

Definition mk_exn (c : exn_class) (msg : string) (d : details_t) : exn :=
  {| cls := c; message := msg; details := d; error_code := "" |}.

(** [isinstance(e, c)] and [isinstance(e, (c1, ..., cn))], the test of an
    [except] clause. *)
Definition isinstance (e : exn) (c : exn_class) : bool := issubclass (cls e) c.

Definition isinstance_any (e : exn) (cs : list exn_class) : bool :=
  existsb (isinstance e) cs.

(** ** Requests and responses of the remote services *)

Record credentials := {
  aws_access_key_id : string;
  aws_secret_access_key : string;
  aws_session_token : string
}.

(** Keyword arguments of [sts_client.assume_role]. *)
Record sts_request := {
  RoleArn : string;
  RoleSessionName : string;
  DurationSeconds : Z;
  ExternalId : option string
}.

(** [response["Credentials"]]; [Expiration] is already the
    [.timestamp()] of the datetime. *)
Record sts_response := {
  AccessKeyId : string;
  SecretAccessKey : string;
  SessionToken : string;
  Expiration : Q
}.

(** A boto3 client as [get_boto3_client] and [boto3.client("s3")] build
    it: the service and the credentials it is bound to. *)
Record client := {
  service_name : string;
  client_credentials : option credentials;
  region_name : option string
}.

Record inventory_entry := {
  Key : string;
  Size : Z;
  ETag : string
}.

(** The manifest document, as [json.loads] returns it. *)
Record manifest_t := {
  objects : list inventory_entry;
  manifest_source_prefix : option string
}.

(** The S3 operations the sources call, with their keyword arguments.
    [sse] is the KMS key id: present exactly when [ServerSideEncryption]
    and [SSEKMSKeyId] are passed.  [CopySourceRange] is the pair
    [(start, end)] of the string ["bytes=start-end"]. *)
Inductive s3_request :=
  | HeadObject (Bucket Key_ : string)
  | CopyObject (CopySource : string * string) (Bucket Key_ : string)
               (sse : option string)
  | CreateMultipartUpload (Bucket Key_ : string) (sse : option string)
  | UploadPartCopy (Bucket Key_ UploadId : string) (PartNumber : Z)
                   (CopySource : string) (CopySourceRange : Z * Z)
  | CompleteMultipartUpload (Bucket Key_ UploadId : string)
                            (Parts : list (Z * string))
  | AbortMultipartUpload (Bucket Key_ UploadId : string)
  | ListObjectsV2 (Bucket : string) (Prefix : option string)
  | GetObject (Bucket Key_ : string).

(** What a call returns.  A paginated listing is the [KeyCount] of each
    page it yields (absent when the page has none), followed by the
    exception that ends the iteration early, if any. *)
Inductive s3_response :=
  | HeadObjectOutput (ContentLength : Z) (ETag_ : option string)
                     (LastModified : string)
  | CopyObjectOutput (ETag_ : string)
  | CreateMultipartUploadOutput (UploadId : string)
  | UploadPartCopyOutput (ETag_ : string)
  | CompleteMultipartUploadOutput (ETag_ : string)
  | AbortMultipartUploadOutput
  | ListObjectsV2Pages (KeyCounts : list (option Z)) (failure_ : option exn)
  | GetObjectOutput (Body : string).

(** ** Configuration ([common/config.py]) *)

Record TransferConfig := {
  source_role_arn : string;
  destination_role_arn : string;
  external_id : string;
  source_bucket : string;
  destination_bucket : string;
  source_prefix : string;
  destination_prefix : string;
  manifest_bucket : string;
  source_kms_key_id : string;
  destination_kms_key_id : string;
  multipart_threshold_bytes : Z;
  multipart_chunk_size_bytes : Z;
  max_retry_attempts : Z;
  retry_base_delay : Q;
  retry_max_delay : Q;
  validation_sample_size : Z;
  sns_topic_arn : string
}.

(** The defaults of the dataclass fields. *)
Definition default_config : TransferConfig :=
  {| source_role_arn := "";
     destination_role_arn := "";
     external_id := "";
     source_bucket := "";
     destination_bucket := "";
     source_prefix := "";
     destination_prefix := "";
     manifest_bucket := "";
     source_kms_key_id := "";
     destination_kms_key_id := "";
     multipart_threshold_bytes := 5 * 1024 * 1024 * 1024;
     multipart_chunk_size_bytes := 100 * 1024 * 1024;
     max_retry_attempts := 5;
     retry_base_delay := 1;
     retry_max_delay := 60;
     validation_sample_size := 10;
     sns_topic_arn := "" |}.

(** ** The world outside the process, and the state of the process *)

(** One observable interaction.  [EvCall] is the call record of an
    instrumented operation (what a test's call counter keeps). *)
Inductive event :=
  | EvTime (now : Q)                                   (* time.time() *)
  | EvRandom (u : Q)                                   (* random.random() *)
  | EvSample (k : nat) (chosen : list inventory_entry) (* random.sample *)
  | EvSleep (d : Q)                                    (* time.sleep(d) *)
  | EvSts (req : sts_request) (resp : exn + sts_response)
  | EvS3 (c : client) (req : s3_request) (resp : exn + s3_response)
  | EvCall (name : string).

(** Each answer is a function of the history so far. *)
Record World := {
  clock : list event -> Q;
  rng : list event -> Q;
  sampler : list event -> list inventory_entry -> nat -> list inventory_entry;
  sts : list event -> sts_request -> exn + sts_response;
  s3 : list event -> client -> s3_request -> exn + s3_response;
  json_loads : string -> exn + manifest_t;
  from_env : TransferConfig
}.

(** A slot of [_credential_cache]: [{"credentials": ..., "expiry": ...}]. *)
Record cache_entry := {
  cached_credentials : credentials;
  expiry : Q
}.

Record state := {
  trace : list event;
  _credential_cache : gmap string cache_entry
}.

Inductive result (A : Type) :=
  | Ok (a : A)
  | Raise (e : exn).
Arguments Ok {A} a.
Arguments Raise {A} e.

(** Computations: state in, a value or an exception and the state out. *)
Definition M (A : Type) : Type := state -> result A * state.

Definition ret {A} (a : A) : M A := fun st => (Ok a, st).

Definition raise {A} (e : exn) : M A := fun st => (Raise e, st).

Definition bind {A B} (c : M A) (k : A -> M B) : M B :=
  fun st =>
    match c st with
    | (Ok a, st') => k a st'
    | (Raise e, st') => (Raise e, st')
    end.

(** [try: body / except Exception as e: handler e].  Every exception of
    the model is an [Exception]. *)
Definition try_except {A} (body : M A) (handler : exn -> M A) : M A :=
  fun st =>
    match body st with
    | (Ok a, st') => (Ok a, st')
    | (Raise e, st') => handler e st'
    end.

Notation "'let*' x ':=' c 'in' k" := (bind c (fun x => k))
  (at level 10, x name, c at level 100, k at level 200).
Notation "c ;; k" := (bind c (fun _ => k))
  (at level 100, k at level 200, right associativity).

(** The state once [ev] has happened. *)
Definition log (ev : event) (st : state) : state :=
  {| trace := trace st ++ [ev];
     _credential_cache := _credential_cache st |}.

Definition emit (ev : event) : M unit := fun st => (Ok tt, log ev st).

(** [time.time()] *)
Definition time_time (w : World) : M Q :=
  fun st => let now := clock w (trace st) in (emit (EvTime now) ;; ret now) st.

(** [random.uniform(a, b)], that is [a + (b - a) * random()]. *)
Definition random_uniform (w : World) (a b : Q) : M Q :=
  fun st =>
    let u := rng w (trace st) in
    (emit (EvRandom u) ;; ret (a + (b - a) * u)%Q) st.

(** [time.sleep(d)]; a negative length is a [ValueError]. *)
Definition time_sleep (d : Q) : M unit :=
  if Py.Qltb d 0
  then raise (mk_exn ValueError "sleep length must be non-negative" NoDetails)
  else emit (EvSleep d).

(** [random.sample(population, k)]: a [ValueError] when [k] is negative
    or larger than the population. *)
Definition random_sample (w : World) (population : list inventory_entry)
    (k : Z) : M (list inventory_entry) :=
  if (k <? 0) || (Z.of_nat (length population) <? k)
  then raise (mk_exn ValueError
                "Sample larger than population or is negative" NoDetails)
  else fun st =>
    let chosen := sampler w (trace st) population (Z.to_nat k) in
    (emit (EvSample (Z.to_nat k) chosen) ;; ret chosen) st.

(** A call of the STS client and of an S3 client. *)
Definition sts_call (w : World) (req : sts_request) : M sts_response :=
  fun st =>
    let resp := sts w (trace st) req in
    (emit (EvSts req resp) ;;
     match resp with inl e => raise e | inr r => ret r end) st.

Definition s3_call (w : World) (c : client) (req : s3_request)
    : M s3_response :=
  fun st =>
    let resp := s3 w (trace st) c req in
    (emit (EvS3 c req resp) ;;
     match resp with inl e => raise e | inr r => ret r end) st.

(** An operation that records each of its invocations, as a mock does. *)
Definition counted {A} (name : string) (func : M A) : M A :=
  emit (EvCall name) ;; func.

(** ** [common/retry.py] *)

Module Retry.

(** [min(max_delay, base_delay * x)] for [x] the float of
    [2**attempt].  (A product beyond the largest float is [inf], and the
    minimum is then [max_delay], as it is here.) *)
Definition cap (base_delay max_delay : Q) (attempt : Z) : Q :=
  Qmin max_delay (base_delay * inject_Z (2 ^ attempt)).

(** The upper end of the interval a delay is drawn from:
    [min(max_delay, base_delay * (2**attempt))].  To multiply the float
    [base_delay] by the int [2**attempt] Python converts the int to a
    float: exactly up to [2**1023], and with an [OverflowError] from
    [2**1024] on. *)
Definition delay_cap (base_delay max_delay : Q) (attempt : Z) : exn + Q :=
  if 1024 <=? attempt
  then inl (mk_exn OverflowError "int too large to convert to float"
              NoDetails)
  else inr (cap base_delay max_delay attempt).

Section Wrapper.
Context {A : Type}.
Variable w : World.
Variable max_attempts : Z.
Variables base_delay max_delay : Q.
Variable retryable_exceptions : list exn_class.
Variable func : M A.

(** The body of [for attempt in range(max_attempts)], on the attempts
    that remain, and the [raise last_exception] after the loop
    ([raise None] is a [TypeError]). *)
Fixpoint attempts (remaining : list Z) (last_exception : option exn)
    : M A :=
  match remaining with
  | [] =>
      match last_exception with
      | Some e => raise e
      | None =>
          raise (mk_exn TypeError
                   "exceptions must derive from BaseException" NoDetails)
      end
  | attempt :: rest =>
      try_except func (fun e =>
        if isinstance_any e retryable_exceptions then
          if attempt =? max_attempts - 1 then raise e
          else
            match delay_cap base_delay max_delay attempt with
            | inl overflow => raise overflow
            | inr cap =>
                let* delay := random_uniform w 0 cap in
                time_sleep delay ;;
                attempts rest (Some e)
            end
        else if isinstance e NonRetryableError then raise e
        else raise e)
  end.

Definition wrapper : M A := attempts (Py.range 0 max_attempts) None.
End Wrapper.

(** The decorator: [exponential_backoff_with_jitter(...)(func)]. *)
Definition exponential_backoff_with_jitter {A} (w : World)
    (max_attempts : Z) (base_delay max_delay : Q)
    (retryable_exceptions : list exn_class) (func : M A) : M A :=
  wrapper w max_attempts base_delay max_delay retryable_exceptions func.

End Retry.

(** ** [common/s3_client.py] *)

Module S3Client.

Definition MAX_OBJECT_SIZE : Z := 5 * 1024 * 1024 * 1024 * 1024.
Definition DEFAULT_MULTIPART_THRESHOLD : Z := 5 * 1024 * 1024 * 1024.
Definition DEFAULT_PART_SIZE : Z := 100 * 1024 * 1024.

Definition _classify_s3_error (e : exn) (operation : string) : exn :=
  let error_code := error_code e in
  let message := "S3 " +:+ operation +:+ " failed: " +:+ message e in
  let details :=
    Fields [("error_code", error_code); ("operation", operation)] in
  if bool_decide (error_code ∈ ["AccessDenied"; "403"])
  then mk_exn AccessDeniedError message details
  else if bool_decide
            (error_code ∈ ["SlowDown"; "503"; "RequestTimeout"; "InternalError"])
  then mk_exn RetryableError message details
  else mk_exn RetryableError message details.

(** [except s3_client.exceptions.ClientError as e:
       raise _classify_s3_error(e, operation) from e];
    any other exception passes through. *)
Definition classify_client_error {A} (operation : string) (e : exn) : M A :=
  if isinstance e ClientError
  then raise (_classify_s3_error e operation)
  else raise e.

(** The decoration every function of the module carries. *)
Definition retried {A} (w : World) (func : M A) : M A :=
  Retry.exponential_backoff_with_jitter w 5 1 60 [RetryableError] func.

Definition missing_key {A} (k : string) : M A :=
  raise (mk_exn KeyError k NoDetails).

(** *** [head_object] *)

Record head_meta := {
  ContentLength : Z;
  meta_ETag : string;
  meta_LastModified : string
}.

Definition head_object__wrapped__ (w : World) (s3_client : client)
    (bucket key : string) : M head_meta :=
  try_except
    (let* response := s3_call w s3_client (HeadObject bucket key) in
     match response with
     | HeadObjectOutput content_length etag last_modified =>
         ret {| ContentLength := content_length;
                meta_ETag := default "" etag;
                meta_LastModified := last_modified |}
     | _ => missing_key "ContentLength"
     end)
    (classify_client_error "head_object").

Definition head_object (w : World) (s3_client : client)
    (bucket key : string) : M head_meta :=
  retried w (head_object__wrapped__ w s3_client bucket key).

(** *** [copy_object] *)

Definition sse_of (kms_key_id : string) : option string :=
  if Py.truthy kms_key_id then Some kms_key_id else None.

Definition copy_object__wrapped__ (w : World) (s3_client : client)
    (source_bucket source_key dest_bucket dest_key kms_key_id : string)
    : M s3_response :=
  let copy_source := (source_bucket, source_key) in
  try_except
    (s3_call w s3_client
       (CopyObject copy_source dest_bucket dest_key (sse_of kms_key_id)))
    (classify_client_error "copy_object").

Definition copy_object (w : World) (s3_client : client)
    (source_bucket source_key dest_bucket dest_key kms_key_id : string)
    : M s3_response :=
  retried w
    (copy_object__wrapped__ w s3_client source_bucket source_key
       dest_bucket dest_key kms_key_id).

(** *** [multipart_copy] *)

(** Line 184: [num_parts = math.ceil(object_size / part_size)], or the
    exception the division raises. *)
Definition num_parts (object_size part_size : Z) : exn + Z :=
  match Py.truediv object_size part_size with
  | Py.DivisionByZero =>
      inl (mk_exn ZeroDivisionError "division by zero" NoDetails)
  | Py.ResultTooLarge =>
      inl (mk_exn OverflowError
             "integer division result too large for a float" NoDetails)
  | Py.Quotient quotient => inr (Py.math_ceil quotient)
  end.

(** Lines 189-190: the bytes part [part_num] covers, both ends included. *)
Definition part_range (object_size part_size part_num : Z) : Z * Z :=
  let start := (part_num - 1) * part_size in
  let end_ := Z.min (part_num * part_size - 1) (object_size - 1) in
  (start, end_).

Section MultipartCopy.
Variable w : World.
Variable s3_client : client.
Variables source_bucket source_key dest_bucket dest_key : string.
Variable object_size : Z.
Variable kms_key_id : string.
Variable part_size : Z.

(** Lines 181-182: initiate, and read the upload id. *)
Definition create_upload : M string :=
  let* response :=
    s3_call w s3_client
      (CreateMultipartUpload dest_bucket dest_key (sse_of kms_key_id)) in
  match response with
  | CreateMultipartUploadOutput upload_id => ret upload_id
  | _ => missing_key "UploadId"
  end.

(** Lines 188-209: the loop over the part numbers that remain. *)
Fixpoint copy_parts (upload_id : string) (part_nums : list Z)
    (parts : list (Z * string)) : M (list (Z * string)) :=
  match part_nums with
  | [] => ret parts
  | part_num :: rest =>
      let* part_response :=
        s3_call w s3_client
          (UploadPartCopy dest_bucket dest_key upload_id part_num
             (source_bucket +:+ "/" +:+ source_key)
             (part_range object_size part_size part_num)) in
      match part_response with
      | UploadPartCopyOutput etag =>
          copy_parts upload_id rest (parts ++ [(part_num, etag)])
      | _ => missing_key "CopyPartResult"
      end
  end.

(** Lines 184-218: what the [try] block does once the upload id is
    assigned. *)
Definition copy_and_complete (upload_id : string) : M s3_response :=
  match num_parts object_size part_size with
  | inl e => raise e
  | inr num_parts =>
      let* parts := copy_parts upload_id (Py.range 1 (num_parts + 1)) [] in
      s3_call w s3_client
        (CompleteMultipartUpload dest_bucket dest_key upload_id parts)
  end.

(** Lines 221-230: the abort of the [except] clause; its own failure
    is logged and dropped. *)
Definition abort_upload (upload_id : string) : M unit :=
  if Py.truthy upload_id
  then
    try_except
      (s3_call w s3_client
         (AbortMultipartUpload dest_bucket dest_key upload_id) ;; ret tt)
      (fun _ => ret tt)
  else ret tt.

(** The undecorated function.  When [create_upload] raises,
    [upload_id] is still [None] and the [except] clause only
    re-raises. *)
Definition multipart_copy__wrapped__ : M s3_response :=
  if object_size >? MAX_OBJECT_SIZE
  then
    raise (mk_exn ObjectTooLargeError
             ("Object " +:+ source_key +:+ " size " +:+ pretty object_size
                +:+ " exceeds max " +:+ pretty MAX_OBJECT_SIZE)
             NoDetails)
  else
    let* upload_id := create_upload in
    try_except (copy_and_complete upload_id)
      (fun e => abort_upload upload_id ;; raise e).

Definition multipart_copy : M s3_response :=
  retried w multipart_copy__wrapped__.
End MultipartCopy.

End S3Client.

(** ** [common/sts_client.py] *)

Module StsClient.

Definition _CREDENTIAL_BUFFER_SECONDS : Q := 300.

(** Reads and writes of the module-level [_credential_cache]. *)
Definition cache_get (role_arn : string) : M (option cache_entry) :=
  fun st => (Ok (_credential_cache st !! role_arn), st).

Definition cache_set (role_arn : string) (entry : cache_entry) : M unit :=
  fun st =>
    (Ok tt, {| trace := trace st;
               _credential_cache := <[role_arn := entry]> (_credential_cache st) |}).

Definition _is_cached_credential_valid (w : World) (role_arn : string)
    : M bool :=
  let* slot := cache_get role_arn in
  match slot with
  | None => ret false
  | Some entry =>
      let* now := time_time w in
      ret (Py.Qltb now (expiry entry - _CREDENTIAL_BUFFER_SECONDS)%Q)
  end.

(** Lines 77-87: the [except ClientError] clause of [assume_role]. *)
Definition classify_sts_error (role_arn : string) (e : exn) : exn :=
  let error_code := error_code e in
  let details := Fields [("role_arn", role_arn); ("error_code", error_code)] in
  if bool_decide (error_code ∈ ["AccessDenied"; "AccessDeniedException"])
  then mk_exn AccessDeniedError
         ("Access denied assuming role " +:+ role_arn +:+ ": " +:+ message e)
         details
  else mk_exn RetryableError
         ("STS error assuming role " +:+ role_arn +:+ ": " +:+ message e)
         details.

Definition assume_role__wrapped__ (w : World) (role_arn session_name
    external_id : string) (duration_seconds : Z) : M credentials :=
  let* valid := _is_cached_credential_valid w role_arn in
  if valid then
    let* slot := cache_get role_arn in
    match slot with
    | Some entry => ret (cached_credentials entry)
    | None => raise (mk_exn KeyError role_arn NoDetails)
    end
  else
    try_except
      (let kwargs :=
         {| RoleArn := role_arn;
            RoleSessionName := session_name;
            DurationSeconds := duration_seconds;
            ExternalId :=
              if Py.truthy external_id then Some external_id else None |} in
       let* raw_creds := sts_call w kwargs in
       let credentials :=
         {| aws_access_key_id := AccessKeyId raw_creds;
            aws_secret_access_key := SecretAccessKey raw_creds;
            aws_session_token := SessionToken raw_creds |} in
       cache_set role_arn
         {| cached_credentials := credentials;
            expiry := Expiration raw_creds |} ;;
       ret credentials)
      (fun e =>
         if isinstance e ClientError
         then raise (classify_sts_error role_arn e)
         else raise e).

Definition assume_role (w : World) (role_arn session_name external_id : string)
    (duration_seconds : Z) : M credentials :=
  Retry.exponential_backoff_with_jitter w 3 1 10 [RetryableError]
    (assume_role__wrapped__ w role_arn session_name external_id
       duration_seconds).

Definition get_boto3_client (service : string) (creds : credentials)
    (region : string) : client :=
  {| service_name := service;
     client_credentials := Some creds;
     region_name := if Py.truthy region then Some region else None |}.

Definition clear_credential_cache : M unit :=
  fun st => (Ok tt, {| trace := trace st; _credential_cache := ∅ |}).

End StsClient.

(** ** [transfer_object/handler.py] *)

Module TransferObject.

(** The input event; the optional keys are those read with
    [event.get]. *)
Record event_t := {
  ev_Key : string;
  ev_Size : Z;
  ev_source_bucket : option string;
  ev_destination_bucket : option string;
  ev_destination_prefix : option string;
  ev_source_prefix : option string;
  ev_execution_id : option string
}.

(** The returned dict; its ["status"] is always ["SUCCESS"]. *)
Record receipt := {
  rc_source_key : string;
  rc_dest_key : string;
  rc_size : Z
}.

(** Lines 75-94: the copy, by size. *)
Definition copy_by_size (w : World) (config : TransferConfig)
    (dest_s3 : client) (source_bucket source_key dest_bucket dest_key : string)
    (object_size : Z) : M unit :=
  if object_size <? multipart_threshold_bytes config
  then
    S3Client.copy_object w dest_s3 source_bucket source_key dest_bucket
      dest_key (destination_kms_key_id config) ;; ret tt
  else
    S3Client.multipart_copy w dest_s3 source_bucket source_key dest_bucket
      dest_key object_size (destination_kms_key_id config)
      (multipart_chunk_size_bytes config) ;; ret tt.

Definition handler (w : World) (event : event_t) : M receipt :=
  let config := from_env w in
  let source_key := ev_Key event in
  let object_size := ev_Size event in
  let source_bucket := default (source_bucket config) (ev_source_bucket event) in
  let dest_bucket :=
    default (destination_bucket config) (ev_destination_bucket event) in
  let dest_prefix :=
    default (destination_prefix config) (ev_destination_prefix event) in
  let execution_id := default "unknown" (ev_execution_id event) in
  let source_prefix := default (source_prefix config) (ev_source_prefix event) in
  let dest_key := dest_key source_prefix dest_prefix source_key in
  let* credentials :=
    StsClient.assume_role w (destination_role_arn config)
      ("Transfer-" +:+ Py.slice_to 8 execution_id) (external_id config) 3600 in
  let dest_s3 := StsClient.get_boto3_client "s3" credentials "" in
  try_except
    (copy_by_size w config dest_s3 source_bucket source_key dest_bucket
       dest_key object_size)
    raise ;;
  ret {| rc_source_key := source_key;
         rc_dest_key := dest_key;
         rc_size := object_size |}.

End TransferObject.

(** ** [validate_transfer/handler.py] *)

Module ValidateTransfer.

Record event_t := {
  ev_manifest_bucket : string;
  ev_manifest_key : string;
  ev_execution_id : option string;
  ev_destination_bucket : option string;
  ev_destination_prefix : option string
}.

(** Lines 59-65: read and parse the manifest. *)
Definition read_manifest (w : World) (hub_s3 : client)
    (manifest_bucket manifest_key : string) : M manifest_t :=
  try_except
    (let* response :=
       s3_call w hub_s3 (GetObject manifest_bucket manifest_key) in
     match response with
     | GetObjectOutput body =>
         match json_loads w body with
         | inl e => raise e
         | inr manifest => ret manifest
         end
     | _ => S3Client.missing_key "Body"
     end)
    (fun e =>
       raise (mk_exn NonRetryableError
                ("Failed to read manifest from s3://" +:+ manifest_bucket
                   +:+ "/" +:+ manifest_key +:+ ": " +:+ message e)
                NoDetails)).

(** Lines 81-93: sum [KeyCount] over the pages of the destination
    listing. *)
Definition count_destination (w : World) (dest_s3 : client)
    (dest_bucket dest_prefix : string) : M Z :=
  try_except
    (let* response :=
       s3_call w dest_s3
         (ListObjectsV2 dest_bucket
            (if Py.truthy dest_prefix then Some dest_prefix else None)) in
     match response with
     | ListObjectsV2Pages key_counts failure_ =>
         let dest_count :=
           fold_left (fun acc key_count => acc + default 0 key_count)
             key_counts 0 in
         match failure_ with
         | Some e => raise e
         | None => ret dest_count
         end
     | _ => S3Client.missing_key "KeyCount"
     end)
    (fun e =>
       raise (mk_exn NonRetryableError
                ("Failed to list destination objects: " +:+ message e)
                NoDetails)).

Section Sampling.
Variable w : World.
Variable dest_s3 : client.
Variables dest_bucket source_prefix dest_prefix : string.

(** Lines 111-142: the body of [for obj in samples], on the two
    accumulators [failures] and [samples_passed]. *)
Definition check_sample (obj : inventory_entry)
    (acc : list failure * Z) : M (list failure * Z) :=
  let failures := fst acc in
  let samples_passed := snd acc in
  let source_key := Key obj in
  let expected_size := Size obj in
  let dest_key := dest_key source_prefix dest_prefix source_key in
  try_except
    (let* dest_meta := S3Client.head_object w dest_s3 dest_bucket dest_key in
     if S3Client.ContentLength dest_meta =? expected_size
     then ret (failures, samples_passed + 1)
     else ret ((failures ++
                  [{| f_key := dest_key;
                      f_expected_size := expected_size;
                      f_actual_size := Some (S3Client.ContentLength dest_meta);
                      f_reason := "size_mismatch" |}])%list,
               samples_passed))
    (fun e =>
       ret ((failures ++
               [{| f_key := dest_key;
                   f_expected_size := expected_size;
                   f_actual_size := None;
                   f_reason := "head_object_failed: " +:+ message e |}])%list,
            samples_passed)).

Fixpoint check_samples (samples : list inventory_entry)
    (acc : list failure * Z) : M (list failure * Z) :=
  match samples with
  | [] => ret acc
  | obj :: rest =>
      let* acc' := check_sample obj acc in
      check_samples rest acc'
  end.
End Sampling.

(** Line 144. *)
Definition status_of (dest_count total_expected : Z)
    (failures : list failure) : status_t :=
  if (dest_count >=? total_expected) && bool_decide (failures = [])
  then PASSED else FAILED.

Global Instance failure_eq_dec : EqDecision failure.
Proof. solve_decision. Defined.

Definition handler (w : World) (event : event_t) : M validation_result :=
  let config := from_env w in
  let execution_id := default "unknown" (ev_execution_id event) in
  let manifest_bucket := ev_manifest_bucket event in
  let manifest_key := ev_manifest_key event in
  let hub_s3 :=
    {| service_name := "s3"; client_credentials := None;
       region_name := None |} in
  let* manifest := read_manifest w hub_s3 manifest_bucket manifest_key in
  let objects := objects manifest in
  let total_expected := Z.of_nat (length objects) in
  let source_prefix :=
    default (source_prefix config) (manifest_source_prefix manifest) in
  let dest_prefix :=
    default (destination_prefix config) (ev_destination_prefix event) in
  let dest_bucket :=
    default (destination_bucket config) (ev_destination_bucket event) in
  let* dest_credentials :=
    StsClient.assume_role w (destination_role_arn config)
      ("Validate-" +:+ Py.slice_to 8 execution_id) (external_id config) 3600 in
  let dest_s3 := StsClient.get_boto3_client "s3" dest_credentials "" in
  let* dest_count := count_destination w dest_s3 dest_bucket dest_prefix in
  let sample_size := Z.min (validation_sample_size config) total_expected in
  let* samples :=
    match objects with
    | [] => ret []
    | _ :: _ => random_sample w objects sample_size
    end in
  let* checked :=
    check_samples w dest_s3 dest_bucket source_prefix dest_prefix samples
      ([], 0) in
  let failures := fst checked in
  let samples_passed := snd checked in
  let status := status_of dest_count total_expected failures in
  let result :=
    {| status := status;
       total_expected := total_expected;
       total_found := dest_count;
       samples_checked := sample_size;
       samples_passed := samples_passed;
       failures := failures;
       r_execution_id := execution_id;
       r_manifest_bucket := manifest_bucket;
       r_manifest_key := manifest_key;
       r_destination_bucket := dest_bucket |} in
  match status with
  | FAILED =>
      raise (mk_exn ValidationError
               ("Transfer validation failed: expected "
                  +:+ pretty total_expected +:+ ", found " +:+ pretty dest_count
                  +:+ ", " +:+ pretty (length failures) +:+ " sample failures")
               (ResultDetails result))
  | PASSED => ret result
  end.

End ValidateTransfer.

(** * The hub side: inventory, manifest, report and notification

    [list_objects/handler.py], [generate_report/handler.py] and
    [list_objects_paginated] of [s3_client.py] read the listings object
    by object, write documents and publish a notice.  Their calls are
    recorded in a log of their own, beside the state of the functions
    above. *)

Module Hub.

(** An entry of ["Contents"] in a page of [list_objects_v2];
    [lo_LastModified] is the datetime in ISO format. *)
Record listed_object := {
  lo_Key : string;
  lo_Size : Z;
  lo_ETag : string;
  lo_LastModified : string
}.

(** The manifest dict of [list_objects]. *)
Record manifest_doc := {
  md_execution_id : string;
  md_timestamp : string;
  md_source_bucket : string;
  md_source_prefix : string;
  md_destination_bucket : string;
  md_destination_prefix : string;
  md_total_objects : Z;
  md_total_size_bytes : Z;
  md_objects : list inventory_entry
}.

(** The report dict of [generate_report]; [validation] is the dict of
    the event, passed on as it is. *)
Record report_doc := {
  rd_execution_id : string;
  rd_timestamp : string;
  rd_status : string;
  rd_source_bucket : string;
  rd_source_prefix : string;
  rd_destination_bucket : string;
  rd_destination_prefix : string;
  rd_total_objects : Z;
  rd_total_size_bytes : Z;
  rd_validation : gmap string string;
  rd_manifest_location : string
}.

(** The message dict of the notification. *)
Record notice_doc := {
  nd_execution_id : string;
  nd_status : string;
  nd_total_objects : Z;
  nd_total_size_bytes : Z;
  nd_source : string;
  nd_destination : string;
  nd_report_location : string
}.

(** The [Body] of a [put_object]: [json.dumps] of one of the dicts. *)
Inductive body_t :=
  | ManifestBody (manifest : manifest_doc)
  | ReportBody (report : report_doc).

(** The pages a paginator yields, each with its ["Contents"] if it has
    any, and the exception that ends the iteration early, if one does. *)
Definition listing_t : Type :=
  list (option (list listed_object)) * option exn.

Inductive hub_event :=
  | EvList (c : client) (Bucket : string) (Prefix : option string)
      (listing : listing_t)
  | EvPut (c : client) (Bucket Key_ : string) (Body : body_t)
      (ContentType ServerSideEncryption : string) (failure_ : option exn)
  | EvPublish (TopicArn Subject : string) (Message : notice_doc)
      (failure_ : option exn)
  | EvNow (stamp : string).

(** The world of the hub functions: the world of the functions above,
    the UUID [uuid.uuid4()] draws, the exception [boto3.client("sns")]
    raises if it does, and the answers of the clock, of S3 and of SNS
    as functions of the history. *)
Record HubWorld := {
  base : World;
  uuid4 : string;
  sns_client : option exn;
  utcnow : list hub_event -> string;
  list_objects_v2 :
    list event -> list hub_event -> client -> string -> option string ->
    listing_t;
  put_object :
    list hub_event -> client -> string -> string -> body_t -> option exn;
  sns_publish : list hub_event -> string -> string -> notice_doc -> option exn
}.

Record hub_state := {
  inner : state;
  hub_log : list hub_event
}.

Definition HM (A : Type) : Type := hub_state -> result A * hub_state.

Definition hret {A} (a : A) : HM A := fun st => (Ok a, st).

Definition hraise {A} (e : exn) : HM A := fun st => (Raise e, st).

Definition hbind {A B} (c : HM A) (k : A -> HM B) : HM B :=
  fun st =>
    match c st with
    | (Ok a, st') => k a st'
    | (Raise e, st') => (Raise e, st')
    end.

Definition htry {A} (body : HM A) (handler : exn -> HM A) : HM A :=
  fun st =>
    match body st with
    | (Ok a, st') => (Ok a, st')
    | (Raise e, st') => handler e st'
    end.

(** A function of the modules above, called from a hub function. *)
Definition lift {A} (c : M A) : HM A :=
  fun st =>
    match c (inner st) with
    | (out, inner') => (out, {| inner := inner'; hub_log := hub_log st |})
    end.

Definition hlog (ev : hub_event) (st : hub_state) : hub_state :=
  {| inner := inner st; hub_log := hub_log st ++ [ev] |}.

(** [datetime.now(timezone.utc).isoformat()] *)
Definition now_isoformat (h : HubWorld) : HM string :=
  fun st =>
    let stamp := utcnow h (hub_log st) in (Ok stamp, hlog (EvNow stamp) st).

(** [for page in paginator.paginate(...)], run to its end:
    the pages, and the exception if the iteration stops on one. *)
Definition paginate (h : HubWorld) (c : client) (bucket : string)
    (prefix : option string) : HM listing_t :=
  fun st =>
    let listing :=
      list_objects_v2 h (trace (inner st)) (hub_log st) c bucket prefix in
    (Ok listing, hlog (EvList c bucket prefix listing) st).

(** [client.put_object(..., ContentType="application/json",
    ServerSideEncryption="aws:kms")] *)
Definition put_json (h : HubWorld) (c : client) (bucket key : string)
    (body : body_t) : HM unit :=
  fun st =>
    let failure_ := put_object h (hub_log st) c bucket key body in
    (match failure_ with Some e => Raise e | None => Ok tt end,
     hlog (EvPut c bucket key body "application/json" "aws:kms" failure_) st).

(** [sns_client.publish(TopicArn=..., Subject=..., Message=...)] *)
Definition publish (h : HubWorld) (topic_arn subject : string)
    (message : notice_doc) : HM unit :=
  fun st =>
    let failure_ := sns_publish h (hub_log st) topic_arn subject message in
    (match failure_ with Some e => Raise e | None => Ok tt end,
     hlog (EvPublish topic_arn subject message failure_) st).

(** [boto3.client("sns")] *)
Definition new_sns_client (h : HubWorld) : HM unit :=
  match sns_client h with
  | Some e => hraise e
  | None => hret tt
  end.

(** [boto3.client("s3")]: the function's own credentials. *)
Definition hub_s3 : client :=
  {| service_name := "s3"; client_credentials := None; region_name := None |}.

End Hub.

Notation "'let+' x ':=' c 'in' k" := (Hub.hbind c (fun x => k))
  (at level 10, x name, c at level 100, k at level 200).
Notation "c ;;+ k" := (Hub.hbind c (fun _ => k))
  (at level 100, k at level 200, right associativity).

(** ** [s3_client.py]: [list_objects_paginated] *)

Module S3Listing.
Import Hub.

(** The dict the generator yields for an object. *)
Record listed_item := {
  li_Key : string;
  li_Size : Z;
  li_LastModified : string;
  li_ETag : string
}.

Definition item_of (obj : listed_object) : listed_item :=
  {| li_Key := lo_Key obj;
     li_Size := lo_Size obj;
     li_LastModified := lo_LastModified obj;
     li_ETag := lo_ETag obj |}.

(** The body of the generator function, lines 56-77: what consuming
    the generator to its end, as [list(...)] does, runs. *)
Definition generate (h : HubWorld) (s3_client : client) (bucket prefix : string)
    : HM (list listed_item) :=
  htry
    (let+ listing :=
       paginate h s3_client bucket
         (if Py.truthy prefix then Some prefix else None) in
     let yielded :=
       flat_map (fun page => map item_of (default [] page)) (fst listing) in
     match snd listing with
     | Some e => hraise e
     | None => hret yielded
     end)
    (fun e =>
       if isinstance e ClientError
       then hraise (S3Client._classify_s3_error e "list_objects_v2")
       else hraise e).

(** Calling a generator function runs none of its body: it returns the
    generator. *)
Definition list_objects_paginated__wrapped__ (h : HubWorld)
    (s3_client : client) (bucket prefix : string)
    : M (HM (list listed_item)) :=
  ret (generate h s3_client bucket prefix).

Definition list_objects_paginated (h : HubWorld) (s3_client : client)
    (bucket prefix : string) : M (HM (list listed_item)) :=
  S3Client.retried (base h)
    (list_objects_paginated__wrapped__ h s3_client bucket prefix).

End S3Listing.

(** ** [list_objects/handler.py] *)

Module ListObjects.
Import Hub.

Record event_t := {
  ev_source_prefix : option string;
  ev_execution_id : option string
}.

Record receipt := {
  rc_manifest_bucket : string;
  rc_manifest_key : string;
  rc_total_objects : Z;
  rc_total_size_bytes : Z;
  rc_execution_id : string;
  rc_source_bucket : string;
  rc_source_prefix : string;
  rc_destination_bucket : string;
  rc_destination_prefix : string
}.

(** Lines 60-67: the body of the inner loop, on [objects] and
    [total_size]. *)
Definition add_object (acc : list inventory_entry * Z) (obj : listed_object)
    : list inventory_entry * Z :=
  let item :=
    {| Key := lo_Key obj; Size := lo_Size obj; ETag := lo_ETag obj |} in
  ((fst acc ++ [item])%list, snd acc + lo_Size obj).

(** Line 59: [for obj in page.get("Contents", [])]. *)
Definition add_page (acc : list inventory_entry * Z)
    (page : option (list listed_object)) : list inventory_entry * Z :=
  fold_left add_object (default [] page) acc.

(** Lines 50-71: the listing of the source. *)
Definition list_source (h : HubWorld) (source_s3 : client)
    (bucket source_prefix : string) : HM (list inventory_entry * Z) :=
  htry
    (let+ listing :=
       paginate h source_s3 bucket
         (if Py.truthy source_prefix then Some source_prefix else None) in
     let listed := fold_left add_page (fst listing) ([], 0) in
     match snd listing with
     | Some e => hraise e
     | None => hret listed
     end)
    (fun e =>
       if isinstance e ClientError
       then hraise (mk_exn NonRetryableError
                      ("Failed to list objects in s3://" +:+ bucket +:+ "/"
                         +:+ source_prefix +:+ ": " +:+ message e)
                      NoDetails)
       else hraise e).

(** Lines 100-114: the manifest is written to the manifest bucket. *)
Definition write_manifest (h : HubWorld) (bucket manifest_key : string)
    (manifest : manifest_doc) : HM unit :=
  htry
    (put_json h hub_s3 bucket manifest_key (ManifestBody manifest))
    (fun e =>
       if isinstance e ClientError
       then hraise (mk_exn ManifestError
                      ("Failed to write manifest to s3://" +:+ bucket +:+ "/"
                         +:+ manifest_key +:+ ": " +:+ message e)
                      NoDetails)
       else hraise e).

Definition handler (h : HubWorld) (event : event_t) : HM receipt :=
  let config := from_env (base h) in
  let source_prefix := default (source_prefix config) (ev_source_prefix event) in
  let execution_id := default (uuid4 h) (ev_execution_id event) in
  let+ credentials :=
    lift (StsClient.assume_role (base h) (source_role_arn config)
            ("ListObjects-" +:+ Py.slice_to 8 execution_id)
            (external_id config) 3600) in
  let source_s3 := StsClient.get_boto3_client "s3" credentials "" in
  let+ listed :=
    list_source h source_s3 (source_bucket config) source_prefix in
  let objects := fst listed in
  let total_size := snd listed in
  let+ timestamp := now_isoformat h in
  let manifest :=
    {| md_execution_id := execution_id;
       md_timestamp := timestamp;
       md_source_bucket := source_bucket config;
       md_source_prefix := source_prefix;
       md_destination_bucket := destination_bucket config;
       md_destination_prefix := destination_prefix config;
       md_total_objects := Z.of_nat (length objects);
       md_total_size_bytes := total_size;
       md_objects := objects |} in
  let manifest_key := "manifests/" +:+ execution_id +:+ "/manifest.json" in
  write_manifest h (manifest_bucket config) manifest_key manifest ;;+
  hret {| rc_manifest_bucket := manifest_bucket config;
          rc_manifest_key := manifest_key;
          rc_total_objects := Z.of_nat (length objects);
          rc_total_size_bytes := total_size;
          rc_execution_id := execution_id;
          rc_source_bucket := source_bucket config;
          rc_source_prefix := source_prefix;
          rc_destination_bucket := destination_bucket config;
          rc_destination_prefix := destination_prefix config |}.

End ListObjects.

(** ** [generate_report/handler.py] *)

Module GenerateReport.
Import Hub.

(** The input event; every key is read with [event.get]. *)
Record event_t := {
  ev_execution_id : option string;
  ev_validation : option (gmap string string);
  ev_source_bucket : option string;
  ev_source_prefix : option string;
  ev_destination_bucket : option string;
  ev_destination_prefix : option string;
  ev_total_objects : option Z;
  ev_total_size_bytes : option Z;
  ev_manifest_bucket : option string;
  ev_manifest_key : option string
}.

Record receipt := {
  rc_report_bucket : string;
  rc_report_key : string;
  rc_status : string;
  rc_notification_sent : bool;
  rc_execution_id : string
}.

(** Lines 77-88: the report is written to the manifest bucket. *)
Definition write_report (h : HubWorld) (bucket report_key : string)
    (report : report_doc) : HM unit :=
  htry
    (put_json h hub_s3 bucket report_key (ReportBody report))
    (fun e =>
       hraise (mk_exn NonRetryableError
                 ("Failed to write report to s3://" +:+ bucket +:+ "/"
                    +:+ report_key +:+ ": " +:+ message e)
                 NoDetails)).

(** Lines 98-135: the optional notification; the value is
    [notification_sent]. *)
Definition notify (h : HubWorld) (config : TransferConfig)
    (execution_id transfer_status : string) (report : report_doc)
    (report_key : string) : HM bool :=
  if Py.truthy (sns_topic_arn config)
  then
    htry
      (new_sns_client h ;;+
       let subject :=
         "S3 Transfer " +:+ transfer_status +:+ ": "
           +:+ Py.slice_to 8 execution_id in
       let message :=
         {| nd_execution_id := execution_id;
            nd_status := transfer_status;
            nd_total_objects := rd_total_objects report;
            nd_total_size_bytes := rd_total_size_bytes report;
            nd_source :=
              "s3://" +:+ rd_source_bucket report +:+ "/"
                +:+ rd_source_prefix report;
            nd_destination :=
              "s3://" +:+ rd_destination_bucket report +:+ "/"
                +:+ rd_destination_prefix report;
            nd_report_location :=
              "s3://" +:+ manifest_bucket config +:+ "/" +:+ report_key |} in
       publish h (sns_topic_arn config) (Py.slice_to 100 subject) message ;;+
       hret true)
      (fun _ => hret false)
  else hret false.

Definition handler (h : HubWorld) (event : event_t) : HM receipt :=
  let config := from_env (base h) in
  let execution_id := default "unknown" (ev_execution_id event) in
  let validation := default ∅ (ev_validation event) in
  let transfer_status := default "UNKNOWN" (validation !! "status") in
  let+ timestamp := now_isoformat h in
  let report :=
    {| rd_execution_id := execution_id;
       rd_timestamp := timestamp;
       rd_status := transfer_status;
       rd_source_bucket :=
         default (source_bucket config) (ev_source_bucket event);
       rd_source_prefix :=
         default (source_prefix config) (ev_source_prefix event);
       rd_destination_bucket :=
         default (destination_bucket config) (ev_destination_bucket event);
       rd_destination_prefix :=
         default (destination_prefix config) (ev_destination_prefix event);
       rd_total_objects := default 0 (ev_total_objects event);
       rd_total_size_bytes := default 0 (ev_total_size_bytes event);
       rd_validation := validation;
       rd_manifest_location :=
         "s3://" +:+ default "" (ev_manifest_bucket event) +:+ "/"
           +:+ default "" (ev_manifest_key event) |} in
  let report_key := "reports/" +:+ execution_id +:+ "/report.json" in
  write_report h (manifest_bucket config) report_key report ;;+
  let+ notification_sent :=
    notify h config execution_id transfer_status report report_key in
  hret {| rc_report_bucket := manifest_bucket config;
          rc_report_key := report_key;
          rc_status := transfer_status;
          rc_notification_sent := notification_sent;
          rc_execution_id := execution_id |}.

End GenerateReport.

(** ** Observations on outcomes and traces *)

(** A classified error is retried by the decorators of [s3_client.py]
    and [sts_client.py] exactly when it is a [RetryableError]. *)
Definition retryable (e : exn) : bool := isinstance_any e [RetryableError].

(** The sleeps of a trace, in order. *)
Definition sleep_of (ev : event) : option Q :=
  match ev with EvSleep d => Some d | _ => None end.

Definition sleeps (t : list event) : list Q := omap sleep_of t.

(** The number of recorded invocations of the operation [name]. *)
Definition call_of (name : string) (ev : event) : option unit :=
  match ev with
  | EvCall n => if String.eqb n name then Some tt else None
  | _ => None
  end.

Definition calls (name : string) (t : list event) : nat :=
  length (omap (call_of name) t).

(** The S3 requests of a trace, in order, and the number of STS calls. *)
Definition s3_request_of (ev : event) : option s3_request :=
  match ev with EvS3 _ req _ => Some req | _ => None end.

Definition s3_requests (t : list event) : list s3_request :=
  omap s3_request_of t.

Definition sts_request_of (ev : event) : option sts_request :=
  match ev with EvSts req _ => Some req | _ => None end.

Definition sts_requests (t : list event) : list sts_request :=
  omap sts_request_of t.

(** The requests of the multipart-upload lifecycle. *)
Definition is_multipart (req : s3_request) : bool :=
  match req with
  | CreateMultipartUpload _ _ _ | UploadPartCopy _ _ _ _ _ _
  | CompleteMultipartUpload _ _ _ _ | AbortMultipartUpload _ _ _ => true
  | _ => false
  end.

(** The part copies of a trace: part number and byte range. *)
Definition part_copy_of (ev : event) : option (Z * (Z * Z)) :=
  match ev with
  | EvS3 _ (UploadPartCopy _ _ _ part_num _ byte_range) _ =>
      Some (part_num, byte_range)
  | _ => None
  end.

Definition part_copies (t : list event) : list (Z * (Z * Z)) :=
  omap part_copy_of t.

(** The entries [random.sample] drew. *)
Definition sample_of (ev : event) : option (list inventory_entry) :=
  match ev with EvSample _ chosen => Some chosen | _ => None end.

Definition sampled (t : list event) : list inventory_entry :=
  concat (omap sample_of t).

(** An operation that neither sleeps nor records a call of [name]
    itself. *)
Definition quiet {A} (name : string) (func : M A) : Prop :=
  forall st,
    calls name (trace (snd (func st))) = calls name (trace st) /\
    sleeps (trace (snd (func st))) = sleeps (trace st).

(** The validation result a run of the validation handler produces:
    returned, or attached to the [ValidationError] it raises. *)
Definition produced (out : result validation_result)
    : option validation_result :=
  match out with
  | Ok r => Some r
  | Raise e =>
      match cls e, details e with
      | ValidationError, ResultDetails r => Some r
      | _, _ => None
      end
  end.

(** A computation that appends events to the trace, each of them
    satisfying [P], and does nothing else to the trace. *)
Definition only {A} (P : event -> Prop) (c : M A) : Prop :=
  forall st, exists d, trace (snd (c st)) = trace st ++ d /\ Forall P d.

(** An event that is no S3 request, or an S3 request satisfying [R]. *)
Definition s3_only (R : s3_request -> Prop) (ev : event) : Prop :=
  forall req, s3_request_of ev = Some req -> R req.

(** An event that is no draw of [random.sample]. *)
Definition no_sample (ev : event) : Prop := sample_of ev = None.

(** The state once [assume_role] has checked the cache for [role_arn]:
    the clock is read only when the role has a slot. *)
Definition checked (w : World) (role_arn : string) (st : state) : state :=
  match _credential_cache st !! role_arn with
  | None => st
  | Some _ => log (EvTime (clock w (trace st))) st
  end.

(** The cache holds no usable credential for [role_arn]: no slot, or a
    slot whose expiry is less than the buffer away. *)
Definition stale (w : World) (role_arn : string) (st : state) : Prop :=
  match _credential_cache st !! role_arn with
  | None => True
  | Some entry =>
      (expiry entry - StsClient._CREDENTIAL_BUFFER_SECONDS
       <= clock w (trace st))%Q
  end.

(** What the two accumulators account for: passes plus failure
    records. *)
Definition accounted (acc : list failure * Z) : Z :=
  snd acc + Z.of_nat (length (fst acc)).

(** The part numbers a chunked copy plans: 1 to the number of parts,
    and none when the division raises. *)
Definition planned_parts (object_size part_size : Z) : list Z :=
  match S3Client.num_parts object_size part_size with
  | inl _ => []
  | inr n => Py.range 1 (n + 1)
  end.

(** ** Further observations *)

(** A computation that raises only exceptions satisfying [Q]. *)
Definition raises_only {A} (Q : exn -> Prop) (c : M A) : Prop :=
  forall st e st', c st = (Raise e, st') -> Q e.

(** The part copies S3 accepted: part number and returned tag. *)
Definition part_tag_of (ev : event) : option (Z * string) :=
  match ev with
  | EvS3 _ (UploadPartCopy _ _ _ part_num _ _) (inr (UploadPartCopyOutput etag)) =>
      Some (part_num, etag)
  | _ => None
  end.

Definition part_tags (t : list event) : list (Z * string) :=
  omap part_tag_of t.

(** What a failure record says about the sampled entry it was made
    for: the destination key derived from the entry's key, the size
    the inventory lists, and either the differing size found there or
    the text of the error the probe ended with. *)
Definition describes (source_prefix dest_prefix : string)
    (obj : inventory_entry) (record : failure) : Prop :=
  f_key record = dest_key source_prefix dest_prefix (Key obj) /\
  f_expected_size record = Size obj /\
  match f_actual_size record with
  | Some actual => actual <> Size obj /\ f_reason record = "size_mismatch"
  | None => exists e, f_reason record = "head_object_failed: " +:+ message e
  end.

(** The objects of a listing, page after page, and the sum of their
    sizes. *)
Definition contents (listing : Hub.listing_t) : list Hub.listed_object :=
  flat_map (default []) (fst listing).

Definition inventory_item (obj : Hub.listed_object) : inventory_entry :=
  {| Key := Hub.lo_Key obj; Size := Hub.lo_Size obj; ETag := Hub.lo_ETag obj |}.

Definition total_size (objects : list Hub.listed_object) : Z :=
  foldr Z.add 0 (map Hub.lo_Size objects).

(** The time slept in all: the sum of the sleeps. *)
Definition total_sleep (ds : list Q) : Q := foldr Qplus 0%Q ds.

(** A computation that sleeps for at most [budget] in all, whatever it
    does else. *)
Definition sleeps_within {A} (budget : Q) (c : M A) : Prop :=
  forall st,
    exists ds,
      sleeps (trace (snd (c st))) = sleeps (trace st) ++ ds /\
      Forall (fun d => (0 <= d)%Q) ds /\
      (total_sleep ds <= budget)%Q.

(** The most the retrier can sleep over the attempts that remain: the
    cap of the delay after each attempt but the last. *)
Fixpoint backoff_budget (max_attempts : Z) (base_delay max_delay : Q)
    (remaining : list Z) : Q :=
  match remaining with
  | [] => 0
  | attempt :: rest =>
      (if attempt =? max_attempts - 1 then 0
       else Retry.cap base_delay max_delay attempt)
      + backoff_budget max_attempts base_delay max_delay rest
  end.

(** ** A concrete world, for examples

    The destination grants credentials that expire at time 3600; the
    clock stands at 0 and every draw is one half.  S3 accepts single
    copies of small objects into bucket ["dst"], refuses the third part
    of any chunked copy, and refuses aborts too; the destination holds
    ["out/a"] with 5 bytes and nothing else. *)

Definition demo_config : TransferConfig :=
  {| source_role_arn := "arn:source";
     destination_role_arn := "arn:destination";
     external_id := "ext";
     source_bucket := "src";
     destination_bucket := "dst";
     source_prefix := "data/";
     destination_prefix := "out/";
     manifest_bucket := "manifests";
     source_kms_key_id := "";
     destination_kms_key_id := "key";
     multipart_threshold_bytes := 100;
     multipart_chunk_size_bytes := 40;
     max_retry_attempts := 5;
     retry_base_delay := 1;
     retry_max_delay := 60;
     validation_sample_size := 2;
     sns_topic_arn := "" |}.

Definition client_error (code text : string) : exn :=
  {| cls := ClientError; message := text; details := NoDetails;
     error_code := code |}.

Definition demo_s3 (req : s3_request) : exn + s3_response :=
  match req with
  | HeadObject _ key =>
      if String.eqb key "out/a" then inr (HeadObjectOutput 5 None "today")
      else inl (client_error "404" "Not Found")
  | CopyObject _ _ _ _ => inr (CopyObjectOutput "etag")
  | CreateMultipartUpload _ _ _ => inr (CreateMultipartUploadOutput "upload-1")
  | UploadPartCopy _ _ _ part_num _ _ =>
      if part_num =? 3 then inl (client_error "InternalError" "part refused")
      else inr (UploadPartCopyOutput "etag")
  | CompleteMultipartUpload _ _ _ _ => inr (CompleteMultipartUploadOutput "etag")
  | AbortMultipartUpload _ _ _ => inl (client_error "InternalError" "abort refused")
  | ListObjectsV2 _ _ => inr (ListObjectsV2Pages [Some 1; None; Some 2] None)
  | GetObject _ _ => inr (GetObjectOutput "manifest")
  end.

Definition demo_manifest : manifest_t :=
  {| objects :=
       [ {| Key := "data/a"; Size := 5; ETag := "a" |};
         {| Key := "data/b"; Size := 7; ETag := "b" |};
         {| Key := "data/c"; Size := 9; ETag := "c" |} ];
     manifest_source_prefix := Some "data/" |}.

Definition demo_world : World :=
  {| clock := fun _ => 0%Q;
     rng := fun _ => (1 # 2)%Q;
     sampler := fun _ population k => take k population;
     sts := fun _ _ =>
       inr {| AccessKeyId := "id"; SecretAccessKey := "secret";
              SessionToken := "token"; Expiration := 3600 |};
     s3 := fun _ _ req => demo_s3 req;
     json_loads := fun _ => inr demo_manifest;
     from_env := demo_config |}.

Definition initial : state := {| trace := []; _credential_cache := ∅ |}.

Definition demo_client : client :=
  StsClient.get_boto3_client "s3"
    {| aws_access_key_id := "id"; aws_secret_access_key := "secret";
       aws_session_token := "token" |} "".

(** An operation that always fails with a retryable error, and one that
    fails with a denial. *)
Definition always_transient : M unit :=
  raise (mk_exn RetryableError "transient" NoDetails).

Definition always_denied : M unit :=
  raise (mk_exn AccessDeniedError "access denied" NoDetails).

Definition small_transfer : TransferObject.event_t :=
  {| TransferObject.ev_Key := "data/x";
     TransferObject.ev_Size := 10;
     TransferObject.ev_source_bucket := None;
     TransferObject.ev_destination_bucket := None;
     TransferObject.ev_destination_prefix := None;
     TransferObject.ev_source_prefix := None;
     TransferObject.ev_execution_id := Some "0123456789" |}.

Definition demo_validation : ValidateTransfer.event_t :=
  {| ValidateTransfer.ev_manifest_bucket := "manifests";
     ValidateTransfer.ev_manifest_key := "run/manifest.json";
     ValidateTransfer.ev_execution_id := None;
     ValidateTransfer.ev_destination_bucket := None;
     ValidateTransfer.ev_destination_prefix := None |}.

(** ** Further operations and worlds, for examples *)

(** An operation that fails with a transient error until it has been
    invoked [successes_from] times, and returns ["ok"] from then on: it
    reads its own call record, as a test double counts its calls. *)
Definition flaky (successes_from : nat) : M string :=
  fun st =>
    if (calls "op" (trace st) <? successes_from)%nat
    then (Raise (mk_exn RetryableError "transient" NoDetails), st)
    else (Ok "ok", st).

(** The concrete world with other answers from S3 or from STS. *)
Definition with_s3 (answer : s3_request -> exn + s3_response) : World :=
  {| clock := clock demo_world;
     rng := rng demo_world;
     sampler := sampler demo_world;
     sts := sts demo_world;
     s3 := fun _ _ req => answer req;
     json_loads := json_loads demo_world;
     from_env := from_env demo_world |}.

Definition with_sts (answer : sts_request -> exn + sts_response) : World :=
  {| clock := clock demo_world;
     rng := rng demo_world;
     sampler := sampler demo_world;
     sts := fun _ req => answer req;
     s3 := s3 demo_world;
     json_loads := json_loads demo_world;
     from_env := from_env demo_world |}.

(** Every part copy is accepted. *)
Definition accepting_s3 (req : s3_request) : exn + s3_response :=
  match req with
  | UploadPartCopy _ _ _ _ _ _ => inr (UploadPartCopyOutput "etag")
  | AbortMultipartUpload _ _ _ => inr AbortMultipartUploadOutput
  | _ => demo_s3 req
  end.

Definition denying_s3 (req : s3_request) : exn + s3_response :=
  inl (client_error "AccessDenied" "denied").

Definition throttling_s3 (req : s3_request) : exn + s3_response :=
  inl (client_error "SlowDown" "slow down").

Definition denying_sts (req : sts_request) : exn + sts_response :=
  inl (client_error "AccessDenied" "not authorized").

Definition failing_sts (req : sts_request) : exn + sts_response :=
  inl (client_error "ServiceUnavailable" "try again").

(** The destination listing fails after a first page of two keys. *)
Definition failing_listing_s3 (req : s3_request) : exn + s3_response :=
  match req with
  | ListObjectsV2 _ _ =>
      inr (ListObjectsV2Pages [Some 2]
             (Some (client_error "SlowDown" "slow down")))
  | _ => demo_s3 req
  end.

(** A configuration with other values for the three retry settings,
    and a world whose environment yields another configuration. *)
Definition with_retry_settings (config : TransferConfig) (attempts : Z)
    (base_delay max_delay : Q) : TransferConfig :=
  {| source_role_arn := source_role_arn config;
     destination_role_arn := destination_role_arn config;
     external_id := external_id config;
     source_bucket := source_bucket config;
     destination_bucket := destination_bucket config;
     source_prefix := source_prefix config;
     destination_prefix := destination_prefix config;
     manifest_bucket := manifest_bucket config;
     source_kms_key_id := source_kms_key_id config;
     destination_kms_key_id := destination_kms_key_id config;
     multipart_threshold_bytes := multipart_threshold_bytes config;
     multipart_chunk_size_bytes := multipart_chunk_size_bytes config;
     max_retry_attempts := attempts;
     retry_base_delay := base_delay;
     retry_max_delay := max_delay;
     validation_sample_size := validation_sample_size config;
     sns_topic_arn := sns_topic_arn config |}.

Definition with_sample_size (config : TransferConfig) (sample_size : Z)
    : TransferConfig :=
  {| source_role_arn := source_role_arn config;
     destination_role_arn := destination_role_arn config;
     external_id := external_id config;
     source_bucket := source_bucket config;
     destination_bucket := destination_bucket config;
     source_prefix := source_prefix config;
     destination_prefix := destination_prefix config;
     manifest_bucket := manifest_bucket config;
     source_kms_key_id := source_kms_key_id config;
     destination_kms_key_id := destination_kms_key_id config;
     multipart_threshold_bytes := multipart_threshold_bytes config;
     multipart_chunk_size_bytes := multipart_chunk_size_bytes config;
     max_retry_attempts := max_retry_attempts config;
     retry_base_delay := retry_base_delay config;
     retry_max_delay := retry_max_delay config;
     validation_sample_size := sample_size;
     sns_topic_arn := sns_topic_arn config |}.

Definition with_config (w : World) (config : TransferConfig) : World :=
  {| clock := clock w;
     rng := rng w;
     sampler := sampler w;
     sts := sts w;
     s3 := s3 w;
     json_loads := json_loads w;
     from_env := config |}.

Definition with_manifest (w : World) (manifest : manifest_t) : World :=
  {| clock := clock w;
     rng := rng w;
     sampler := sampler w;
     sts := sts w;
     s3 := s3 w;
     json_loads := fun _ => inr manifest;
     from_env := from_env w |}.

(** A run over an empty inventory, configured with a sample size of
    [-1]. *)
Definition empty_manifest : manifest_t :=
  {| objects := []; manifest_source_prefix := Some "data/" |}.

Definition negative_sample_world : World :=
  with_manifest (with_config demo_world (with_sample_size demo_config (-1)))
    empty_manifest.

(** A hub world for examples: two pages with three objects between
    them and an empty page; S3 and SNS accept what they are sent. *)
Definition demo_listing : Hub.listing_t :=
  ([Some [ {| Hub.lo_Key := "data/a"; Hub.lo_Size := 5; Hub.lo_ETag := "a";
              Hub.lo_LastModified := "2024-01-01T00:00:00" |};
           {| Hub.lo_Key := "data/b"; Hub.lo_Size := 7; Hub.lo_ETag := "b";
              Hub.lo_LastModified := "2024-01-02T00:00:00" |} ];
    None;
    Some [ {| Hub.lo_Key := "data/c"; Hub.lo_Size := 9; Hub.lo_ETag := "c";
              Hub.lo_LastModified := "2024-01-03T00:00:00" |} ]],
   None).

Definition demo_hub : Hub.HubWorld :=
  {| Hub.base :=
       with_config demo_world
         {| source_role_arn := "arn:source";
            destination_role_arn := "arn:destination";
            external_id := "ext";
            source_bucket := "src";
            destination_bucket := "dst";
            source_prefix := "data/";
            destination_prefix := "out/";
            manifest_bucket := "manifests";
            source_kms_key_id := "";
            destination_kms_key_id := "key";
            multipart_threshold_bytes := 100;
            multipart_chunk_size_bytes := 40;
            max_retry_attempts := 5;
            retry_base_delay := 1;
            retry_max_delay := 60;
            validation_sample_size := 2;
            sns_topic_arn := "arn:topic" |};
     Hub.uuid4 := "123e4567-e89b-12d3-a456-426614174000";
     Hub.sns_client := None;
     Hub.utcnow := fun _ => "2024-01-04T00:00:00+00:00";
     Hub.list_objects_v2 := fun _ _ _ _ _ => demo_listing;
     Hub.put_object := fun _ _ _ _ _ => None;
     Hub.sns_publish := fun _ _ _ _ => None |}.

(** The same with other answers to [put_object], to [publish] and to
    the listing. *)
Definition hub_with (listing : Hub.listing_t) (put sent : option exn)
    : Hub.HubWorld :=
  {| Hub.base := Hub.base demo_hub;
     Hub.uuid4 := Hub.uuid4 demo_hub;
     Hub.sns_client := Hub.sns_client demo_hub;
     Hub.utcnow := Hub.utcnow demo_hub;
     Hub.list_objects_v2 := fun _ _ _ _ _ => listing;
     Hub.put_object := fun _ _ _ _ _ => put;
     Hub.sns_publish := fun _ _ _ _ => sent |}.

Definition hub_initial : Hub.hub_state :=
  {| Hub.inner := initial; Hub.hub_log := [] |}.

Definition inventory_request : ListObjects.event_t :=
  {| ListObjects.ev_source_prefix := None;
     ListObjects.ev_execution_id := Some "0123456789" |}.

Definition report_request : GenerateReport.event_t :=
  {| GenerateReport.ev_execution_id := Some "0123456789";
     GenerateReport.ev_validation := Some {[ "status" := "PASSED" ]};
     GenerateReport.ev_source_bucket := None;
     GenerateReport.ev_source_prefix := None;
     GenerateReport.ev_destination_bucket := None;
     GenerateReport.ev_destination_prefix := None;
     GenerateReport.ev_total_objects := Some 3;
     GenerateReport.ev_total_size_bytes := Some 21;
     GenerateReport.ev_manifest_bucket := Some "manifests";
     GenerateReport.ev_manifest_key := Some "manifests/0123456789/manifest.json" |}.

(** * Properties *)

(** ** Destination keys *)

Section DestKey.

Lemma append_cons (c : Ascii.ascii) (p rest : string) :
  String c p +:+ rest = String c (p +:+ rest).
Proof. reflexivity. Qed.

Lemma length_append (p rest : string) :
  String.length (p +:+ rest) = (String.length p + String.length rest)%nat.
Proof.
  induction p as [|c p IH]; [reflexivity|].
  rewrite append_cons. simpl. now rewrite IH.
Qed.

Lemma startswith_split (s p : string) :
  Py.startswith s p = true ->
  s = p +:+ Py.slice_from (String.length p) s.
Proof.
  revert s. induction p as [|c p IH]; intros s Hs.
  - reflexivity.
  - destruct s as [|d s]; simpl in Hs; [discriminate|].
    apply andb_true_iff in Hs as [Hc Hp].
    apply Ascii.eqb_eq in Hc. subst d.
    simpl. rewrite append_cons. f_equal. now apply IH.
Qed.

Lemma truthy_false (s : string) : Py.truthy s = false -> s = "".
Proof. now destruct s. Qed.

Lemma prefix_or_not (dest_prefix key : string) :
  (if Py.truthy dest_prefix then dest_prefix +:+ key else key)
  = dest_prefix +:+ key.
Proof. now destruct dest_prefix. Qed.

Lemma relative_key_match (source_prefix source_key : string) :
  Py.startswith source_key source_prefix = true ->
  source_key = source_prefix +:+ relative_key source_prefix source_key.
Proof.
  intros Hs. unfold relative_key. rewrite Hs, andb_true_r.
  destruct (Py.truthy source_prefix) eqn:Ht.
  - now apply startswith_split.
  - apply truthy_false in Ht. now subst.
Qed.

Lemma relative_key_nomatch (source_prefix source_key : string) :
  Py.startswith source_key source_prefix = false ->
  relative_key source_prefix source_key = source_key.
Proof. intros Hs. unfold relative_key. now rewrite Hs, andb_false_r. Qed.

End DestKey.

Example dest_key_match :
  dest_key "data/" "out/" "data/a/b.txt" = "out/a/b.txt".
Proof. reflexivity. Qed.

Example dest_key_no_prefixes : dest_key "" "" "simple.txt" = "simple.txt".
Proof. reflexivity. Qed.

(** C1, as the spec states its second half, fails: with source prefix
    ["data/"] and destination prefix ["out/"], the key ["other/x.txt"]
    does not start with the source prefix, and its destination key is
    ["out/other/x.txt"], not the source key. *)
Lemma dest_key_nomatch_not_unchanged :
  Py.startswith "other/x.txt" "data/" = false /\
  dest_key "data/" "out/" "other/x.txt" = "out/other/x.txt" /\
  dest_key "data/" "out/" "other/x.txt" <> "other/x.txt".
Proof. repeat split; discriminate. Qed.

(** C1 (amended): a source key that starts with the source prefix gets
    the destination prefix followed by the remainder of the key; a source
    key that does not start with it gets the destination prefix followed
    by the whole source key, so it is unchanged exactly when the
    destination prefix is empty. *)
Theorem dest_key_derivation (source_prefix dest_prefix source_key : string) :
  (Py.startswith source_key source_prefix = true ->
   exists rest,
     source_key = source_prefix +:+ rest /\
     dest_key source_prefix dest_prefix source_key = dest_prefix +:+ rest) /\
  (Py.startswith source_key source_prefix = false ->
   dest_key source_prefix dest_prefix source_key = dest_prefix +:+ source_key /\
   (dest_key source_prefix dest_prefix source_key = source_key <->
    dest_prefix = "")).
Proof.
  unfold dest_key. rewrite prefix_or_not. split; intros Hs.
  - exists (relative_key source_prefix source_key). split; [|reflexivity].
    now apply relative_key_match.
  - rewrite (relative_key_nomatch _ _ Hs). split; [reflexivity|].
    split; [|now intros ->].
    intros Heq. apply (f_equal String.length) in Heq.
    rewrite length_append in Heq.
    destruct dest_prefix; [reflexivity|simpl in Heq; lia].
Qed.

Lemma dest_key_derivation_witness :
  (exists rest,
     "data/a/b.txt" = "data/" +:+ rest /\
     dest_key "data/" "out/" "data/a/b.txt" = "out/" +:+ rest) /\
  dest_key "data/" "out/" "other/x.txt" = "out/" +:+ "other/x.txt".
Proof.
  split.
  - apply (proj1 (dest_key_derivation "data/" "out/" "data/a/b.txt")).
    reflexivity.
  - apply (proj2 (dest_key_derivation "data/" "out/" "other/x.txt")).
    reflexivity.
Defined.

(** ** Error classification *)

(** C9: classification is a function of the error (its code and text)
    and of the operation or role alone.  In [s3_client.py] the codes
    [AccessDenied] and [403] give an [AccessDeniedError], which is not
    retryable; the throttling, server-error and timeout codes [SlowDown],
    [503], [RequestTimeout] and [InternalError] give a [RetryableError];
    and so does every other code.  In [sts_client.py] the codes
    [AccessDenied] and [AccessDeniedException] give an
    [AccessDeniedError] and every other code a [RetryableError]. *)
Theorem classification (e : exn) (operation role_arn : string) :
  let s3_error := S3Client._classify_s3_error e operation in
  let sts_error := StsClient.classify_sts_error role_arn e in
  (error_code e ∈ ["AccessDenied"; "403"] ->
   cls s3_error = AccessDeniedError /\ retryable s3_error = false /\
   isinstance s3_error NonRetryableError = true) /\
  (error_code e ∈ ["SlowDown"; "503"; "RequestTimeout"; "InternalError"] ->
   cls s3_error = RetryableError /\ retryable s3_error = true) /\
  (error_code e ∉ ["AccessDenied"; "403"] ->
   cls s3_error = RetryableError /\ retryable s3_error = true) /\
  (error_code e ∈ ["AccessDenied"; "AccessDeniedException"] ->
   cls sts_error = AccessDeniedError /\ retryable sts_error = false /\
   isinstance sts_error NonRetryableError = true) /\
  (error_code e ∉ ["AccessDenied"; "AccessDeniedException"] ->
   cls sts_error = RetryableError /\ retryable sts_error = true) /\
  details s3_error
  = Fields [("error_code", error_code e); ("operation", operation)] /\
  details sts_error
  = Fields [("role_arn", role_arn); ("error_code", error_code e)].
Proof.
  cbv zeta. unfold S3Client._classify_s3_error, StsClient.classify_sts_error.
  repeat apply conj; intros; repeat case_bool_decide;
    try (by repeat split);
    exfalso; set_unfold; intuition congruence.
Qed.

Lemma classification_witness :
  (cls (S3Client._classify_s3_error
          {| cls := ClientError; message := "denied"; details := NoDetails;
             error_code := "403" |} "copy_object") = AccessDeniedError /\
   retryable (S3Client._classify_s3_error
          {| cls := ClientError; message := "denied"; details := NoDetails;
             error_code := "403" |} "copy_object") = false /\
   isinstance (S3Client._classify_s3_error
          {| cls := ClientError; message := "denied"; details := NoDetails;
             error_code := "403" |} "copy_object") NonRetryableError = true) /\
  (cls (S3Client._classify_s3_error
          {| cls := ClientError; message := "?"; details := NoDetails;
             error_code := "NoSuchKey" |} "copy_object") = RetryableError /\
   retryable (S3Client._classify_s3_error
          {| cls := ClientError; message := "?"; details := NoDetails;
             error_code := "NoSuchKey" |} "copy_object") = true).
Proof.
  split.
  - apply (proj1 (classification
                    {| cls := ClientError; message := "denied";
                       details := NoDetails; error_code := "403" |}
                    "copy_object" "role")).
    compute_done.
  - apply (proj1 (proj2 (proj2 (classification
                    {| cls := ClientError; message := "?";
                       details := NoDetails; error_code := "NoSuchKey" |}
                    "copy_object" "role")))).
    compute_done.
Defined.

(** ** The parts of a chunked copy *)

Section Parts.

(** The quotient of positive integers, rounded as Python rounds it. *)
Lemma round_half_even_near (num den : Z) :
  0 < den ->
  - den <= 2 * (Py.round_half_even num den * den - num) <= den.
Proof.
  intros Hden. unfold Py.round_half_even.
  pose proof (Z.div_mod num den ltac:(lia)) as Hdm.
  pose proof (Z.mod_pos_bound num den Hden) as Hr.
  destruct (2 * (num mod den) ?= den) eqn:Hc.
  - apply Z.compare_eq in Hc. destruct (Z.even (num / den)); nia.
  - rewrite Z.compare_lt_iff in Hc. nia.
  - rewrite Z.compare_gt_iff in Hc. nia.
Qed.

Lemma round_half_even_exact (k den : Z) :
  0 < den -> Py.round_half_even (k * den) den = k.
Proof.
  intros Hden. unfold Py.round_half_even.
  rewrite Z.mod_mul, Z.div_mul by lia. change (2 * 0) with 0.
  assert (Hc : (0 ?= den) = Lt) by now apply Z.compare_lt_iff.
  now rewrite Hc.
Qed.

(** [2 ^ binade p q <= p / q]. *)
Lemma binade_lower (p q : Z) :
  0 < p -> 0 < q ->
  (0 <= Py.binade p q -> q * 2 ^ Py.binade p q <= p) /\
  (Py.binade p q < 0 -> q <= p * 2 ^ (- Py.binade p q)).
Proof.
  intros Hp Hq. unfold Py.binade.
  pose proof (Z.log2_spec p Hp) as [Hp1 _].
  pose proof (Z.log2_spec q Hq) as [_ Hq2].
  pose proof (Z.log2_nonneg p) as Hlp. pose proof (Z.log2_nonneg q) as Hlq.
  set (lp := Z.log2 p) in *. set (lq := Z.log2 q) in *.
  destruct (0 <=? lp - lq) eqn:Hd.
  - apply Z.leb_le in Hd.
    destruct (q * 2 ^ (lp - lq) <=? p) eqn:Hc.
    + apply Z.leb_le in Hc. split; [intros _; exact Hc|lia].
    + apply Z.leb_gt in Hc. split.
      * intros He.
        assert (H2 : 2 ^ lp = 2 ^ Z.succ lq * 2 ^ (lp - lq - 1)).
        { rewrite <- Z.pow_add_r by lia; f_equal; lia. }
        assert (0 < 2 ^ (lp - lq - 1)) by (apply Z.pow_pos_nonneg; lia).
        nia.
      * intros He. assert (lp = lq) as -> by lia.
        replace (- (lq - lq - 1)) with 1 by lia.
        rewrite Z.pow_succ_r in Hq2 by lia. lia.
  - apply Z.leb_gt in Hd.
    assert (0 < 2 ^ (- (lp - lq))) by (apply Z.pow_pos_nonneg; lia).
    destruct (q <=? p * 2 ^ (- (lp - lq))) eqn:Hc.
    + apply Z.leb_le in Hc. split; [lia|intros _; exact Hc].
    + split; [lia|]. intros _.
      assert (H2 : 2 ^ Z.succ lq = 2 ^ lp * 2 ^ (- (lp - lq - 1))).
      { rewrite <- Z.pow_add_r by lia; f_equal; lia. }
      assert (0 < 2 ^ (- (lp - lq - 1))) by (apply Z.pow_pos_nonneg; lia).
      nia.
Qed.

(** Within these bounds the ceiling of the float quotient is the
    ceiling of the quotient. *)
Lemma truediv_ceil (a b : Z) :
  0 < a < 2 ^ 53 -> 0 < b < 2 ^ 1075 ->
  exists x, Py.truediv a b = Py.Quotient x /\ Py.math_ceil x = - (- a / b).
Proof.
  intros [Ha Ha53] [Hb Hb1075].
  unfold Py.truediv, Py.nearest_binary64.
  replace (b =? 0) with false by (symmetry; apply Z.eqb_neq; lia).
  replace (a =? 0) with false by (symmetry; apply Z.eqb_neq; lia).
  replace (a <? 0) with false by (symmetry; apply Z.ltb_ge; lia).
  replace (b <? 0) with false by (symmetry; apply Z.ltb_ge; lia).
  rewrite (Z.abs_eq a), (Z.abs_eq b) by lia. cbv zeta.
  destruct (binade_lower a b Ha Hb) as [Hpos Hneg].
  set (e := Py.binade a b) in *.
  assert (He : e <= 52).
  { destruct (Z_le_gt_dec e 52) as [H|H]; [exact H|].
    assert (H53 : 2 ^ e = 2 ^ 53 * 2 ^ (e - 53)).
    { rewrite <- Z.pow_add_r by lia; f_equal; lia. }
    assert (0 < 2 ^ (e - 53)) by (apply Z.pow_pos_nonneg; lia).
    specialize (Hpos ltac:(lia)). nia. }
  set (shift := 52 - Z.max e (-1022)).
  assert (Hshift : 0 <= shift <= 1074) by (subst shift; lia).
  replace (0 <=? shift) with true by (symmetry; apply Z.leb_le; lia).
  assert (HP : 0 < 2 ^ shift) by (apply Z.pow_pos_nonneg; lia).
  assert (Hgap : b < 2 * 2 ^ shift).
  { rewrite <- Z.pow_succ_r by lia.
    destruct (Z_le_gt_dec (-1022) e) as [Hnormal|Hsub].
    - replace (Z.succ shift) with (53 - e) by (subst shift; lia).
      destruct (Z_le_gt_dec 0 e) as [H0|H0].
      + specialize (Hpos H0).
        assert (H53 : 2 ^ 53 = 2 ^ e * 2 ^ (53 - e)).
        { rewrite <- Z.pow_add_r by lia; f_equal; lia. }
        assert (0 < 2 ^ e) by (apply Z.pow_pos_nonneg; lia).
        nia.
      + specialize (Hneg ltac:(lia)).
        assert (H53 : 2 ^ (53 - e) = 2 ^ 53 * 2 ^ (- e)).
        { rewrite <- Z.pow_add_r by lia; f_equal; lia. }
        assert (0 < 2 ^ (- e)) by (apply Z.pow_pos_nonneg; lia).
        nia.
    - replace (Z.succ shift) with 1075 by (subst shift; lia). exact Hb1075. }
  set (P := 2 ^ shift) in *.
  pose proof (Z.div_mod a b ltac:(lia)) as Hdm.
  pose proof (Z.mod_pos_bound a b Hb) as Hrem.
  assert (Hk : 0 <= a / b) by (apply Z.div_pos; lia).
  assert (Hk53 : a / b < 2 ^ 53) by nia.
  set (k := a / b) in *. set (rem := a mod b) in *.
  set (n := Py.round_half_even (a * P) b).
  assert (Hn : k * P <= n < (k + 1) * P \/ (rem = 0 /\ n = k * P)).
  { destruct (Z.eq_dec rem 0) as [H0|H0].
    - right. split; [exact H0|]. subst n.
      replace (a * P) with (k * P * b) by nia.
      now apply round_half_even_exact.
    - left. pose proof (round_half_even_near (a * P) b Hb) as Hnear.
      fold n in Hnear. nia. }
  assert (Hbig : 2 ^ 1024 = 2 ^ 53 * 2 ^ 971) by (rewrite <- Z.pow_add_r; [reflexivity|lia..]).
  assert (H971 : 0 < 2 ^ 971) by (apply Z.pow_pos_nonneg; lia).
  assert (Hfinite :
    Qle_bool (inject_Z (2 ^ 1024)) (n # Z.to_pos P) = false).
  { apply not_true_iff_false. rewrite Qle_bool_iff. unfold Qle. simpl.
    rewrite Z2Pos.id by exact HP. nia. }
  rewrite Hfinite. eexists. split; [reflexivity|].
  unfold Py.math_ceil, Qceiling, Qfloor, Qopp. cbn [xorb Qnum Qden].
  rewrite Z2Pos.id by exact HP.
  assert (Hexact : - a / b = if Z.eq_dec rem 0 then - k else - k - 1).
  { destruct (Z.eq_dec rem 0) as [H0|H0].
    - symmetry. apply (Z.div_unique (- a) b (- k) 0); lia.
    - symmetry. apply (Z.div_unique (- a) b (- k - 1) (b - rem)); lia. }
  rewrite Hexact. f_equal.
  destruct (Z.eq_dec rem 0) as [H0|H0].
  - destruct Hn as [Hn|[_ Hn]].
    + assert (n = k * P).
      { pose proof (round_half_even_near (a * P) b Hb) as Hnear.
        fold n in Hnear. nia. }
      symmetry. apply (Z.div_unique (- n) P (- k) 0); lia.
    + symmetry. apply (Z.div_unique (- n) P (- k) 0); lia.
  - destruct Hn as [Hn|[Hz _]]; [|contradiction].
    assert (Hstrict : k * P < n).
    { pose proof (round_half_even_near (a * P) b Hb) as Hnear.
      fold n in Hnear. nia. }
    symmetry. apply (Z.div_unique (- n) P (- k - 1) ((k + 1) * P - n)); lia.
Qed.

Lemma round_half_even_nonneg (num den : Z) :
  0 <= num -> 0 < den -> 0 <= Py.round_half_even num den.
Proof.
  intros Hnum Hden. unfold Py.round_half_even.
  assert (0 <= num / den) by (apply Z.div_pos; lia).
  destruct (2 * (num mod den) ?= den); [destruct (Z.even _)|..]; lia.
Qed.

Lemma nearest_binary64_nonneg (p q : Z) :
  0 < p -> 0 < q -> (0 <= Py.nearest_binary64 p q)%Q.
Proof.
  intros Hp Hq. unfold Py.nearest_binary64. cbv zeta.
  destruct (0 <=? _) eqn:Hshift.
  - unfold Qle. simpl. rewrite Z.mul_1_r.
    apply round_half_even_nonneg; [|exact Hq].
    apply Z.mul_nonneg_nonneg; [lia|]. apply Z.pow_nonneg. lia.
  - change 0%Q with (inject_Z 0). rewrite <- Zle_Qle.
    apply Z.leb_gt in Hshift.
    assert (0 < 2 ^ (- (52 - Z.max (Py.binade p q) (-1022))))
      by (apply Z.pow_pos_nonneg; lia).
    apply Z.mul_nonneg_nonneg; [|lia].
    apply round_half_even_nonneg; [lia|]. nia.
Qed.

(** A quotient of a size that is not positive by a positive part size
    is not positive, when it is a float at all. *)
Lemma truediv_nonpos (a b : Z) (x : Q) :
  a <= 0 -> 0 < b -> Py.truediv a b = Py.Quotient x -> (x <= 0)%Q.
Proof.
  intros Ha Hb. unfold Py.truediv.
  replace (b =? 0) with false by (symmetry; apply Z.eqb_neq; lia).
  destruct (a =? 0) eqn:Hzero.
  { intros [= <-]. apply Qle_refl. }
  apply Z.eqb_neq in Hzero. cbv zeta.
  destruct (Qle_bool _ _); [discriminate|].
  replace (a <? 0) with true by (symmetry; apply Z.ltb_lt; lia).
  replace (b <? 0) with false by (symmetry; apply Z.ltb_ge; lia).
  intros [= <-].
  pose proof (nearest_binary64_nonneg (Z.abs a) (Z.abs b) ltac:(lia)
                ltac:(lia)) as Hx.
  simpl xorb. cbv iota. lra.
Qed.

(** The ceiling of a quotient, in integer arithmetic. *)
Lemma ceiling_bounds (a b : Z) :
  0 < b -> (- (- a / b) - 1) * b < a <= - (- a / b) * b.
Proof.
  intros Hb.
  pose proof (Z.div_mod (- a) b ltac:(lia)) as Hdm.
  pose proof (Z.mod_pos_bound (- a) b Hb) as Hr.
  nia.
Qed.

(** For the sizes a copy admits (below [2^53]) and part sizes that do
    not let the quotient underflow (below [2^1075]), the number of
    parts is the ceiling of size over part size. *)
Lemma num_parts_ceiling (object_size part_size : Z) :
  0 <= object_size < 2 ^ 53 -> 0 < part_size < 2 ^ 1075 ->
  S3Client.num_parts object_size part_size
  = inr (- (- object_size / part_size)).
Proof.
  intros [Ha Ha53] Hb. unfold S3Client.num_parts.
  destruct (Z.eq_dec object_size 0) as [->|Hpos].
  - unfold Py.truediv.
    replace (part_size =? 0) with false by (symmetry; apply Z.eqb_neq; lia).
    reflexivity.
  - destruct (truediv_ceil object_size part_size ltac:(lia) Hb)
      as (x & -> & Hceil).
    now rewrite Hceil.
Qed.

Lemma num_parts_bounds (object_size part_size n : Z) :
  0 < part_size ->
  n = - (- object_size / part_size) ->
  (n - 1) * part_size < object_size <= n * part_size.
Proof. intros Hb ->. now apply ceiling_bounds. Qed.

Lemma num_parts_nonneg (object_size part_size n : Z) :
  0 <= object_size -> 0 < part_size ->
  n = - (- object_size / part_size) ->
  0 <= n.
Proof.
  intros Ha Hb Hn.
  pose proof (num_parts_bounds object_size part_size n Hb Hn). nia.
Qed.

Lemma range_elem (lo hi k : Z) : k ∈ Py.range lo hi <-> lo <= k < hi.
Proof.
  unfold Py.range. rewrite list_elem_of_fmap. split.
  - intros (i & -> & Hi). apply elem_of_seq in Hi. lia.
  - intros Hk. exists (Z.to_nat (k - lo)). split; [lia|].
    apply elem_of_seq. lia.
Qed.

Lemma range_cons (lo hi : Z) :
  lo < hi -> Py.range lo hi = lo :: Py.range (lo + 1) hi.
Proof.
  intros H. unfold Py.range.
  replace (Z.to_nat (hi - lo)) with (S (Z.to_nat (hi - (lo + 1)))) by lia.
  simpl. f_equal; [lia|].
  rewrite <- seq_shift, map_map. apply map_ext. intros i. lia.
Qed.

End Parts.

(** ** Running computations *)

Section Running.

Lemma trace_log (ev : event) (st : state) :
  trace (log ev st) = trace st ++ [ev].
Proof. reflexivity. Qed.

Lemma run_counted {A} (name : string) (func : M A) (st : state) :
  counted name func st = func (log (EvCall name) st).
Proof. reflexivity. Qed.

Lemma run_random_uniform (w : World) (a b : Q) (st : state) :
  random_uniform w a b st
  = (Ok (a + (b - a) * rng w (trace st))%Q, log (EvRandom (rng w (trace st))) st).
Proof. reflexivity. Qed.

Lemma run_time_sleep (d : Q) (st : state) :
  (0 <= d)%Q -> time_sleep d st = (Ok tt, log (EvSleep d) st).
Proof.
  intros Hd. unfold time_sleep, Py.Qltb.
  apply Qle_bool_iff in Hd. now rewrite Hd.
Qed.

Lemma run_s3_call (w : World) (c : client) (req : s3_request) (st : state) :
  s3_call w c req st
  = (match s3 w (trace st) c req with
     | inl e => Raise e
     | inr r => Ok r
     end,
     log (EvS3 c req (s3 w (trace st) c req)) st).
Proof. unfold s3_call. now destruct (s3 w (trace st) c req). Qed.

Lemma run_sts_call (w : World) (req : sts_request) (st : state) :
  sts_call w req st
  = (match sts w (trace st) req with
     | inl e => Raise e
     | inr r => Ok r
     end,
     log (EvSts req (sts w (trace st) req)) st).
Proof. unfold sts_call. now destruct (sts w (trace st) req). Qed.

Lemma sleeps_app (t1 t2 : list event) :
  sleeps (t1 ++ t2) = sleeps t1 ++ sleeps t2.
Proof. apply omap_app. Qed.

Lemma calls_app (name : string) (t1 t2 : list event) :
  calls name (t1 ++ t2) = (calls name t1 + calls name t2)%nat.
Proof. unfold calls. now rewrite omap_app, length_app. Qed.

Lemma calls_mark (name : string) (t : list event) :
  calls name (t ++ [EvCall name]) = S (calls name t).
Proof.
  rewrite calls_app. unfold calls at 2. simpl.
  rewrite String.eqb_refl. simpl. lia.
Qed.

Lemma calls_snoc (name : string) (t : list event) (ev : event) :
  call_of name ev = None -> calls name (t ++ [ev]) = calls name t.
Proof.
  intros He. rewrite calls_app. unfold calls at 2. simpl.
  rewrite He. simpl. lia.
Qed.

Lemma sleeps_snoc (t : list event) (ev : event) :
  sleep_of ev = None -> sleeps (t ++ [ev]) = sleeps t.
Proof.
  intros He. rewrite sleeps_app. unfold sleeps at 2. simpl.
  rewrite He. apply app_nil_r.
Qed.

Lemma sleeps_snoc_sleep (t : list event) (d : Q) :
  sleeps (t ++ [EvSleep d]) = sleeps t ++ [d].
Proof. now rewrite sleeps_app. Qed.

Lemma quiet_counted {A} (name : string) (func : M A) (st : state) :
  quiet name func ->
  calls name (trace (snd (counted name func st))) = S (calls name (trace st)) /\
  sleeps (trace (snd (counted name func st))) = sleeps (trace st).
Proof.
  intros Hq. rewrite run_counted.
  destruct (Hq (log (EvCall name) st)) as [Hc Hs].
  rewrite Hc, Hs, trace_log, calls_mark, sleeps_app. simpl.
  now rewrite app_nil_r.
Qed.

End Running.

(** ** The retrier *)

Section Retrier.
Context {A : Type}.
Variable w : World.
Variable max_attempts : Z.
Variables base_delay max_delay : Q.
Variable retryable_exceptions : list exn_class.

Lemma attempts_success (func : M A) (attempt : Z) (rest : list Z)
    (last : option exn) (st st1 : state) (v : A) :
  func st = (Ok v, st1) ->
  Retry.attempts w max_attempts base_delay max_delay retryable_exceptions
    func (attempt :: rest) last st = (Ok v, st1).
Proof. intros Hf. simpl. unfold try_except. now rewrite Hf. Qed.

Lemma attempts_fail_fast (func : M A) (attempt : Z) (rest : list Z)
    (last : option exn) (st st1 : state) (e : exn) :
  func st = (Raise e, st1) ->
  isinstance_any e retryable_exceptions = false ->
  Retry.attempts w max_attempts base_delay max_delay retryable_exceptions
    func (attempt :: rest) last st = (Raise e, st1).
Proof.
  intros Hf He. simpl. unfold try_except. rewrite Hf, He.
  now destruct (isinstance e NonRetryableError).
Qed.

Lemma attempts_last (func : M A) (rest : list Z) (last : option exn)
    (st st1 : state) (e : exn) :
  func st = (Raise e, st1) ->
  Retry.attempts w max_attempts base_delay max_delay retryable_exceptions
    func (max_attempts - 1 :: rest) last st = (Raise e, st1).
Proof.
  intros Hf. simpl. unfold try_except. rewrite Hf, Z.eqb_refl.
  destruct (isinstance_any e retryable_exceptions); [reflexivity|].
  now destruct (isinstance e NonRetryableError).
Qed.

Hypothesis base_delay_nonneg : (0 <= base_delay)%Q.
Hypothesis max_delay_nonneg : (0 <= max_delay)%Q.
Hypothesis rng_unit : forall t, (0 <= rng w t <= 1)%Q.

Lemma cap_nonneg (attempt : Z) : (0 <= Retry.cap base_delay max_delay attempt)%Q.
Proof.
  unfold Retry.cap. apply Q.min_glb; [exact max_delay_nonneg|].
  apply Qmult_le_0_compat; [exact base_delay_nonneg|].
  change 0%Q with (inject_Z 0). rewrite <- Zle_Qle.
  apply Z.pow_nonneg. lia.
Qed.

Lemma jitter_bounds (attempt : Z) (u : Q) :
  (0 <= u <= 1)%Q ->
  (0 <= 0 + (Retry.cap base_delay max_delay attempt - 0) * u <= Retry.cap base_delay max_delay attempt)%Q.
Proof.
  intros [H0 H1]. pose proof (cap_nonneg attempt) as Hc.
  split; nra.
Qed.

Lemma attempts_retry (func : M A) (attempt : Z) (rest : list Z)
    (last : option exn) (st st1 : state) (e : exn) :
  func st = (Raise e, st1) ->
  isinstance_any e retryable_exceptions = true ->
  attempt <> max_attempts - 1 ->
  attempt < 1024 ->
  let u := rng w (trace st1) in
  let delay := (0 + (Retry.cap base_delay max_delay attempt - 0) * u)%Q in
  Retry.attempts w max_attempts base_delay max_delay retryable_exceptions
    func (attempt :: rest) last st
  = Retry.attempts w max_attempts base_delay max_delay retryable_exceptions
      func rest (Some e) (log (EvSleep delay) (log (EvRandom u) st1)).
Proof.
  intros Hf He Hne Hfloat u delay. simpl. unfold try_except. rewrite Hf, He.
  apply Z.eqb_neq in Hne. rewrite Hne. unfold Retry.delay_cap.
  apply Z.leb_gt in Hfloat. rewrite Hfloat.
  unfold bind at 1. rewrite run_random_uniform.
  unfold bind at 1. fold u. fold delay.
  rewrite run_time_sleep; [reflexivity|].
  apply jitter_bounds. apply rng_unit.
Qed.

(** From attempt 1024 on, a retryable failure before the last attempt
    ends the loop with the [OverflowError] of the delay computation. *)
Lemma attempts_overflow (func : M A) (attempt : Z) (rest : list Z)
    (last : option exn) (st st1 : state) (e : exn) :
  func st = (Raise e, st1) ->
  isinstance_any e retryable_exceptions = true ->
  attempt <> max_attempts - 1 ->
  1024 <= attempt ->
  Retry.attempts w max_attempts base_delay max_delay retryable_exceptions
    func (attempt :: rest) last st
  = (Raise (mk_exn OverflowError "int too large to convert to float"
              NoDetails), st1).
Proof.
  intros Hf He Hne Hbig. simpl. unfold try_except. rewrite Hf, He.
  apply Z.eqb_neq in Hne. rewrite Hne. unfold Retry.delay_cap.
  apply Z.leb_le in Hbig. now rewrite Hbig.
Qed.

End Retrier.

(** C5: with at least one attempt allowed, an operation whose invocation
    fails with an error that is not one of the retryable exceptions is
    invoked exactly once and the retrier never sleeps: the outcome of the
    decorated operation is the outcome of that one invocation, whatever
    [max_attempts] is; and at whatever attempt such a failure occurs, the
    loop ends there. *)
Theorem non_retryable_fails_fast {A} (w : World) (max_attempts : Z)
    (base_delay max_delay : Q) (retryable_exceptions : list exn_class)
    (name : string) (func : M A) (st st1 : state) (e : exn) :
  1 <= max_attempts ->
  quiet name func ->
  counted name func st = (Raise e, st1) ->
  isinstance_any e retryable_exceptions = false ->
  Retry.exponential_backoff_with_jitter w max_attempts base_delay max_delay
    retryable_exceptions (counted name func) st = (Raise e, st1) /\
  calls name (trace st1) = S (calls name (trace st)) /\
  sleeps (trace st1) = sleeps (trace st) /\
  (forall attempt rest last,
     Retry.attempts w max_attempts base_delay max_delay retryable_exceptions
       (counted name func) (attempt :: rest) last st = (Raise e, st1)).
Proof.
  intros Hn Hq Hf He.
  pose proof (quiet_counted name func st Hq) as [Hc Hs].
  rewrite Hf in Hc, Hs. simpl in Hc, Hs.
  repeat apply conj; [|exact Hc|exact Hs|].
  - unfold Retry.exponential_backoff_with_jitter, Retry.wrapper.
    rewrite range_cons by lia. now apply attempts_fail_fast.
  - intros attempt rest last. now apply attempts_fail_fast.
Qed.

Section Exhaustion.
Context {A : Type}.
Variable w : World.
Variable max_attempts : Z.
Variables base_delay max_delay : Q.
Variable retryable_exceptions : list exn_class.
Variable name : string.
Variable func : M A.

Hypothesis base_delay_nonneg : (0 <= base_delay)%Q.
Hypothesis max_delay_nonneg : (0 <= max_delay)%Q.
Hypothesis rng_unit : forall t, (0 <= rng w t <= 1)%Q.
Hypothesis func_quiet : quiet name func.
Hypothesis func_fails :
  forall st, exists e st',
    func st = (Raise e, st') /\ isinstance_any e retryable_exceptions = true.
Hypothesis attempts_convert : max_attempts <= 1025.


End Exhaustion.



(** ** The chunked copy *)

Section ChunkedCopy.
Variable w : World.
Variable s3_client : client.
Variables source_bucket source_key dest_bucket dest_key : string.
Variable object_size : Z.
Variable kms_key_id : string.
Variable part_size : Z.

Let create := CreateMultipartUpload dest_bucket dest_key
                (S3Client.sse_of kms_key_id).
Let abort (upload_id : string) :=
  AbortMultipartUpload dest_bucket dest_key upload_id.
Let run :=
  S3Client.multipart_copy__wrapped__ w s3_client source_bucket source_key
    dest_bucket dest_key object_size kms_key_id part_size.
Let rest_of_try :=
  S3Client.copy_and_complete w s3_client source_bucket source_key
    dest_bucket dest_key object_size part_size.

Lemma run_create_upload (st : state) :
  S3Client.create_upload w s3_client dest_bucket dest_key kms_key_id st
  = (match s3 w (trace st) s3_client create with
     | inl e => Raise e
     | inr (CreateMultipartUploadOutput upload_id) => Ok upload_id
     | inr _ => Raise (mk_exn KeyError "UploadId" NoDetails)
     end,
     log (EvS3 s3_client create (s3 w (trace st) s3_client create)) st).
Proof.
  unfold S3Client.create_upload, bind. rewrite run_s3_call. fold create.
  destruct (s3 w (trace st) s3_client create) as [e|[]]; reflexivity.
Qed.

Lemma run_abort_upload (upload_id : string) (st : state) :
  Py.truthy upload_id = true ->
  S3Client.abort_upload w s3_client dest_bucket dest_key upload_id st
  = (Ok tt,
     log (EvS3 s3_client (abort upload_id)
            (s3 w (trace st) s3_client (abort upload_id))) st).
Proof.
  intros Hid. unfold S3Client.abort_upload. rewrite Hid.
  unfold try_except, bind. rewrite run_s3_call. fold (abort upload_id).
  destruct (s3 w (trace st) s3_client (abort upload_id)); reflexivity.
Qed.

Lemma run_multipart_copy (st : state) :
  object_size <= S3Client.MAX_OBJECT_SIZE ->
  run st
  = match S3Client.create_upload w s3_client dest_bucket dest_key
            kms_key_id st with
    | (Raise e, st1) => (Raise e, st1)
    | (Ok upload_id, st1) =>
        match rest_of_try upload_id st1 with
        | (Ok r, st2) => (Ok r, st2)
        | (Raise e, st2) =>
            match S3Client.abort_upload w s3_client dest_bucket dest_key
                    upload_id st2 with
            | (Ok _, st3) => (Raise e, st3)
            | (Raise e', st3) => (Raise e', st3)
            end
        end
    end.
Proof.
  intros Hsize. unfold run, S3Client.multipart_copy__wrapped__.
  rewrite Z.gtb_ltb. apply Z.ltb_ge in Hsize. rewrite Hsize.
  unfold bind at 1.
  destruct (S3Client.create_upload _ _ _ _ _ st) as [[upload_id|e] st1];
    [|reflexivity].
  unfold try_except. fold rest_of_try.
  destruct (rest_of_try upload_id st1) as [[r|e] st2]; reflexivity.
Qed.

(** C3: in a chunked copy that passes the size guard,
    - when the initiation fails, its error is raised and the initiation
      is the only call made: no abort is attempted;
    - when an upload id (a non-empty string, as the [if upload_id]
      test requires) was assigned and the rest of the [try] block, the
      part copies and the completion, raises [e], the abort of that
      upload is the next and last call, and [e] itself is raised after
      it, whether the abort succeeds or fails. *)
Theorem abort_before_reraise (st : state) :
  object_size <= S3Client.MAX_OBJECT_SIZE ->
  (forall e st1,
     S3Client.create_upload w s3_client dest_bucket dest_key kms_key_id st
     = (Raise e, st1) ->
     run st = (Raise e, st1) /\
     trace st1
     = trace st ++ [EvS3 s3_client create (s3 w (trace st) s3_client create)]) /\
  (forall upload_id st1 e st2,
     S3Client.create_upload w s3_client dest_bucket dest_key kms_key_id st
     = (Ok upload_id, st1) ->
     Py.truthy upload_id = true ->
     rest_of_try upload_id st1 = (Raise e, st2) ->
     s3 w (trace st) s3_client create
     = inr (CreateMultipartUploadOutput upload_id) /\
     forall outcome,
       s3 w (trace st2) s3_client (abort upload_id) = outcome ->
       run st
       = (Raise e, log (EvS3 s3_client (abort upload_id) outcome) st2)).
Proof.
  intros Hsize. split.
  - intros e st1 Hc. rewrite run_multipart_copy, Hc by exact Hsize.
    split; [reflexivity|].
    rewrite run_create_upload in Hc. now inversion Hc.
  - intros upload_id st1 e st2 Hc Hid Hrest. split.
    + rewrite run_create_upload in Hc.
      destruct (s3 w (trace st) s3_client create) as [e0|[]];
        inversion Hc; reflexivity.
    + intros outcome <-.
      rewrite run_multipart_copy, Hc, Hrest by exact Hsize.
      now rewrite run_abort_upload.
Qed.

End ChunkedCopy.

Section PartCopies.
Variable w : World.
Variable s3_client : client.
Variables source_bucket source_key dest_bucket dest_key : string.
Variable object_size : Z.
Variable kms_key_id : string.
Variable part_size : Z.

Let planned (part_num : Z) : Z * (Z * Z) :=
  (part_num, S3Client.part_range object_size part_size part_num).

Lemma part_copies_snoc (t : list event) (ev : event) :
  part_copies (t ++ [ev])
  = part_copies t ++ match part_copy_of ev with Some p => [p] | None => [] end.
Proof.
  unfold part_copies. rewrite omap_app. simpl.
  now destruct (part_copy_of ev).
Qed.

(** The loop requests the parts it is given, in order, until one
    fails; the list it builds pairs each part number with a tag. *)
Lemma copy_parts_requests (upload_id : string) (part_nums : list Z) :
  forall (parts : list (Z * string)) (st : state) out st',
    S3Client.copy_parts w s3_client source_bucket source_key dest_bucket
      dest_key object_size part_size upload_id part_nums parts st
    = (out, st') ->
    exists requested,
      part_copies (trace st')
      = part_copies (trace st) ++ map planned requested /\
      match out with
      | Ok parts' =>
          requested = part_nums /\
          map fst parts' = map fst parts ++ part_nums
      | Raise _ => exists rest, part_nums = requested ++ rest
      end.
Proof.
  induction part_nums as [|part_num rest IH]; intros parts st out st' Hrun.
  - simpl in Hrun. inversion Hrun; subst. exists []. simpl.
    now rewrite !app_nil_r.
  - simpl in Hrun. unfold bind at 1 in Hrun. rewrite run_s3_call in Hrun.
    match type of Hrun with
    | context [s3 w (trace st) s3_client ?r] =>
        set (req := r) in *; destruct (s3 w (trace st) s3_client req)
          as [e|resp] eqn:Hresp
    end.
    + inversion Hrun; subst. exists [part_num]. split.
      * rewrite trace_log, part_copies_snoc. reflexivity.
      * now exists rest.
    + destruct resp;
        try (inversion Hrun; subst; exists [part_num]; split;
             [rewrite trace_log, part_copies_snoc; reflexivity
             |now exists rest]).
      apply IH in Hrun as (requested & Htrace & Hout).
      exists (part_num :: requested). split.
      * rewrite Htrace, trace_log, part_copies_snoc. simpl.
        now rewrite <- app_assoc.
      * destruct out as [parts'|e].
        -- destruct Hout as [-> Hfst]. split; [reflexivity|].
           rewrite Hfst, map_app. simpl. now rewrite <- app_assoc.
        -- destruct Hout as [rest' ->]. now exists rest'.
Qed.

(** A chunked copy, however it ends, has requested the planned parts
    from the first on, in ascending order, up to some part; when it
    returns it has requested them all, and nothing but the completion
    after them, with the parts listed in that order. *)
Lemma multipart_copy_requests (st : state) :
  let run :=
    S3Client.multipart_copy__wrapped__ w s3_client source_bucket source_key
      dest_bucket dest_key object_size kms_key_id part_size st in
  exists requested rest,
    planned_parts object_size part_size = requested ++ rest /\
    part_copies (trace (snd run))
    = part_copies (trace st) ++ map planned requested /\
    forall r,
      fst run = Ok r ->
      rest = [] /\
      exists upload_id parts t,
        trace (snd run)
        = t ++ [EvS3 s3_client
                  (CompleteMultipartUpload dest_bucket dest_key upload_id parts)
                  (inr r)] /\
        map fst parts = planned_parts object_size part_size.
Proof.
  cbv zeta.
  destruct (S3Client.multipart_copy__wrapped__ w s3_client source_bucket
              source_key dest_bucket dest_key object_size kms_key_id part_size
              st) as [out st'] eqn:Hrun.
  cbn [fst snd].
  assert (Hnone : forall e st0,
            out = Raise e -> part_copies (trace st') = part_copies (trace st0) ->
            part_copies (trace st0) = part_copies (trace st) ->
            exists requested rest,
              planned_parts object_size part_size = requested ++ rest /\
              part_copies (trace st')
              = part_copies (trace st) ++ map planned requested /\
              forall r,
                out = Ok r ->
                rest = [] /\
                exists upload_id parts t,
                  trace st'
                  = t ++ [EvS3 s3_client
                            (CompleteMultipartUpload dest_bucket dest_key
                               upload_id parts) (inr r)] /\
                  map fst parts = planned_parts object_size part_size).
  { intros e st0 -> H1 H2. exists [], (planned_parts object_size part_size).
    simpl. rewrite app_nil_r, H1, H2. repeat split; discriminate. }
  destruct (Z_le_gt_dec object_size S3Client.MAX_OBJECT_SIZE) as [Hsize|Hbig].
  2:{ unfold S3Client.multipart_copy__wrapped__ in Hrun.
      replace (object_size >? S3Client.MAX_OBJECT_SIZE) with true in Hrun
        by (symmetry; apply Z.gtb_lt; lia).
      injection Hrun as <- <-. now eapply (Hnone _ st). }
  rewrite run_multipart_copy in Hrun by exact Hsize.
  destruct (S3Client.create_upload w s3_client dest_bucket dest_key
              kms_key_id st) as [[upload_id|e] st1] eqn:Hc.
  2:{ injection Hrun as <- <-. rewrite run_create_upload in Hc.
      injection Hc as _ <-. eapply (Hnone _ st); [reflexivity| |reflexivity].
      rewrite trace_log, part_copies_snoc.
      apply app_nil_r. }
  assert (Hst1 : part_copies (trace st1) = part_copies (trace st)).
  { rewrite run_create_upload in Hc. inversion Hc.
    rewrite trace_log, part_copies_snoc. apply app_nil_r. }
  assert (Habort : forall st2,
    part_copies
      (trace (snd (S3Client.abort_upload w s3_client dest_bucket dest_key
                     upload_id st2))) = part_copies (trace st2) /\
    fst (S3Client.abort_upload w s3_client dest_bucket dest_key upload_id st2)
    = Ok tt).
  { intros st2. destruct (Py.truthy upload_id) eqn:Hid.
    - rewrite run_abort_upload by exact Hid. cbn [fst snd].
      rewrite trace_log, part_copies_snoc. simpl. now rewrite app_nil_r.
    - unfold S3Client.abort_upload. rewrite Hid. now split. }
  destruct (S3Client.copy_and_complete w s3_client source_bucket source_key
              dest_bucket dest_key object_size part_size upload_id st1)
    as [[r'|e] st2] eqn:Hrest.
  - inversion Hrun; subst out st2. clear Hrun.
    unfold S3Client.copy_and_complete in Hrest. unfold planned_parts.
    destruct (S3Client.num_parts object_size part_size) as [e|n];
      [discriminate|].
    unfold bind at 1 in Hrest.
    destruct (S3Client.copy_parts w s3_client source_bucket source_key
                dest_bucket dest_key object_size part_size upload_id
                (Py.range 1 (n + 1)) [] st1)
      as [[parts|e] st2] eqn:Hparts; [|discriminate].
    apply copy_parts_requests in Hparts as (requested & Htrace & -> & Hfst).
    rewrite run_s3_call in Hrest.
    destruct (s3 w (trace st2) s3_client _) as [e|r''] eqn:Hresp;
      inversion Hrest; subst.
    exists (Py.range 1 (n + 1)), []. split; [now rewrite app_nil_r|]. split.
    + rewrite trace_log, part_copies_snoc, Htrace, Hst1. apply app_nil_r.
    + intros r [= <-]. split; [reflexivity|].
      exists upload_id, parts, (trace st2). split; [|exact Hfst].
      now rewrite trace_log.
  - destruct (Habort st2) as [Hkeep Hok].
    destruct (S3Client.abort_upload w s3_client dest_bucket dest_key upload_id
                st2) as [[[]|e'] st3]; [|discriminate].
    cbn [fst snd] in *. inversion Hrun; subst out st3. clear Hrun.
    unfold S3Client.copy_and_complete in Hrest. unfold planned_parts.
    destruct (S3Client.num_parts object_size part_size) as [e0|n].
    { inversion Hrest; subst. exists [], []. simpl. rewrite app_nil_r.
      repeat split; try discriminate. now rewrite Hkeep. }
    unfold bind at 1 in Hrest.
    destruct (S3Client.copy_parts w s3_client source_bucket source_key
                dest_bucket dest_key object_size part_size upload_id
                (Py.range 1 (n + 1)) [] st1)
      as [[parts|e0] st4] eqn:Hparts.
    + apply copy_parts_requests in Hparts as (requested & Htrace & -> & Hfst).
      rewrite run_s3_call in Hrest.
      destruct (s3 w (trace st4) s3_client _) as [e0|r''] eqn:Hresp;
        inversion Hrest; subst.
      exists (Py.range 1 (n + 1)), []. split; [now rewrite app_nil_r|].
      split; [|discriminate].
      rewrite Hkeep, trace_log, part_copies_snoc, Htrace, Hst1.
      apply app_nil_r.
    + inversion Hrest; subst.
      apply copy_parts_requests in Hparts
        as (requested & Htrace & rest & Hsplit).
      exists requested, rest. split; [exact Hsplit|]. split; [|discriminate].
      now rewrite Hkeep, Htrace, Hst1.
Qed.

(** When S3 accepts every request of the lifecycle, the loop copies
    every part it is given. *)
Lemma copy_parts_accepted (upload_id : string) (part_nums : list Z) :
  (forall t part_num copy_source byte_range,
     exists etag,
       s3 w t s3_client
         (UploadPartCopy dest_bucket dest_key upload_id part_num copy_source
            byte_range) = inr (UploadPartCopyOutput etag)) ->
  forall parts st,
    exists parts' st',
      S3Client.copy_parts w s3_client source_bucket source_key dest_bucket
        dest_key object_size part_size upload_id part_nums parts st
      = (Ok parts', st').
Proof.
  intros Haccept.
  induction part_nums as [|part_num rest IH]; intros parts st.
  - now exists parts, st.
  - simpl. unfold bind at 1. rewrite run_s3_call.
    match goal with
    | |- context [s3 w (trace st) s3_client ?req] =>
        destruct (Haccept (trace st) part_num
                    (source_bucket +:+ "/" +:+ source_key)
                    (S3Client.part_range object_size part_size part_num))
          as [etag ->]
    end.
    apply IH.
Qed.

(** And the chunked copy returns. *)
Lemma multipart_copy_accepted (st : state) (n : Z) :
  object_size <= S3Client.MAX_OBJECT_SIZE ->
  S3Client.num_parts object_size part_size = inr n ->
  (forall t,
     exists upload_id,
       s3 w t s3_client
         (CreateMultipartUpload dest_bucket dest_key
            (S3Client.sse_of kms_key_id))
       = inr (CreateMultipartUploadOutput upload_id)) ->
  (forall t upload_id part_num copy_source byte_range,
     exists etag,
       s3 w t s3_client
         (UploadPartCopy dest_bucket dest_key upload_id part_num copy_source
            byte_range) = inr (UploadPartCopyOutput etag)) ->
  (forall t upload_id parts,
     exists r,
       s3 w t s3_client
         (CompleteMultipartUpload dest_bucket dest_key upload_id parts)
       = inr r) ->
  exists r,
    fst (S3Client.multipart_copy__wrapped__ w s3_client source_bucket
           source_key dest_bucket dest_key object_size kms_key_id part_size st)
    = Ok r.
Proof.
  intros Hsize Hn Hcreate Hpart Hcomplete.
  rewrite run_multipart_copy by exact Hsize.
  rewrite run_create_upload.
  destruct (Hcreate (trace st)) as [upload_id ->].
  unfold S3Client.copy_and_complete. rewrite Hn. unfold bind at 1.
  match goal with
  | |- context [S3Client.copy_parts _ _ _ _ _ _ _ _ _ ?nums ?parts ?s] =>
      destruct (copy_parts_accepted upload_id nums
                  (fun t => Hpart t upload_id) parts s)
        as (parts' & st2 & ->)
  end.
  rewrite run_s3_call.
  destruct (Hcomplete (trace st2) upload_id parts') as [r ->].
  now exists r.
Qed.

End PartCopies.

(** C2, as the spec states it for every size and every positive part
    size, fails: the number of parts is the ceiling of a float.  The
    quotient of 5 GiB by a part size of [2^1110] rounds to zero: the
    copy plans no part, where the ceiling of the quotient is one, and
    when S3 accepts every request it completes the upload with no part
    copied.  The same happens from the part size [2^1075] on (the
    quotient of 1 by it is half the smallest float, and rounds to
    zero); and from the size [2^53 + 1] on the quotient, here by a part
    size of 1, need not be the size divided by the part size. *)
Lemma part_count_is_float_ceiling :
  S3Client.num_parts (5 * 1024 * 1024 * 1024) (2 ^ 1110) = inr 0 /\
  - (- (5 * 1024 * 1024 * 1024) / 2 ^ 1110) = 1 /\
  S3Client.multipart_copy__wrapped__ (with_s3 accepting_s3) demo_client "src"
    "data/x" "dst" "out/x" (5 * 1024 * 1024 * 1024) "key" (2 ^ 1110) initial
  = (Ok (CompleteMultipartUploadOutput "etag"),
     {| trace :=
          [EvS3 demo_client (CreateMultipartUpload "dst" "out/x" (Some "key"))
             (inr (CreateMultipartUploadOutput "upload-1"));
           EvS3 demo_client
             (CompleteMultipartUpload "dst" "out/x" "upload-1" [])
             (inr (CompleteMultipartUploadOutput "etag"))];
        _credential_cache := ∅ |}) /\
  S3Client.num_parts 1 (2 ^ 1075) = inr 0 /\
  - (- 1 / 2 ^ 1075) = 1 /\
  S3Client.num_parts (2 ^ 53 + 1) 1 = inr (2 ^ 53) /\
  - (- (2 ^ 53 + 1) / 1) = 2 ^ 53 + 1.
Proof. vm_compute. repeat split. Qed.

(** C2: for an object size from 0 to below [2^53] (the copy admits at
    most 5 TiB) and a positive part size below [2^1075] (beyond it the
    float quotient can round to zero), the number of parts is the
    ceiling of size over part size; the loop runs over the part numbers
    1 to [num_parts] in order; part [n] covers the bytes from
    [(n-1) * part_size] to [min(n * part_size, size) - 1]; every part is
    non-empty and lies inside the object; each part starts right after
    the previous one ends, the first at byte 0 and the last ending at
    [size - 1]; so every byte of the object lies in exactly one part.  A
    chunked copy, however it ends, has requested these parts from the
    first on, in this order, up to some part; one that returns has
    requested them all; and when S3 accepts every request of an object
    within the size limit, the copy returns. *)
Theorem part_ranges_partition (object_size part_size : Z) :
  0 <= object_size < 2 ^ 53 -> 0 < part_size < 2 ^ 1075 ->
  exists n,
    S3Client.num_parts object_size part_size = inr n /\
    let range_of := S3Client.part_range object_size part_size in
    ((n - 1) * part_size < object_size <= n * part_size) /\
    Py.range 1 (n + 1) = map Z.of_nat (seq 1 (Z.to_nat n)) /\
    (forall k, k ∈ Py.range 1 (n + 1) <-> 1 <= k <= n) /\
    (forall k,
       range_of k
       = ((k - 1) * part_size, Z.min (k * part_size) object_size - 1)) /\
    (forall k,
       1 <= k <= n ->
       0 <= fst (range_of k) <= snd (range_of k) /\
       snd (range_of k) < object_size) /\
    (forall k, 1 <= k < n -> fst (range_of (k + 1)) = snd (range_of k) + 1) /\
    (1 <= n -> fst (range_of 1) = 0 /\ snd (range_of n) = object_size - 1) /\
    (forall b,
       0 <= b < object_size ->
       exists k,
         (1 <= k <= n /\ fst (range_of k) <= b <= snd (range_of k)) /\
         forall k',
           1 <= k' <= n -> fst (range_of k') <= b <= snd (range_of k') ->
           k' = k) /\
    (forall w s3_client source_bucket source_key dest_bucket dest_key
            kms_key_id st,
       let run :=
         S3Client.multipart_copy__wrapped__ w s3_client source_bucket
           source_key dest_bucket dest_key object_size kms_key_id part_size
           st in
       exists requested rest,
         Py.range 1 (n + 1) = requested ++ rest /\
         part_copies (trace (snd run))
         = part_copies (trace st)
           ++ map (fun k => (k, range_of k)) requested /\
         (forall r, fst run = Ok r -> rest = [])) /\
    (forall w s3_client source_bucket source_key dest_bucket dest_key
            kms_key_id st,
       object_size <= S3Client.MAX_OBJECT_SIZE ->
       (forall t,
          exists upload_id,
            s3 w t s3_client
              (CreateMultipartUpload dest_bucket dest_key
                 (S3Client.sse_of kms_key_id))
            = inr (CreateMultipartUploadOutput upload_id)) ->
       (forall t upload_id part_num copy_source byte_range,
          exists etag,
            s3 w t s3_client
              (UploadPartCopy dest_bucket dest_key upload_id part_num
                 copy_source byte_range) = inr (UploadPartCopyOutput etag)) ->
       (forall t upload_id parts,
          exists r,
            s3 w t s3_client
              (CompleteMultipartUpload dest_bucket dest_key upload_id parts)
            = inr r) ->
       exists r,
         fst (S3Client.multipart_copy__wrapped__ w s3_client source_bucket
                source_key dest_bucket dest_key object_size kms_key_id
                part_size st) = Ok r).
Proof.
  intros Hsize Hpart.
  pose proof (num_parts_ceiling object_size part_size Hsize Hpart) as Hnum.
  set (n := - (- object_size / part_size)) in *.
  exists n. split; [exact Hnum|]. intros range_of.
  pose proof (num_parts_bounds object_size part_size n ltac:(lia) eq_refl)
    as Hn.
  assert (Hn0 : 0 <= n)
    by (apply (num_parts_nonneg object_size part_size); [lia|lia|reflexivity]).
  assert (Hrange : forall k,
             range_of k
             = ((k - 1) * part_size, Z.min (k * part_size) object_size - 1)).
  { intros k. subst range_of. unfold S3Client.part_range. f_equal. lia. }
  repeat apply conj.
  - lia.
  - lia.
  - unfold Py.range. replace (n + 1 - 1) with n by lia.
    rewrite <- seq_shift, map_map. apply map_ext. intros i. lia.
  - intros k. rewrite range_elem. lia.
  - exact Hrange.
  - intros k Hk. rewrite Hrange. simpl. nia.
  - intros k Hk. rewrite !Hrange. simpl. nia.
  - intros H1. rewrite !Hrange. simpl. lia.
  - intros b Hb. exists (b / part_size + 1).
    pose proof (Z.div_mod b part_size) as Hdm.
    pose proof (Z.mod_pos_bound b part_size ltac:(lia)) as Hr.
    assert (Hq : 0 <= b / part_size) by (apply Z.div_pos; lia).
    split.
    + rewrite Hrange. simpl. nia.
    + intros k' Hk'. rewrite Hrange. simpl. intros Hin. nia.
  - intros w s3_client source_bucket source_key dest_bucket dest_key
      kms_key_id st run.
    destruct (multipart_copy_requests w s3_client source_bucket source_key
                dest_bucket dest_key object_size kms_key_id part_size st)
      as (requested & rest & Hplan & Hcopies & Hok).
    unfold planned_parts in Hplan. rewrite Hnum in Hplan.
    exists requested, rest. split; [exact Hplan|]. split; [exact Hcopies|].
    intros r Hr. now destruct (Hok r Hr).
  - intros w s3_client source_bucket source_key dest_bucket dest_key
      kms_key_id st Hmax Hcreate Hcopy Hcomplete.
    now apply (multipart_copy_accepted w s3_client source_bucket source_key
                 dest_bucket dest_key object_size kms_key_id part_size st n).
Qed.

Lemma part_ranges_partition_witness :
  S3Client.num_parts (6 * 1024 * 1024 * 1024) (100 * 1024 * 1024) = inr 62 /\
  S3Client.part_range (6 * 1024 * 1024 * 1024) (100 * 1024 * 1024) 62
  = (61 * (100 * 1024 * 1024), 6 * 1024 * 1024 * 1024 - 1) /\
  exists r,
    fst (S3Client.multipart_copy__wrapped__ (with_s3 accepting_s3) demo_client
           "src" "data/x" "dst" "out/x" (6 * 1024 * 1024 * 1024) "key"
           (100 * 1024 * 1024) initial) = Ok r.
Proof.
  destruct (part_ranges_partition (6 * 1024 * 1024 * 1024)
              (100 * 1024 * 1024)) as (n & Hnum & H).
  - split; [lia|reflexivity].
  - split; [lia|reflexivity].
  - cbv zeta in H.
    destruct H as (Hceil & _ & _ & Hrange & _ & _ & _ & _ & _ & Hreturns).
    assert (Hn : n = 62) by nia. subst n.
    split; [exact Hnum|]. split; [rewrite Hrange; reflexivity|].
    apply Hreturns.
    + unfold S3Client.MAX_OBJECT_SIZE. lia.
    + intros t. now exists "upload-1".
    + intros t upload_id part_num copy_source byte_range. now exists "etag".
    + intros t upload_id parts. now eexists.
Defined.

(** ** What a computation may add to the trace *)

(** Closes [only P c] for a computation that leaves the trace as it is. *)
Ltac adds_nothing :=
  let st := fresh "st" in
  intros st; exists []; simpl; split; [now rewrite app_nil_r|constructor].

Section Only.
Context {A : Type}.
Variable P : event -> Prop.

Lemma only_ret (a : A) : only P (ret a).
Proof. adds_nothing. Qed.

Lemma only_raise (e : exn) : only P (@raise A e).
Proof. adds_nothing. Qed.

Lemma only_bind {B} (c : M B) (k : B -> M A) :
  only P c -> (forall b, only P (k b)) -> only P (bind c k).
Proof.
  intros Hc Hk st. unfold bind.
  destruct (Hc st) as (d1 & Ht1 & Hd1).
  destruct (c st) as [[b|e] st1]; simpl in *.
  - destruct (Hk b st1) as (d2 & Ht2 & Hd2).
    exists (d1 ++ d2). rewrite Ht2, Ht1, app_assoc.
    split; [reflexivity|now apply Forall_app].
  - now exists d1.
Qed.

Lemma only_try_except (body : M A) (handler : exn -> M A) :
  only P body -> (forall e, only P (handler e)) ->
  only P (try_except body handler).
Proof.
  intros Hc Hk st. unfold try_except.
  destruct (Hc st) as (d1 & Ht1 & Hd1).
  destruct (body st) as [[a|e] st1]; simpl in *.
  - now exists d1.
  - destruct (Hk e st1) as (d2 & Ht2 & Hd2).
    exists (d1 ++ d2). rewrite Ht2, Ht1, app_assoc.
    split; [reflexivity|now apply Forall_app].
Qed.

End Only.

Section OnlyPrimitives.
Variable P : event -> Prop.
Variable w : World.

Lemma only_emit (ev : event) : P ev -> only P (emit ev).
Proof. intros Hev st. exists [ev]. simpl. split; [reflexivity|now constructor]. Qed.

Lemma only_time_time : (forall now, P (EvTime now)) -> only P (time_time w).
Proof.
  intros HP st. exists [EvTime (clock w (trace st))].
  split; [reflexivity|]. constructor; [apply HP|constructor].
Qed.

Lemma only_random_uniform (a b : Q) :
  (forall u, P (EvRandom u)) -> only P (random_uniform w a b).
Proof.
  intros HP st. exists [EvRandom (rng w (trace st))].
  split; [reflexivity|]. constructor; [apply HP|constructor].
Qed.

Lemma only_time_sleep (d : Q) : (forall d, P (EvSleep d)) -> only P (time_sleep d).
Proof.
  intros HP. unfold time_sleep. destruct (Py.Qltb d 0).
  - apply only_raise.
  - now apply only_emit.
Qed.

Lemma only_s3_call (c : client) (req : s3_request) :
  (forall resp, P (EvS3 c req resp)) -> only P (s3_call w c req).
Proof.
  intros HP st. rewrite run_s3_call. eexists [_]. split; [reflexivity|].
  constructor; [apply HP|constructor].
Qed.

Lemma only_sts_call (req : sts_request) :
  (forall resp, P (EvSts req resp)) -> only P (sts_call w req).
Proof.
  intros HP st. rewrite run_sts_call. eexists [_]. split; [reflexivity|].
  constructor; [apply HP|constructor].
Qed.

Lemma only_attempts {A} (max_attempts : Z) (base_delay max_delay : Q)
    (retryable_exceptions : list exn_class) (func : M A) :
  (forall u, P (EvRandom u)) -> (forall d, P (EvSleep d)) ->
  only P func ->
  forall remaining last,
    only P (Retry.attempts w max_attempts base_delay max_delay
              retryable_exceptions func remaining last).
Proof.
  intros Hr Hs Hf remaining.
  induction remaining as [|attempt rest IH]; intros last; simpl.
  - destruct last; apply only_raise.
  - apply only_try_except; [exact Hf|]. intros e.
    destruct (isinstance_any e retryable_exceptions).
    + destruct (attempt =? max_attempts - 1); [apply only_raise|].
      destruct (Retry.delay_cap base_delay max_delay attempt);
        [apply only_raise|].
      apply only_bind; [now apply only_random_uniform|]. intros delay.
      apply only_bind; [now apply only_time_sleep|]. intros _. apply IH.
    + destruct (isinstance e NonRetryableError); apply only_raise.
Qed.

(** After its first invocation of [func] the loop only adds to the
    trace. *)
Lemma attempts_after_first {A} (max_attempts : Z) (base_delay max_delay : Q)
    (retryable_exceptions : list exn_class) (func : M A) :
  (forall u, P (EvRandom u)) -> (forall d, P (EvSleep d)) ->
  only P func ->
  forall attempt rest last st,
    exists d,
      trace (snd (Retry.attempts w max_attempts base_delay max_delay
                    retryable_exceptions func (attempt :: rest) last st))
      = trace (snd (func st)) ++ d /\
      Forall P d.
Proof.
  intros Hr Hs Hf attempt rest last st. simpl. unfold try_except.
  destruct (func st) as [[v|e] st1]; simpl.
  { exists []. split; [now rewrite app_nil_r|constructor]. }
  match goal with
  | |- context [trace (snd (?handler st1))] =>
      assert (Hrest : only P handler)
  end.
  { destruct (isinstance_any e retryable_exceptions).
    - destruct (attempt =? max_attempts - 1); [apply only_raise|].
      destruct (Retry.delay_cap base_delay max_delay attempt);
        [apply only_raise|].
      apply only_bind; [now apply only_random_uniform|]. intros delay.
      apply only_bind; [now apply only_time_sleep|]. intros _.
      now apply only_attempts.
    - destruct (isinstance e NonRetryableError); apply only_raise. }
  exact (Hrest st1).
Qed.

Lemma only_retry {A} (max_attempts : Z) (base_delay max_delay : Q)
    (retryable_exceptions : list exn_class) (func : M A) :
  (forall u, P (EvRandom u)) -> (forall d, P (EvSleep d)) ->
  only P func ->
  only P (Retry.exponential_backoff_with_jitter w max_attempts base_delay
            max_delay retryable_exceptions func).
Proof. intros Hr Hs Hf. now apply only_attempts. Qed.

End OnlyPrimitives.

(** ** How often the retrier invokes an operation *)

Section Repeats.
Context {A B : Type}.
Variable view : event -> option B.
Variable w : World.
Variable max_attempts : Z.
Variables base_delay max_delay : Q.
Variable retryable_exceptions : list exn_class.
Variable func : M A.
Variable x : B.

Hypothesis view_random : forall u, view (EvRandom u) = None.
Hypothesis view_sleep : forall d, view (EvSleep d) = None.
Hypothesis func_once :
  forall st, omap view (trace (snd (func st))) = omap view (trace st) ++ [x].

Lemma omap_snoc_none (t : list event) (ev : event) :
  view ev = None -> omap view (t ++ [ev]) = omap view t.
Proof. intros He. rewrite omap_app. simpl. rewrite He. apply app_nil_r. Qed.

(** Each invocation shows once in the view, and there are at most as
    many invocations as attempts remain, and at least one if any
    remains. *)
Lemma attempts_repeat (remaining : list Z) :
  forall (last : option exn) (st : state),
    exists k : nat,
      omap view
        (trace (snd (Retry.attempts w max_attempts base_delay max_delay
                       retryable_exceptions func remaining last st)))
      = omap view (trace st) ++ replicate k x /\
      (k <= length remaining)%nat /\
      (remaining <> [] -> (1 <= k)%nat).
Proof.
  induction remaining as [|attempt rest IH]; intros last st.
  - exists 0%nat. simpl.
    destruct last; simpl; rewrite app_nil_r;
      (split; [reflexivity|split; [lia|congruence]]).
  - simpl. unfold try_except. pose proof (func_once st) as Hf.
    destruct (func st) as [[v|e] st1]; simpl in Hf.
    + exists 1%nat. simpl. split; [exact Hf|]. split; [lia|auto].
    + assert (Hone :
        exists k : nat,
          omap view (trace st1) = omap view (trace st) ++ replicate k x /\
          (k <= S (length rest))%nat /\ (1 <= k)%nat).
      { exists 1%nat. simpl. split; [exact Hf|]. lia. }
      destruct (isinstance_any e retryable_exceptions).
      2:{ destruct (isinstance e NonRetryableError); simpl;
            destruct Hone as (k & ? & ? & ?); exists k; auto. }
      destruct (attempt =? max_attempts - 1).
      { simpl. destruct Hone as (k & ? & ? & ?). exists k. auto. }
      destruct (Retry.delay_cap base_delay max_delay attempt)
        as [overflow|cap].
      { simpl. destruct Hone as (k & ? & ? & ?). exists k. auto. }
      unfold bind at 1. rewrite run_random_uniform.
      unfold bind at 1. unfold time_sleep.
      destruct (Py.Qltb _ 0).
      { simpl. rewrite omap_snoc_none by apply view_random.
        destruct Hone as (k & ? & ? & ?). exists k. auto. }
      simpl.
      match goal with
      | |- context [Retry.attempts _ _ _ _ _ _ rest (Some e) ?s] =>
          destruct (IH (Some e) s) as (k & Hk & Hle & _); rewrite Hk
      end.
      rewrite !trace_log, !omap_snoc_none, Hf
        by (apply view_sleep || apply view_random).
      exists (S k). simpl. rewrite <- app_assoc. simpl.
      split; [reflexivity|]. split; [lia|intros _; lia].
Qed.

End Repeats.

(** ** The copy a transfer performs *)

Section CopyPaths.
Variable w : World.

Lemma s3_requests_app (t1 t2 : list event) :
  s3_requests (t1 ++ t2) = s3_requests t1 ++ s3_requests t2.
Proof. apply omap_app. Qed.

Lemma s3_only_requests (R : s3_request -> Prop) (d : list event) :
  Forall (s3_only R) d -> Forall R (s3_requests d).
Proof.
  induction 1 as [|ev d Hev _ IH]; [constructor|].
  unfold s3_requests in *. simpl.
  destruct (s3_request_of ev) as [req|] eqn:Hreq; [|exact IH].
  constructor; [now apply Hev|exact IH].
Qed.

Lemma s3_only_none (R : s3_request -> Prop) (ev : event) :
  s3_request_of ev = None -> s3_only R ev.
Proof. intros He req Hreq. congruence. Qed.

Lemma no_s3_requests (d : list event) :
  Forall (s3_only (fun _ => False)) d -> s3_requests d = [].
Proof.
  intros Hd. apply s3_only_requests in Hd.
  destruct (s3_requests d) as [|req reqs]; [reflexivity|].
  now inversion Hd.
Qed.

Lemma only_cache_get {P : event -> Prop} (role_arn : string) :
  only P (StsClient.cache_get role_arn).
Proof. adds_nothing. Qed.

Lemma only_cache_set {P : event -> Prop} (role_arn : string)
    (entry : cache_entry) :
  only P (StsClient.cache_set role_arn entry).
Proof. adds_nothing. Qed.

(** Acquiring credentials adds only events [P] allows, when [P] allows
    reading the clock, STS calls, draws and sleeps. *)
Lemma only_assume_role__wrapped__ (P : event -> Prop)
    (role_arn session_name external_id : string) (duration_seconds : Z) :
  (forall now, P (EvTime now)) -> (forall req resp, P (EvSts req resp)) ->
  only P (StsClient.assume_role__wrapped__ w role_arn session_name external_id
            duration_seconds).
Proof.
  intros Ht Hsts.
  unfold StsClient.assume_role__wrapped__.
  apply only_bind.
  { unfold StsClient._is_cached_credential_valid.
    apply only_bind; [apply only_cache_get|]. intros [entry|].
    - apply only_bind; [now apply only_time_time|]. intros now.
      apply only_ret.
    - apply only_ret. }
  intros [|].
  - apply only_bind; [apply only_cache_get|].
    intros [entry|]; [apply only_ret|apply only_raise].
  - apply only_try_except.
    + apply only_bind; [apply only_sts_call; intros; apply Hsts|].
      intros raw_creds. apply only_bind; [apply only_cache_set|].
      intros _. apply only_ret.
    + intros e. destruct (isinstance e ClientError); apply only_raise.
Qed.

Lemma only_assume_role (P : event -> Prop)
    (role_arn session_name external_id : string) (duration_seconds : Z) :
  (forall now, P (EvTime now)) -> (forall req resp, P (EvSts req resp)) ->
  (forall u, P (EvRandom u)) -> (forall d, P (EvSleep d)) ->
  only P (StsClient.assume_role w role_arn session_name external_id
            duration_seconds).
Proof.
  intros Ht Hsts Hr Hs. apply only_retry; [exact Hr|exact Hs|].
  now apply only_assume_role__wrapped__.
Qed.

Section OneObject.
Variable s3_client : client.
Variables source_bucket source_key dest_bucket dest_key kms_key_id : string.

Let single :=
  CopyObject (source_bucket, source_key) dest_bucket dest_key
    (S3Client.sse_of kms_key_id).

Lemma run_copy_object__wrapped__ (st : state) :
  S3Client.copy_object__wrapped__ w s3_client source_bucket source_key
    dest_bucket dest_key kms_key_id st
  = (match s3 w (trace st) s3_client single with
     | inl e =>
         Raise (if isinstance e ClientError
                then S3Client._classify_s3_error e "copy_object" else e)
     | inr r => Ok r
     end,
     log (EvS3 s3_client single (s3 w (trace st) s3_client single)) st).
Proof.
  unfold S3Client.copy_object__wrapped__, try_except.
  rewrite run_s3_call. fold single.
  destruct (s3 w (trace st) s3_client single) as [e|r]; [|reflexivity].
  unfold S3Client.classify_client_error.
  now destruct (isinstance e ClientError).
Qed.

(** A single copy makes between one and five S3 requests, each the same
    [CopyObject]; just one when S3 accepts the first. *)
Lemma copy_object_requests (st : state) :
  exists k : nat,
    s3_requests
      (trace (snd (S3Client.copy_object w s3_client source_bucket source_key
                     dest_bucket dest_key kms_key_id st)))
    = s3_requests (trace st) ++ replicate k single /\
    (1 <= k <= 5)%nat.
Proof.
  unfold S3Client.copy_object, S3Client.retried,
    Retry.exponential_backoff_with_jitter, Retry.wrapper.
  destruct (attempts_repeat s3_request_of w 5 1 60 [RetryableError]
              (S3Client.copy_object__wrapped__ w s3_client source_bucket
                 source_key dest_bucket dest_key kms_key_id)
              single (fun _ => eq_refl) (fun _ => eq_refl)) with
    (remaining := Py.range 0 5) (last := @None exn) (st := st)
    as (k & Hk & Hle & Hge).
  { intros s. rewrite run_copy_object__wrapped__. simpl.
    now rewrite omap_app. }
  exists k. split; [exact Hk|]. split; [now apply Hge|exact Hle].
Qed.

Lemma copy_object_accepted (st : state) (r : s3_response) :
  s3 w (trace st) s3_client single = inr r ->
  S3Client.copy_object w s3_client source_bucket source_key dest_bucket
    dest_key kms_key_id st
  = (Ok r, log (EvS3 s3_client single (inr r)) st).
Proof.
  intros Hr. unfold S3Client.copy_object, S3Client.retried,
    Retry.exponential_backoff_with_jitter, Retry.wrapper.
  rewrite range_cons by lia. apply attempts_success.
  now rewrite run_copy_object__wrapped__, Hr.
Qed.

(** A chunked copy makes only requests of the multipart lifecycle. *)
Lemma only_multipart_copy (object_size part_size : Z) :
  only (s3_only (fun req => is_multipart req = true))
    (S3Client.multipart_copy w s3_client source_bucket source_key dest_bucket
       dest_key object_size kms_key_id part_size).
Proof.
  assert (Hcall : forall req,
            is_multipart req = true ->
            only (s3_only (fun req => is_multipart req = true))
              (s3_call w s3_client req)).
  { intros req Hreq. apply only_s3_call. intros resp req' Heq.
    inversion Heq; subst. exact Hreq. }
  apply only_retry; try (intros; now apply s3_only_none).
  unfold S3Client.multipart_copy__wrapped__.
  destruct (object_size >? S3Client.MAX_OBJECT_SIZE); [apply only_raise|].
  apply only_bind.
  { unfold S3Client.create_upload. apply only_bind; [now apply Hcall|].
    intros []; try apply only_raise. apply only_ret. }
  intros upload_id. apply only_try_except.
  - unfold S3Client.copy_and_complete.
    destruct (S3Client.num_parts object_size part_size) as [e|n];
      [apply only_raise|].
    apply only_bind; [|intros parts; now apply Hcall].
    generalize (Py.range 1 (n + 1)).
    generalize (@nil (Z * string)).
    intros parts part_nums. revert parts.
    induction part_nums as [|part_num rest IH]; intros parts; simpl.
    + apply only_ret.
    + apply only_bind; [now apply Hcall|].
      intros []; try apply only_raise. apply IH.
  - intros e. apply only_bind; [|intros _; apply only_raise].
    unfold S3Client.abort_upload. destruct (Py.truthy upload_id).
    + apply only_try_except; [|intros _; apply only_ret].
      apply only_bind; [now apply Hcall|]. intros _. apply only_ret.
    + apply only_ret.
Qed.

End OneObject.
End CopyPaths.

Lemma try_except_reraise {A} (c : M A) (st : state) :
  try_except c raise st = c st.
Proof. unfold try_except, raise. now destruct (c st) as [[a|e] st1]. Qed.

Lemma snd_bind_ret {A B} (c : M A) (b : B) (st : state) :
  snd (bind c (fun _ => ret b) st) = snd (c st).
Proof. unfold bind, ret. now destruct (c st) as [[a|e] st1]. Qed.

(** C7: once the destination credentials are acquired (which makes no
    S3 request), a transfer of an object smaller than the multipart
    threshold is one run of the single copy: the handler makes between
    one and five S3 requests, all of them the same [CopyObject] and none
    of the multipart lifecycle, and exactly one when S3 accepts it, the
    handler then returning the receipt; a transfer of an object at or
    above the threshold is one run of the chunked copy, and every S3
    request the handler makes belongs to the multipart lifecycle. *)
Theorem copy_path_by_size (w : World) (event : TransferObject.event_t)
    (st : state) (creds : credentials) (st1 : state) :
  let config := from_env w in
  let size := TransferObject.ev_Size event in
  let key := TransferObject.ev_Key event in
  let src :=
    default (source_bucket config) (TransferObject.ev_source_bucket event) in
  let dst :=
    default (destination_bucket config)
      (TransferObject.ev_destination_bucket event) in
  let dkey :=
    dest_key
      (default (source_prefix config) (TransferObject.ev_source_prefix event))
      (default (destination_prefix config)
         (TransferObject.ev_destination_prefix event))
      key in
  let kms := destination_kms_key_id config in
  let dest_s3 := StsClient.get_boto3_client "s3" creds "" in
  let single := CopyObject (src, key) dst dkey (S3Client.sse_of kms) in
  let receipt :=
    {| TransferObject.rc_source_key := key;
       TransferObject.rc_dest_key := dkey;
       TransferObject.rc_size := size |} in
  StsClient.assume_role w (destination_role_arn config)
    ("Transfer-"
       +:+ Py.slice_to 8
             (default "unknown" (TransferObject.ev_execution_id event)))
    (external_id config) 3600 st = (Ok creds, st1) ->
  s3_requests (trace st1) = s3_requests (trace st) /\
  (size < multipart_threshold_bytes config ->
   TransferObject.handler w event st
   = (S3Client.copy_object w dest_s3 src key dst dkey kms ;; ret receipt) st1 /\
   (exists k : nat,
      s3_requests (trace (snd (TransferObject.handler w event st)))
      = s3_requests (trace st) ++ replicate k single /\
      (1 <= k <= 5)%nat) /\
   (forall r,
      s3 w (trace st1) dest_s3 single = inr r ->
      TransferObject.handler w event st
      = (Ok receipt, log (EvS3 dest_s3 single (inr r)) st1))) /\
  (multipart_threshold_bytes config <= size ->
   TransferObject.handler w event st
   = (S3Client.multipart_copy w dest_s3 src key dst dkey size kms
        (multipart_chunk_size_bytes config) ;; ret receipt) st1 /\
   exists requests,
     s3_requests (trace (snd (TransferObject.handler w event st)))
     = s3_requests (trace st) ++ requests /\
     Forall (fun req => is_multipart req = true) requests).
Proof.
  intros config size key src dst dkey kms dest_s3 single receipt Hrole.
  assert (Hst1 : s3_requests (trace st1) = s3_requests (trace st)).
  { destruct (only_assume_role w (s3_only (fun _ => False))
                (destination_role_arn config)
                ("Transfer-"
                   +:+ Py.slice_to 8
                         (default "unknown"
                            (TransferObject.ev_execution_id event)))
                (external_id config) 3600) with (st := st)
      as (d & Hd & Hno); try (intros; now apply s3_only_none).
    rewrite Hrole in Hd. simpl in Hd.
    rewrite Hd, s3_requests_app, (no_s3_requests d Hno). apply app_nil_r. }
  assert (Hhandler :
    TransferObject.handler w event st
    = (TransferObject.copy_by_size w config dest_s3 src key dst dkey size ;;
       ret receipt) st1).
  { unfold TransferObject.handler. unfold bind at 1.
    fold config. rewrite Hrole. unfold bind.
    now rewrite try_except_reraise. }
  split; [exact Hst1|]. split.
  - intros Hsmall.
    assert (Hcopy :
      TransferObject.handler w event st
      = (S3Client.copy_object w dest_s3 src key dst dkey kms ;; ret receipt)
          st1).
    { rewrite Hhandler. unfold TransferObject.copy_by_size.
      apply Z.ltb_lt in Hsmall. rewrite Hsmall. unfold bind.
      now destruct (S3Client.copy_object _ _ _ _ _ _ _ st1) as [[r|e] st2]. }
    split; [exact Hcopy|]. split.
    + rewrite Hcopy, snd_bind_ret.
      destruct (copy_object_requests w dest_s3 src key dst dkey kms st1)
        as (k & Hk & Hbounds).
      exists k. now rewrite Hk, Hst1.
    + intros r Hr. rewrite Hcopy. unfold bind.
      now rewrite (copy_object_accepted w dest_s3 src key dst dkey kms st1 r Hr).
  - intros Hlarge.
    assert (Hcopy :
      TransferObject.handler w event st
      = (S3Client.multipart_copy w dest_s3 src key dst dkey size kms
           (multipart_chunk_size_bytes config) ;; ret receipt) st1).
    { rewrite Hhandler. unfold TransferObject.copy_by_size.
      apply Z.ltb_ge in Hlarge. rewrite Hlarge. unfold bind.
      now destruct (S3Client.multipart_copy _ _ _ _ _ _ _ _ _ st1)
        as [[r|e] st2]. }
    split; [exact Hcopy|].
    rewrite Hcopy, snd_bind_ret.
    destruct (only_multipart_copy w dest_s3 src key dst dkey kms size
                (multipart_chunk_size_bytes config) st1) as (d & Hd & Hall).
    exists (s3_requests d). rewrite Hd, s3_requests_app, Hst1.
    split; [reflexivity|]. now apply s3_only_requests.
Qed.
(** The threshold defaults to 5 GiB; with it, a 10 MiB object takes the
    single copy and a 6 GiB object the chunked copy, in parts of
    100 MiB. *)
Example default_threshold :
  multipart_threshold_bytes default_config
  = S3Client.DEFAULT_MULTIPART_THRESHOLD /\
  S3Client.DEFAULT_MULTIPART_THRESHOLD = 5 * 2 ^ 30.
Proof. split; reflexivity. Qed.

Example ten_mib_single_copy (w : World) (dest_s3 : client)
    (src key dst dkey : string) :
  TransferObject.copy_by_size w default_config dest_s3 src key dst dkey
    (10 * 2 ^ 20)
  = (S3Client.copy_object w dest_s3 src key dst dkey "" ;; ret tt).
Proof. reflexivity. Qed.

Example six_gib_chunked_copy (w : World) (dest_s3 : client)
    (src key dst dkey : string) :
  TransferObject.copy_by_size w default_config dest_s3 src key dst dkey
    (6 * 2 ^ 30)
  = (S3Client.multipart_copy w dest_s3 src key dst dkey (6 * 2 ^ 30) ""
       (100 * 2 ^ 20) ;; ret tt).
Proof. reflexivity. Qed.

(** ** Credentials *)

Lemma Qltb_lt (a b : Q) : Py.Qltb a b = true <-> (a < b)%Q.
Proof.
  unfold Py.Qltb. rewrite negb_true_iff, <- not_true_iff_false, Qle_bool_iff.
  split; [apply Qnot_le_lt|apply Qlt_not_le].
Qed.

Lemma Qltb_ge (a b : Q) : Py.Qltb a b = false <-> (b <= a)%Q.
Proof. unfold Py.Qltb. now rewrite negb_false_iff, Qle_bool_iff. Qed.

Lemma sts_requests_app (t1 t2 : list event) :
  sts_requests (t1 ++ t2) = sts_requests t1 ++ sts_requests t2.
Proof. apply omap_app. Qed.

Section Credentials.
Variable w : World.
Variables role_arn session_name external_id : string.
Variable duration_seconds : Z.

Let acquire :=
  StsClient.assume_role w role_arn session_name external_id duration_seconds.
Let acquire_once :=
  StsClient.assume_role__wrapped__ w role_arn session_name external_id
    duration_seconds.
Let request :=
  {| RoleArn := role_arn;
     RoleSessionName := session_name;
     DurationSeconds := duration_seconds;
     ExternalId := if Py.truthy external_id then Some external_id else None |}.
Let credentials_of (raw : sts_response) : credentials :=
  {| aws_access_key_id := AccessKeyId raw;
     aws_secret_access_key := SecretAccessKey raw;
     aws_session_token := SessionToken raw |}.
Let limit (entry : cache_entry) : Q :=
  (expiry entry - StsClient._CREDENTIAL_BUFFER_SECONDS)%Q.

Lemma run_is_valid (st : state) :
  StsClient._is_cached_credential_valid w role_arn st
  = match _credential_cache st !! role_arn with
    | None => (Ok false, st)
    | Some entry =>
        (Ok (Py.Qltb (clock w (trace st)) (limit entry)),
         log (EvTime (clock w (trace st))) st)
    end.
Proof.
  unfold StsClient._is_cached_credential_valid, bind, StsClient.cache_get.
  now destruct (_credential_cache st !! role_arn).
Qed.

Lemma run_acquire_once_hit (st : state) (entry : cache_entry) :
  _credential_cache st !! role_arn = Some entry ->
  (clock w (trace st) < limit entry)%Q ->
  acquire_once st
  = (Ok (cached_credentials entry), log (EvTime (clock w (trace st))) st).
Proof.
  intros Hslot Hnow. apply Qltb_lt in Hnow.
  unfold acquire_once, StsClient.assume_role__wrapped__.
  unfold bind at 1. rewrite run_is_valid, Hslot, Hnow.
  unfold bind, StsClient.cache_get. simpl. now rewrite Hslot.
Qed.

Lemma run_acquire_once_miss (st : state) :
  stale w role_arn st ->
  acquire_once st
  = match sts w (trace (checked w role_arn st)) request with
    | inr raw =>
        (Ok (credentials_of raw),
         {| trace := trace (checked w role_arn st) ++ [EvSts request (inr raw)];
            _credential_cache :=
              <[role_arn := {| cached_credentials := credentials_of raw;
                               expiry := Expiration raw |}]>
                (_credential_cache st) |})
    | inl e =>
        (Raise (if isinstance e ClientError
                then StsClient.classify_sts_error role_arn e else e),
         log (EvSts request (inl e)) (checked w role_arn st))
    end.
Proof.
  unfold stale, checked. intros Hstale.
  unfold acquire_once, StsClient.assume_role__wrapped__.
  unfold bind at 1. rewrite run_is_valid.
  destruct (_credential_cache st !! role_arn) as [entry|] eqn:Hslot.
  - apply Qltb_ge in Hstale. unfold limit. rewrite Hstale.
    unfold try_except, bind. rewrite run_sts_call. fold request.
    destruct (sts w _ request) as [e|raw]; simpl.
    + now destruct (isinstance e ClientError).
    + reflexivity.
  - unfold try_except, bind. rewrite run_sts_call. fold request.
    destruct (sts w (trace st) request) as [e|raw]; simpl.
    + now destruct (isinstance e ClientError).
    + reflexivity.
Qed.

Lemma run_acquire_hit (st : state) (entry : cache_entry) :
  _credential_cache st !! role_arn = Some entry ->
  (clock w (trace st) < limit entry)%Q ->
  acquire st
  = (Ok (cached_credentials entry), log (EvTime (clock w (trace st))) st).
Proof.
  intros Hslot Hnow. unfold acquire, StsClient.assume_role,
    Retry.exponential_backoff_with_jitter, Retry.wrapper.
  rewrite range_cons by lia. apply attempts_success.
  now apply run_acquire_once_hit.
Qed.

Lemma run_acquire_miss (st : state) (raw : sts_response) :
  stale w role_arn st ->
  sts w (trace (checked w role_arn st)) request = inr raw ->
  acquire st
  = (Ok (credentials_of raw),
     {| trace := trace (checked w role_arn st) ++ [EvSts request (inr raw)];
        _credential_cache :=
          <[role_arn := {| cached_credentials := credentials_of raw;
                           expiry := Expiration raw |}]>
            (_credential_cache st) |}).
Proof.
  intros Hstale Hraw. unfold acquire, StsClient.assume_role,
    Retry.exponential_backoff_with_jitter, Retry.wrapper.
  rewrite range_cons by lia. apply attempts_success.
  fold acquire_once. now rewrite run_acquire_once_miss, Hraw.
Qed.

(** Whatever STS answers, an acquisition on a stale cache starts with a
    remote call. *)
Lemma acquire_miss_calls (st : state) :
  stale w role_arn st ->
  exists more,
    sts_requests (trace (snd (acquire st)))
    = sts_requests (trace st) ++ request :: more.
Proof.
  intros Hstale.
  assert (Hfirst :
    sts_requests (trace (snd (acquire_once st)))
    = sts_requests (trace st) ++ [request]).
  { rewrite run_acquire_once_miss by exact Hstale.
    assert (Hc : sts_requests (trace (checked w role_arn st)) = sts_requests (trace st)).
    { unfold checked. destruct (_credential_cache st !! role_arn);
        [|reflexivity].
      rewrite trace_log, sts_requests_app. apply app_nil_r. }
    destruct (sts w (trace (checked w role_arn st)) request) as [e|raw]; simpl;
      now rewrite sts_requests_app, Hc. }
  unfold acquire, StsClient.assume_role,
    Retry.exponential_backoff_with_jitter, Retry.wrapper.
  rewrite range_cons by lia. fold acquire_once.
  destruct (attempts_after_first (fun _ => True) w 3 1 10 [RetryableError]
              acquire_once) with
    (attempt := 0) (rest := Py.range (0 + 1) 3) (last := @None exn) (st := st)
    as (d & Hd & _); try easy.
  { now apply only_assume_role__wrapped__. }
  exists (sts_requests d).
  now rewrite Hd, sts_requests_app, Hfirst, <- app_assoc.
Qed.

End Credentials.

(** C8: an acquisition for a role whose cached credential is still
    more than the 300-second buffer away from its expiry returns that
    credential and makes no remote call (it only reads the clock); any
    other acquisition starts with a role-assumption call, and when the
    call succeeds its result is stored in the cache under the role,
    with its expiry, and returned.  Hence two acquisitions in a row for
    a role with no slot, the first one granted: when the second falls
    before the expiry less the buffer it returns the same credential
    and the two made exactly one remote call; otherwise the second makes
    a remote call of its own. *)
Theorem credential_acquisition (w : World)
    (role_arn session_name external_id : string) (duration_seconds : Z)
    (st : state) :
  let acquire :=
    StsClient.assume_role w role_arn session_name external_id
      duration_seconds in
  let request :=
    {| RoleArn := role_arn;
       RoleSessionName := session_name;
       DurationSeconds := duration_seconds;
       ExternalId :=
         if Py.truthy external_id then Some external_id else None |} in
  let granted (raw : sts_response) :=
    {| aws_access_key_id := AccessKeyId raw;
       aws_secret_access_key := SecretAccessKey raw;
       aws_session_token := SessionToken raw |} in
  let buffer := StsClient._CREDENTIAL_BUFFER_SECONDS in
  (forall entry,
     _credential_cache st !! role_arn = Some entry ->
     (clock w (trace st) < expiry entry - buffer)%Q ->
     acquire st
     = (Ok (cached_credentials entry), log (EvTime (clock w (trace st))) st)) /\
  ((exists entry,
      _credential_cache st !! role_arn = Some entry /\
      (clock w (trace st) < expiry entry - buffer)%Q) \/
   stale w role_arn st) /\
  (stale w role_arn st ->
   (exists more,
      sts_requests (trace (snd (acquire st)))
      = sts_requests (trace st) ++ request :: more) /\
   (forall raw,
      sts w (trace (checked w role_arn st)) request = inr raw ->
      acquire st
      = (Ok (granted raw),
         {| trace := trace (checked w role_arn st) ++ [EvSts request (inr raw)];
            _credential_cache :=
              <[role_arn := {| cached_credentials := granted raw;
                               expiry := Expiration raw |}]>
                (_credential_cache st) |}))) /\
  (forall raw,
     _credential_cache st !! role_arn = None ->
     sts w (trace st) request = inr raw ->
     let st1 := snd (acquire st) in
     ((clock w (trace st1) < Expiration raw - buffer)%Q ->
      fst ((acquire ;; acquire) st) = Ok (granted raw) /\
      sts_requests (trace (snd ((acquire ;; acquire) st)))
      = sts_requests (trace st) ++ [request]) /\
     ((Expiration raw - buffer <= clock w (trace st1))%Q ->
      exists more,
        sts_requests (trace (snd ((acquire ;; acquire) st)))
        = sts_requests (trace st) ++ request :: request :: more)).
Proof.
  intros acquire request granted buffer. repeat apply conj.
  - intros entry Hslot Hnow. now apply run_acquire_hit.
  - unfold stale.
    destruct (_credential_cache st !! role_arn) as [entry|]; [|now right].
    destruct (Qlt_le_dec (clock w (trace st)) (expiry entry - buffer))
      as [Hlt|Hle]; [left; now exists entry|now right].
  - intros Hstale. split.
    + now apply acquire_miss_calls.
    + intros raw Hraw. now apply run_acquire_miss.
  - intros raw Hnone Hraw st1.
    assert (Hstale : stale w role_arn st) by (unfold stale; now rewrite Hnone).
    assert (Hchecked : checked w role_arn st = st)
      by (unfold checked; now rewrite Hnone).
    pose proof (run_acquire_miss w role_arn session_name external_id
                  duration_seconds st raw Hstale) as Hfirst.
    rewrite Hchecked in Hfirst. specialize (Hfirst Hraw).
    fold acquire request in Hfirst. fold (granted raw) in Hfirst.
    assert (Hslot1 :
      _credential_cache st1 !! role_arn
      = Some {| cached_credentials := granted raw;
                expiry := Expiration raw |}).
    { subst st1. rewrite Hfirst. simpl. apply lookup_insert_eq. }
    assert (Htrace1 :
      sts_requests (trace st1) = sts_requests (trace st) ++ [request]).
    { subst st1. rewrite Hfirst. simpl. now rewrite sts_requests_app. }
    assert (Htwice : (acquire ;; acquire) st = acquire st1).
    { unfold bind. subst st1. now rewrite Hfirst. }
    split.
    + intros Hnow. rewrite Htwice.
      pose proof (run_acquire_hit w role_arn session_name external_id
                    duration_seconds st1 _ Hslot1 Hnow) as Hsecond.
      fold acquire in Hsecond. rewrite Hsecond. simpl.
      split; [reflexivity|].
      rewrite sts_requests_app, Htrace1. apply app_nil_r.
    + intros Hlate. rewrite Htwice.
      assert (Hstale1 : stale w role_arn st1)
        by (unfold stale; now rewrite Hslot1).
      destruct (acquire_miss_calls w role_arn session_name external_id
                  duration_seconds st1 Hstale1) as (more & Hmore).
      fold acquire request in Hmore.
      exists more. now rewrite Hmore, Htrace1, <- app_assoc.
Qed.

(** ** Validation *)

Lemma sampled_app (t1 t2 : list event) :
  sampled (t1 ++ t2) = sampled t1 ++ sampled t2.
Proof. unfold sampled. now rewrite omap_app, concat_app. Qed.

Lemma no_sample_sampled (d : list event) :
  Forall no_sample d -> sampled d = [].
Proof.
  induction 1 as [|ev d Hev _ IH]; [reflexivity|].
  unfold sampled in *. simpl. now rewrite Hev.
Qed.

Section Sampling.
Variable w : World.
Variable dest_s3 : client.
Variables dest_bucket source_prefix dest_prefix : string.

Let check_sample :=
  ValidateTransfer.check_sample w dest_s3 dest_bucket source_prefix dest_prefix.
Let check_samples :=
  ValidateTransfer.check_samples w dest_s3 dest_bucket source_prefix
    dest_prefix.

(** One sampled entry never raises and is counted exactly once: as a
    pass, or as one more failure record. *)
Lemma check_sample_counts (obj : inventory_entry) (acc : list failure * Z)
    (st : state) :
  exists acc' st',
    check_sample obj acc st = (Ok acc', st') /\
    ((fst acc' = fst acc /\ snd acc' = snd acc + 1) \/
     (exists record, fst acc' = fst acc ++ [record] /\ snd acc' = snd acc)).
Proof.
  unfold check_sample, ValidateTransfer.check_sample, try_except, bind.
  destruct (S3Client.head_object w dest_s3 dest_bucket _ st)
    as [[dest_meta|e] st1].
  - destruct (S3Client.ContentLength dest_meta =? Size obj);
      eexists _, _; (split; [reflexivity|]); simpl; eauto.
  - eexists _, _. split; [reflexivity|]. simpl. eauto.
Qed.

Lemma check_sample_accounted (obj : inventory_entry) (acc : list failure * Z)
    (st : state) :
  exists acc' st',
    check_sample obj acc st = (Ok acc', st') /\
    accounted acc' = accounted acc + 1 /\
    snd acc <= snd acc'.
Proof.
  destruct (check_sample_counts obj acc st)
    as (acc' & st' & Hrun & [[Hf Hp]|(record & Hf & Hp)]);
    exists acc', st'; (split; [exact Hrun|]); unfold accounted;
    rewrite Hf, Hp, ?length_app; simpl; lia.
Qed.

(** The sampling loop never raises, whatever the probes do, and accounts
    for every sampled entry exactly once. *)
Lemma check_samples_accounted (samples : list inventory_entry) :
  forall (acc : list failure * Z) (st : state),
    exists acc' st',
      check_samples samples acc st = (Ok acc', st') /\
      accounted acc' = accounted acc + Z.of_nat (length samples) /\
      snd acc <= snd acc'.
Proof.
  induction samples as [|obj rest IH]; intros acc st.
  - exists acc, st. simpl. split; [reflexivity|]. lia.
  - destruct (check_sample_accounted obj acc st)
      as (acc1 & st1 & Hrun1 & Hacc1 & Hle1).
    destruct (IH acc1 st1) as (acc' & st' & Hrun & Hacc & Hle).
    exists acc', st'. split.
    + unfold check_samples in *. simpl. unfold bind.
      fold check_sample. now rewrite Hrun1.
    + rewrite Hacc, Hacc1. simpl length. lia.
Qed.

Lemma only_head_object (P : event -> Prop) (bucket key : string) :
  (forall c req resp, P (EvS3 c req resp)) ->
  (forall u, P (EvRandom u)) -> (forall d, P (EvSleep d)) ->
  only P (S3Client.head_object w dest_s3 bucket key).
Proof.
  intros Hs3 Hr Hs. apply only_retry; [exact Hr|exact Hs|].
  unfold S3Client.head_object__wrapped__. apply only_try_except.
  - apply only_bind; [apply only_s3_call; intros; apply Hs3|].
    intros []; try apply only_raise. apply only_ret.
  - intros e. unfold S3Client.classify_client_error.
    destruct (isinstance e ClientError); apply only_raise.
Qed.

Lemma only_check_samples (P : event -> Prop) (samples : list inventory_entry) :
  (forall c req resp, P (EvS3 c req resp)) ->
  (forall u, P (EvRandom u)) -> (forall d, P (EvSleep d)) ->
  forall acc, only P (check_samples samples acc).
Proof.
  intros Hs3 Hr Hs.
  induction samples as [|obj rest IH]; intros acc; simpl.
  - apply only_ret.
  - apply only_bind; [|intros acc'; apply IH].
    unfold ValidateTransfer.check_sample. apply only_try_except.
    + apply only_bind; [now apply only_head_object|].
      intros dest_meta. destruct (_ =? _); apply only_ret.
    + intros e. apply only_ret.
Qed.

End Sampling.

Section ValidationRun.
Variable w : World.
Variable request : ValidateTransfer.event_t.

Let config := from_env w.
Let execution_id := default "unknown" (ValidateTransfer.ev_execution_id request).
Let manifest_bucket := ValidateTransfer.ev_manifest_bucket request.
Let manifest_key := ValidateTransfer.ev_manifest_key request.
Let hub_s3 :=
  {| service_name := "s3"; client_credentials := None; region_name := None |}.
Let dest_prefix :=
  default (destination_prefix config)
    (ValidateTransfer.ev_destination_prefix request).
Let dest_bucket :=
  default (destination_bucket config)
    (ValidateTransfer.ev_destination_bucket request).

Lemma only_read_manifest (P : event -> Prop) :
  (forall c req resp, P (EvS3 c req resp)) ->
  only P (ValidateTransfer.read_manifest w hub_s3 manifest_bucket manifest_key).
Proof.
  intros Hs3. unfold ValidateTransfer.read_manifest. apply only_try_except.
  - apply only_bind; [apply only_s3_call; intros; apply Hs3|].
    intros []; try apply only_raise.
    destruct (json_loads w Body); [apply only_raise|apply only_ret].
  - intros e. apply only_raise.
Qed.

Lemma only_count_destination (P : event -> Prop) (dest_s3 : client) :
  (forall c req resp, P (EvS3 c req resp)) ->
  only P (ValidateTransfer.count_destination w dest_s3 dest_bucket dest_prefix).
Proof.
  intros Hs3. unfold ValidateTransfer.count_destination.
  apply only_try_except.
  - apply only_bind; [apply only_s3_call; intros; apply Hs3|].
    intros []; try apply only_raise.
    destruct failure_; [apply only_raise|apply only_ret].
  - intros e. apply only_raise.
Qed.

Variable st : state.
Variable manifest : manifest_t.
Variable st1 : state.
Variable creds : credentials.
Variable st2 : state.
Variable dest_count : Z.
Variable st3 : state.

Let dest_s3 := StsClient.get_boto3_client "s3" creds "".
Let source_prefix :=
  default (source_prefix config) (manifest_source_prefix manifest).
Let total := Z.of_nat (length (objects manifest)).
Let sample_size := Z.min (validation_sample_size config) total.

Hypothesis manifest_read :
  ValidateTransfer.read_manifest w hub_s3 manifest_bucket manifest_key st
  = (Ok manifest, st1).
Hypothesis role_assumed :
  StsClient.assume_role w (destination_role_arn config)
    ("Validate-" +:+ Py.slice_to 8 execution_id) (external_id config) 3600 st1
  = (Ok creds, st2).
Hypothesis destination_counted :
  ValidateTransfer.count_destination w dest_s3 dest_bucket dest_prefix st2
  = (Ok dest_count, st3).
Hypothesis sample_size_nonneg : 0 <= validation_sample_size config.
Hypothesis sampler_length :
  forall t population k,
    (k <= length population)%nat -> length (sampler w t population k) = k.

Let result_of (checked : list failure * Z) : validation_result :=
  {| status := ValidateTransfer.status_of dest_count total (fst checked);
     total_expected := total;
     total_found := dest_count;
     samples_checked := sample_size;
     samples_passed := snd checked;
     failures := fst checked;
     r_execution_id := execution_id;
     r_manifest_bucket := manifest_bucket;
     r_manifest_key := manifest_key;
     r_destination_bucket := dest_bucket |}.

Lemma sampled_before_draw : sampled (trace st3) = sampled (trace st).
Proof.
  destruct (only_read_manifest no_sample) with (st := st) as (d1 & Hd1 & Hn1);
    [easy|].
  destruct (only_assume_role w no_sample (destination_role_arn config)
              ("Validate-" +:+ Py.slice_to 8 execution_id)
              (external_id config) 3600) with (st := st1)
    as (d2 & Hd2 & Hn2); try easy.
  destruct (only_count_destination no_sample dest_s3) with (st := st2)
    as (d3 & Hd3 & Hn3); [easy|].
  rewrite manifest_read in Hd1. rewrite role_assumed in Hd2.
  rewrite destination_counted in Hd3. simpl in Hd1, Hd2, Hd3.
  rewrite Hd3, Hd2, Hd1, !sampled_app.
  rewrite (no_sample_sampled d1), (no_sample_sampled d2),
    (no_sample_sampled d3) by assumption.
  now rewrite !app_nil_r.
Qed.

(** The draw: [random.sample(objects, sample_size) if objects else []]. *)
Lemma run_draw :
  exists samples st4,
    match objects manifest with
    | [] => ret []
    | _ :: _ => random_sample w (objects manifest) sample_size
    end st3 = (Ok samples, st4) /\
    Z.of_nat (length samples) = sample_size /\
    sampled (trace st4) = sampled (trace st3) ++ samples /\
    (objects manifest = [] -> samples = []).
Proof.
  subst sample_size total.
  destruct (objects manifest) as [|obj rest] eqn:Hobjects.
  - exists [], st3. simpl. rewrite app_nil_r.
    repeat split; lia.
  - unfold random_sample.
    set (population := obj :: rest).
    set (k := Z.min (validation_sample_size config)
                (Z.of_nat (length population))).
    assert (Hk : (k <? 0) || (Z.of_nat (length population) <? k) = false).
    { apply orb_false_iff. split; [apply Z.ltb_ge|apply Z.ltb_ge]; lia. }
    rewrite Hk.
    eexists _, _. split; [reflexivity|]. simpl.
    rewrite sampler_length by lia.
    split; [lia|]. split; [|discriminate].
    rewrite sampled_app. unfold sampled at 2. simpl. now rewrite app_nil_r.
Qed.

(** The whole run, once the manifest, the credentials and the count
    are in. *)
Lemma validation_run :
  exists samples st4 checked st5,
    Z.of_nat (length samples) = sample_size /\
    (objects manifest = [] -> samples = []) /\
    sampled (trace st5) = sampled (trace st) ++ samples /\
    ValidateTransfer.check_samples w dest_s3 dest_bucket source_prefix
      dest_prefix samples ([], 0) st4 = (Ok checked, st5) /\
    ValidateTransfer.handler w request st
    = (match status (result_of checked) with
       | PASSED => Ok (result_of checked)
       | FAILED =>
           Raise (mk_exn ValidationError
                    ("Transfer validation failed: expected "
                       +:+ pretty total +:+ ", found " +:+ pretty dest_count
                       +:+ ", " +:+ pretty (length (fst checked))
                       +:+ " sample failures")
                    (ResultDetails (result_of checked)))
       end, st5).
Proof.
  destruct run_draw as (samples & st4 & Hdraw & Hlen & Hsampled & Hempty).
  destruct (check_samples_accounted w dest_s3 dest_bucket source_prefix
              dest_prefix samples ([], 0) st4)
    as (checked & st5 & Hcheck & _).
  exists samples, st4, checked, st5.
  split; [exact Hlen|]. split; [exact Hempty|]. split; [|split].
  - destruct (only_check_samples w dest_s3 dest_bucket source_prefix
                dest_prefix no_sample samples) with (acc := (@nil failure, 0))
                                                      (st := st4)
      as (d & Hd & Hn); try easy.
    rewrite Hcheck in Hd. simpl in Hd.
    rewrite Hd, sampled_app, (no_sample_sampled d Hn), app_nil_r, Hsampled.
    now rewrite sampled_before_draw.
  - exact Hcheck.
  - unfold ValidateTransfer.handler.
    unfold bind at 1. fold config manifest_bucket manifest_key hub_s3.
    rewrite manifest_read.
    unfold bind at 1. fold execution_id. rewrite role_assumed.
    unfold bind at 1. fold dest_s3 dest_bucket dest_prefix.
    rewrite destination_counted.
    unfold bind at 1. fold total sample_size. rewrite Hdraw.
    unfold bind at 1. fold source_prefix. rewrite Hcheck.
    fold (result_of checked).
    change (ValidateTransfer.status_of dest_count total checked.1)
      with (status (result_of checked)).
    now destruct (status (result_of checked)).
Qed.

End ValidationRun.

Lemma status_of_passed (dest_count total : Z) (failures : list failure) :
  ValidateTransfer.status_of dest_count total failures = PASSED <->
  dest_count >= total /\ failures = [].
Proof.
  unfold ValidateTransfer.status_of.
  destruct (dest_count >=? total) eqn:Hge; simpl.
  - apply Z.geb_le in Hge. case_bool_decide; split; try easy; intros; split; (lia || easy).
  - rewrite Z.geb_leb in Hge. apply Z.leb_gt in Hge.
    split; [discriminate|]. intros [Hc _]. lia.
Qed.

(** C6, as the spec states it for every validation run, fails: with a
    configured sample size of [-1] and an empty inventory the handler
    returns a PASSED result; it sampled no entry, where
    [min(validation_sample_size, |inventory|)] is [-1], and that [-1] is
    what [samples_checked] reports. *)
Lemma negative_sample_size_samples_nothing :
  fst (ValidateTransfer.handler negative_sample_world demo_validation initial)
  = Ok {| status := PASSED;
          total_expected := 0;
          total_found := 3;
          samples_checked := -1;
          samples_passed := 0;
          failures := [];
          r_execution_id := "unknown";
          r_manifest_bucket := "manifests";
          r_manifest_key := "run/manifest.json";
          r_destination_bucket := "dst" |} /\
  sampled
    (trace (snd (ValidateTransfer.handler negative_sample_world
                   demo_validation initial))) = [] /\
  Z.min (validation_sample_size (from_env negative_sample_world))
    (Z.of_nat (length (objects empty_manifest))) = -1.
Proof. vm_compute. repeat split. Qed.

(** C6: in a validation run whose manifest read, credential acquisition
    and destination listing succeed, with a non-negative configured
    sample size and a [random.sample] that returns as many entries as it
    is asked for, the handler produces a result, returned when its status
    is PASSED and attached to the raised [ValidationError] when it is
    FAILED; the status is PASSED exactly when the destination count is at
    least the expected count (the size of the inventory) and the failures
    list is empty, and FAILED otherwise; the entries sampled are exactly
    [min(validation_sample_size, |inventory|)] many, which is what
    [samples_checked] reports; and an empty inventory gives an empty
    sample and still a result. *)
Theorem validation_status_and_sample (w : World)
    (request : ValidateTransfer.event_t) (st : state) (manifest : manifest_t)
    (st1 : state) (creds : credentials) (st2 : state) (dest_count : Z)
    (st3 : state) :
  let config := from_env w in
  let dest_prefix :=
    default (destination_prefix config)
      (ValidateTransfer.ev_destination_prefix request) in
  let dest_bucket :=
    default (destination_bucket config)
      (ValidateTransfer.ev_destination_bucket request) in
  let inventory := objects manifest in
  let run := ValidateTransfer.handler w request st in
  ValidateTransfer.read_manifest w
    {| service_name := "s3"; client_credentials := None; region_name := None |}
    (ValidateTransfer.ev_manifest_bucket request)
    (ValidateTransfer.ev_manifest_key request) st = (Ok manifest, st1) ->
  StsClient.assume_role w (destination_role_arn config)
    ("Validate-"
       +:+ Py.slice_to 8
             (default "unknown" (ValidateTransfer.ev_execution_id request)))
    (external_id config) 3600 st1 = (Ok creds, st2) ->
  ValidateTransfer.count_destination w
    (StsClient.get_boto3_client "s3" creds "") dest_bucket dest_prefix st2
  = (Ok dest_count, st3) ->
  0 <= validation_sample_size config ->
  (forall t population k,
     (k <= length population)%nat -> length (sampler w t population k) = k) ->
  exists r samples,
    produced (fst run) = Some r /\
    (fst run = Ok r <-> status r = PASSED) /\
    (status r = PASSED <->
     total_found r >= total_expected r /\ failures r = []) /\
    (status r = FAILED <->
     ~ (total_found r >= total_expected r /\ failures r = [])) /\
    total_expected r = Z.of_nat (length inventory) /\
    total_found r = dest_count /\
    sampled (trace (snd run)) = sampled (trace st) ++ samples /\
    Z.of_nat (length samples)
    = Z.min (validation_sample_size config) (Z.of_nat (length inventory)) /\
    samples_checked r = Z.of_nat (length samples) /\
    (inventory = [] -> samples = [] /\ samples_checked r = 0).
Proof.
  intros config dest_prefix dest_bucket inventory run Hm Hr Hc Hn Hs.
  destruct (validation_run w request st manifest st1 creds st2 dest_count st3
              Hm Hr Hc Hn Hs)
    as (samples & st4 & checked & st5 & Hlen & Hempty & Hsampled & _ & Hrun).
  fold run in Hrun.
  match type of Hrun with
  | context [Ok ?res] => set (r := res) in *
  end.
  exists r, samples.
  assert (Hstatus :
    status r = PASSED <-> total_found r >= total_expected r /\ failures r = [])
    by apply status_of_passed.
  assert (Hout : fst run = Ok r <-> status r = PASSED).
  { rewrite Hrun. destruct (status r); simpl; split; easy. }
  split; [rewrite Hrun; now destruct (status r)|].
  split; [exact Hout|]. split; [exact Hstatus|].
  split.
  { rewrite <- Hstatus. destruct (status r); split; try easy;
      intros H; now elim H. }
  split; [reflexivity|]. split; [reflexivity|].
  split; [rewrite Hrun; exact Hsampled|].
  split; [exact Hlen|].
  split; [simpl; now rewrite Hlen|].
  intros Hinv. split; [now apply Hempty|].
  simpl. fold inventory. rewrite Hinv. simpl. lia.
Qed.

(** C10, as stated for every result the handler produces, fails: with
    a configured sample size of [-1] and an empty inventory the result
    the handler returns has no pass and no failure record, and
    [samples_checked = -1]. *)
Lemma negative_sample_size_breaks_accounting :
  exists r,
    produced
      (fst (ValidateTransfer.handler negative_sample_world demo_validation
              initial)) = Some r /\
    status r = PASSED /\
    samples_passed r + Z.of_nat (length (failures r)) = 0 /\
    samples_checked r = -1 /\
    samples_passed r + Z.of_nat (length (failures r)) <> samples_checked r.
Proof. eexists. vm_compute. repeat split. discriminate. Qed.

(** C10: in a validation run whose manifest read, credential acquisition
    and destination listing succeed, with a non-negative configured
    sample size and a [random.sample] that returns as many entries as it
    is asked for, the result the handler produces, returned or attached
    to the [ValidationError], has [samples_passed] plus the number of
    failure records equal to [samples_checked]; and the sampling loop
    never raises, whatever the probes do: each sampled entry adds one to
    the passes, or one record to the failures. *)
Theorem sample_accounting (w : World) (request : ValidateTransfer.event_t)
    (st : state) (manifest : manifest_t) (st1 : state) (creds : credentials)
    (st2 : state) (dest_count : Z) (st3 : state) :
  let config := from_env w in
  let dest_prefix :=
    default (destination_prefix config)
      (ValidateTransfer.ev_destination_prefix request) in
  let dest_bucket :=
    default (destination_bucket config)
      (ValidateTransfer.ev_destination_bucket request) in
  let run := ValidateTransfer.handler w request st in
  ValidateTransfer.read_manifest w
    {| service_name := "s3"; client_credentials := None; region_name := None |}
    (ValidateTransfer.ev_manifest_bucket request)
    (ValidateTransfer.ev_manifest_key request) st = (Ok manifest, st1) ->
  StsClient.assume_role w (destination_role_arn config)
    ("Validate-"
       +:+ Py.slice_to 8
             (default "unknown" (ValidateTransfer.ev_execution_id request)))
    (external_id config) 3600 st1 = (Ok creds, st2) ->
  ValidateTransfer.count_destination w
    (StsClient.get_boto3_client "s3" creds "") dest_bucket dest_prefix st2
  = (Ok dest_count, st3) ->
  0 <= validation_sample_size config ->
  (forall t population k,
     (k <= length population)%nat -> length (sampler w t population k) = k) ->
  (exists r,
     produced (fst run) = Some r /\
     samples_passed r + Z.of_nat (length (failures r)) = samples_checked r /\
     0 <= samples_passed r) /\
  (forall dest_s3 bucket source_prefix prefix obj acc s,
     exists acc' s',
       ValidateTransfer.check_sample w dest_s3 bucket source_prefix prefix
         obj acc s = (Ok acc', s') /\
       ((fst acc' = fst acc /\ snd acc' = snd acc + 1) \/
        (exists record, fst acc' = fst acc ++ [record] /\ snd acc' = snd acc))) /\
  (forall dest_s3 bucket source_prefix prefix samples acc s,
     exists acc' s',
       ValidateTransfer.check_samples w dest_s3 bucket source_prefix prefix
         samples acc s = (Ok acc', s') /\
       accounted acc' = accounted acc + Z.of_nat (length samples)).
Proof.
  intros config dest_prefix dest_bucket run Hm Hr Hc Hn Hs.
  repeat apply conj.
  - destruct (validation_run w request st manifest st1 creds st2 dest_count
                st3 Hm Hr Hc Hn Hs)
      as (samples & st4 & checked & st5 & Hlen & _ & _ & Hcheck & Hrun).
    fold run in Hrun.
    match type of Hrun with
    | context [Ok ?res] => set (r := res) in *
    end.
    exists r. split; [rewrite Hrun; now destruct (status r)|].
    match type of Hcheck with
    | ValidateTransfer.check_samples w ?c ?b ?sp ?dp _ _ _ = _ =>
        destruct (check_samples_accounted w c b sp dp samples ([], 0) st4)
          as (checked' & st' & Hcheck' & Hacc & Hle)
    end.
    rewrite Hcheck in Hcheck'. inversion Hcheck'; subst checked' st'.
    unfold accounted in Hacc. simpl in *. lia.
  - intros. apply check_sample_counts.
  - intros dest_s3 bucket source_prefix prefix samples acc s.
    destruct (check_samples_accounted w dest_s3 bucket source_prefix prefix
                samples acc s) as (acc' & s' & Hrun & Hacc & _).
    now exists acc', s'.
Qed.

(** ** The theorems at work in the concrete world *)


Lemma non_retryable_fails_fast_witness :
  Retry.exponential_backoff_with_jitter demo_world 5 1 60 [RetryableError]
    (counted "op" always_denied) initial
  = (Raise (mk_exn AccessDeniedError "access denied" NoDetails),
     log (EvCall "op") initial) /\
  calls "op" (trace (log (EvCall "op") initial)) = S (calls "op" (trace initial)) /\
  sleeps (trace (log (EvCall "op") initial)) = sleeps (trace initial).
Proof.
  destruct (non_retryable_fails_fast demo_world 5 1 60 [RetryableError] "op"
              always_denied initial (log (EvCall "op") initial)
              (mk_exn AccessDeniedError "access denied" NoDetails))
    as (Hrun & Hcalls & Hsleeps & _).
  - lia.
  - intros st. split; reflexivity.
  - reflexivity.
  - reflexivity.
  - repeat split; assumption.
Defined.

Lemma abort_before_reraise_witness :
  exists st2,
    S3Client.multipart_copy__wrapped__ demo_world demo_client "src" "data/x"
      "dst" "out/x" 130 "key" 40 initial
    = (Raise (client_error "InternalError" "part refused"),
       log (EvS3 demo_client (AbortMultipartUpload "dst" "out/x" "upload-1")
              (inl (client_error "InternalError" "abort refused"))) st2).
Proof.
  destruct (abort_before_reraise demo_world demo_client "src" "data/x" "dst"
              "out/x" 130 "key" 40 initial) as [_ Hassigned].
  - unfold S3Client.MAX_OBJECT_SIZE. lia.
  - edestruct Hassigned as [_ Hrun].
    + reflexivity.
    + reflexivity.
    + vm_compute. reflexivity.
    + eexists. apply Hrun. reflexivity.
Defined.

Lemma copy_path_by_size_witness :
  exists k : nat,
    s3_requests (trace (snd (TransferObject.handler demo_world small_transfer
                               initial)))
    = s3_requests (trace initial)
      ++ replicate k (CopyObject ("src", "data/x") "dst" "out/x" (Some "key")) /\
    (1 <= k <= 5)%nat.
Proof.
  edestruct (copy_path_by_size demo_world small_transfer initial)
    as (_ & Hsmall & _).
  - reflexivity.
  - destruct Hsmall as (_ & Hrequests & _).
    + simpl. lia.
    + exact Hrequests.
Defined.

Lemma credential_acquisition_witness :
  let acquire :=
    StsClient.assume_role demo_world "arn:destination" "session" "ext" 3600 in
  sts_requests (trace (snd ((acquire ;; acquire) initial)))
  = sts_requests (trace initial)
    ++ [{| RoleArn := "arn:destination"; RoleSessionName := "session";
           DurationSeconds := 3600; ExternalId := Some "ext" |}].
Proof.
  cbv zeta.
  pose proof (credential_acquisition demo_world "arn:destination" "session"
                "ext" 3600 initial) as H.
  cbv zeta in H. destruct H as (_ & _ & _ & Htwice).
  edestruct Htwice as [Hfresh _].
  - reflexivity.
  - reflexivity.
  - apply Hfresh. reflexivity.
Defined.

Lemma validation_status_and_sample_witness :
  exists (r : validation_result) (samples : list inventory_entry),
    produced (fst (ValidateTransfer.handler demo_world demo_validation initial))
    = Some r /\
    (status r = PASSED <->
     total_found r >= total_expected r /\ failures r = []) /\
    Z.of_nat (length samples) = 2 /\
    samples_checked r = Z.of_nat (length samples).
Proof.
  edestruct (validation_status_and_sample demo_world demo_validation initial)
    as (r & samples & Hp & _ & Hstatus & _ & _ & _ & _ & Hlen & Hchecked & _).
  - reflexivity.
  - reflexivity.
  - reflexivity.
  - simpl. lia.
  - intros t population k Hk. simpl. now apply length_take_le.
  - exists r, samples. split; [exact Hp|]. split; [exact Hstatus|].
    split; [exact Hlen|exact Hchecked].
Defined.

Lemma sample_accounting_witness :
  exists r,
    produced (fst (ValidateTransfer.handler demo_world demo_validation initial))
    = Some r /\
    samples_passed r + Z.of_nat (length (failures r)) = samples_checked r /\
    0 <= samples_passed r.
Proof.
  edestruct (sample_accounting demo_world demo_validation initial)
    as (Hresult & _).
  - reflexivity.
  - reflexivity.
  - reflexivity.
  - simpl. lia.
  - intros t population k Hk. simpl. now apply length_take_le.
  - exact Hresult.
Defined.

(** * Further properties *)

(** ** The retrier, whatever the operation does *)

Section AnyOutcome.
Context {A : Type}.
Variable w : World.
Variable max_attempts : Z.
Variables base_delay max_delay : Q.
Variable retryable_exceptions : list exn_class.
Variable name : string.
Variable func : M A.

Hypothesis base_delay_nonneg : (0 <= base_delay)%Q.
Hypothesis max_delay_nonneg : (0 <= max_delay)%Q.
Hypothesis rng_unit : forall t, (0 <= rng w t <= 1)%Q.
Hypothesis func_quiet : quiet name func.

Let run :=
  Retry.attempts w max_attempts base_delay max_delay retryable_exceptions
    (counted name func).

(** From attempt [k] on, with [S m] attempts left: [S n] invocations and
    [n] sleeps, for some [n <= m]. *)
Lemma attempts_bounded (m : nat) :
  forall (k : Z) (last : option exn) (st : state),
    k + Z.of_nat (S m) = max_attempts ->
    exists (n : nat) (ds : list Q),
      (n <= m)%nat /\
      calls name (trace (snd (run (Py.range k max_attempts) last st)))
      = (calls name (trace st) + S n)%nat /\
      sleeps (trace (snd (run (Py.range k max_attempts) last st)))
      = sleeps (trace st) ++ ds /\
      length ds = n /\
      forall (i : nat) (d : Q),
        ds !! i = Some d ->
        (0 <= d <= Retry.cap base_delay max_delay (k + Z.of_nat i))%Q.
Proof.
  induction m as [|m IH]; intros k last st Hk;
    pose proof (quiet_counted name func st func_quiet) as [Hc Hs];
    rewrite range_cons by lia; unfold run;
    destruct (counted name func st) as [[v|e] st1] eqn:Hf; simpl in Hc, Hs.
  - exists 0%nat, []. rewrite (attempts_success _ _ _ _ _ _ _ _ _ _ st1 v Hf).
    simpl. rewrite app_nil_r. repeat split; try easy; lia.
  - exists 0%nat, []. replace k with (max_attempts - 1) by lia.
    rewrite (attempts_last _ _ _ _ _ _ _ _ _ st1 e Hf).
    simpl. rewrite app_nil_r. repeat split; try easy; lia.
  - exists 0%nat, []. rewrite (attempts_success _ _ _ _ _ _ _ _ _ _ st1 v Hf).
    simpl. rewrite app_nil_r. repeat split; try easy; lia.
  - destruct (isinstance_any e retryable_exceptions) eqn:He.
    2:{ exists 0%nat, [].
        rewrite (attempts_fail_fast _ _ _ _ _ _ _ _ _ _ st1 e Hf He).
        simpl. rewrite app_nil_r. repeat split; try easy; lia. }
    destruct (Z_lt_le_dec k 1024) as [Hfloat|Hbig].
    2:{ exists 0%nat, [].
        rewrite (attempts_overflow w max_attempts base_delay max_delay
                   retryable_exceptions _ _ _ _ _ _ _ Hf He) by lia.
        simpl. rewrite app_nil_r. repeat split; try easy; lia. }
    rewrite (attempts_retry w max_attempts base_delay max_delay
               retryable_exceptions base_delay_nonneg max_delay_nonneg
               rng_unit _ _ _ _ _ _ _ Hf He) by lia.
    cbv zeta.
    set (u := rng w (trace st1)).
    set (delay := (0 + (Retry.cap base_delay max_delay k - 0) * u)%Q).
    destruct (IH (k + 1) (Some e) (log (EvSleep delay) (log (EvRandom u) st1)))
      as (n & ds & Hn & Hcalls & Hsleeps & Hlen & Hds); [lia|].
    unfold run in Hcalls, Hsleeps.
    exists (S n), (delay :: ds). split; [lia|]. split; [|split; [|split]].
    + rewrite Hcalls, !trace_log, !calls_snoc, Hc by reflexivity. lia.
    + rewrite Hsleeps, !trace_log, sleeps_snoc_sleep, sleeps_snoc, Hs
        by reflexivity.
      now rewrite <- app_assoc.
    + simpl. now rewrite Hlen.
    + intros [|i] d Hd; simpl in Hd.
      * injection Hd as <-. rewrite Z.add_0_r.
        apply jitter_bounds; [assumption..|]. apply rng_unit.
      * replace (k + Z.of_nat (S i)) with (k + 1 + Z.of_nat i) by lia.
        now apply Hds.
Qed.

End AnyOutcome.

Lemma cap_le_max (base_delay max_delay : Q) (attempt : Z) :
  (Retry.cap base_delay max_delay attempt <= max_delay)%Q.
Proof. unfold Retry.cap. apply Q.le_min_l. Qed.

(** X1: whatever the operation does (succeed, fail with a retryable
    error or with any other), as long as it neither sleeps nor
    re-enters itself, the retrier with [max_attempts = N >= 1],
    non-negative delays and [random()] in the unit interval invokes it at
    least once and at most [N] times, sleeps exactly once between two
    consecutive invocations and never after the last, and no sleep lasts
    longer than [max_delay]. *)
Theorem retry_bounded {A} (w : World) (max_attempts : Z)
    (base_delay max_delay : Q) (retryable_exceptions : list exn_class)
    (name : string) (func : M A) (st : state) :
  1 <= max_attempts ->
  (0 <= base_delay)%Q ->
  (0 <= max_delay)%Q ->
  (forall t, (0 <= rng w t <= 1)%Q) ->
  quiet name func ->
  let st' :=
    snd (Retry.exponential_backoff_with_jitter w max_attempts base_delay
           max_delay retryable_exceptions (counted name func) st) in
  exists (invocations : nat) (ds : list Q),
    calls name (trace st') = (calls name (trace st) + invocations)%nat /\
    1 <= Z.of_nat invocations <= max_attempts /\
    sleeps (trace st') = sleeps (trace st) ++ ds /\
    S (length ds) = invocations /\
    Forall (fun d => (0 <= d <= max_delay)%Q) ds.
Proof.
  intros Hn Hb Hm Hrng Hq st'.
  destruct (attempts_bounded w max_attempts base_delay max_delay
              retryable_exceptions name func Hb Hm Hrng Hq
              (Z.to_nat (max_attempts - 1)) 0 None st)
    as (n & ds & Hle & Hcalls & Hsleeps & Hlen & Hds); [lia|].
  exists (S n), ds. split; [exact Hcalls|]. split; [lia|].
  split; [exact Hsleeps|]. split; [now rewrite Hlen|].
  apply Forall_lookup. intros i d Hd. destruct (Hds i d Hd) as [H0 H1].
  split; [exact H0|].
  eapply Qle_trans; [exact H1|apply cap_le_max].
Qed.

Section UntilSuccess.
Context {A : Type}.
Variable w : World.
Variable max_attempts : Z.
Variables base_delay max_delay : Q.
Variable retryable_exceptions : list exn_class.
Variable name : string.
Variable func : M A.

Hypothesis base_delay_nonneg : (0 <= base_delay)%Q.
Hypothesis max_delay_nonneg : (0 <= max_delay)%Q.
Hypothesis rng_unit : forall t, (0 <= rng w t <= 1)%Q.
Hypothesis func_quiet : quiet name func.


End UntilSuccess.


(** X3: with [max_attempts <= 0] the decorated operation is never
    invoked: the loop body does not run, [raise last_exception] raises
    [None], which Python turns into a [TypeError], and nothing else
    happens. *)
Theorem no_attempt_allowed {A} (w : World) (max_attempts : Z)
    (base_delay max_delay : Q) (retryable_exceptions : list exn_class)
    (func : M A) (st : state) :
  max_attempts <= 0 ->
  exists e,
    Retry.exponential_backoff_with_jitter w max_attempts base_delay max_delay
      retryable_exceptions func st = (Raise e, st) /\
    cls e = TypeError /\
    isinstance e TransferError = false.
Proof.
  intros Hn.
  exists (mk_exn TypeError "exceptions must derive from BaseException"
            NoDetails).
  split; [|split; reflexivity].
  unfold Retry.exponential_backoff_with_jitter, Retry.wrapper, Py.range.
  replace (Z.to_nat (max_attempts - 0)) with 0%nat by lia. reflexivity.
Qed.

(** ** Retrying until the attempts are used up, seen through a view *)

Section ExhaustView.
Context {A B : Type}.
Variable view : event -> option B.
Variable w : World.
Variable max_attempts : Z.
Variables base_delay max_delay : Q.
Variable retryable_exceptions : list exn_class.
Variable func : M A.
Variable x : B.
Variable I : state -> Prop.

Hypothesis base_delay_nonneg : (0 <= base_delay)%Q.
Hypothesis max_delay_nonneg : (0 <= max_delay)%Q.
Hypothesis rng_unit : forall t, (0 <= rng w t <= 1)%Q.
Hypothesis view_random : forall u, view (EvRandom u) = None.
Hypothesis view_sleep : forall d, view (EvSleep d) = None.
Hypothesis I_log : forall st ev, I st -> I (log ev st).
Hypothesis func_fails :
  forall st,
    I st ->
    exists e st',
      func st = (Raise e, st') /\
      isinstance_any e retryable_exceptions = true /\
      I st' /\
      omap view (trace st') = omap view (trace st) ++ [x] /\
      sleeps (trace st') = sleeps (trace st).
Hypothesis attempts_convert : max_attempts <= 1025.

(** While [I] holds the operation fails with a retryable error and
    shows once in the view; then the loop uses every attempt, as long
    as every delay is computed at an attempt below 1024. *)
Lemma attempts_exhaust_view (m : nat) :
  forall (k : Z) (last : option exn) (st : state),
    I st ->
    k + Z.of_nat (S m) = max_attempts ->
    exists e s_last st' ds,
      Retry.attempts w max_attempts base_delay max_delay retryable_exceptions
        func (Py.range k max_attempts) last st = (Raise e, st') /\
      I s_last /\
      func s_last = (Raise e, st') /\
      I st' /\
      omap view (trace st') = omap view (trace st) ++ replicate (S m) x /\
      sleeps (trace st') = sleeps (trace st) ++ ds /\
      length ds = m.
Proof.
  induction m as [|m IH]; intros k last st HI Hk;
    destruct (func_fails st HI) as (e & st1 & Hf & He & HI1 & Hv & Hs);
    rewrite range_cons by lia.
  - exists e, st, st1, []. replace k with (max_attempts - 1) by lia.
    split; [now apply attempts_last|]. rewrite app_nil_r. easy.
  - rewrite (attempts_retry w max_attempts base_delay max_delay
               retryable_exceptions base_delay_nonneg max_delay_nonneg
               rng_unit _ _ _ _ _ _ _ Hf He) by lia.
    cbv zeta.
    set (u := rng w (trace st1)).
    set (delay := (0 + (Retry.cap base_delay max_delay k - 0) * u)%Q).
    destruct (IH (k + 1) (Some e) (log (EvSleep delay) (log (EvRandom u) st1)))
      as (e' & s_last & st' & ds & Hrun & HIl & Hlast & HI' & Hview & Hsleeps
          & Hlen); [now apply I_log, I_log|lia|].
    exists e', s_last, st', (delay :: ds).
    split; [exact Hrun|]. split; [exact HIl|]. split; [exact Hlast|].
    split; [exact HI'|]. split; [|split].
    + rewrite Hview, !trace_log.
      rewrite (omap_snoc_none view _ _ (view_sleep delay)).
      rewrite (omap_snoc_none view _ _ (view_random u)).
      rewrite Hv, <- app_assoc. reflexivity.
    + rewrite Hsleeps, !trace_log, sleeps_snoc_sleep, sleeps_snoc, Hs
        by reflexivity.
      now rewrite <- app_assoc.
    + simpl. now rewrite Hlen.
Qed.

End ExhaustView.

(** ** What a computation may raise *)

Section RaisesOnly.
Context {A : Type}.
Variable Q : exn -> Prop.

Lemma raises_ret (a : A) : raises_only Q (ret a).
Proof. intros st e st' H. discriminate. Qed.

Lemma raises_raise (e : exn) : Q e -> raises_only Q (@raise A e).
Proof. intros He st e' st' H. now inversion H; subst. Qed.

Lemma raises_bind {B} (c : M B) (k : B -> M A) :
  raises_only Q c -> (forall b, raises_only Q (k b)) ->
  raises_only Q (bind c k).
Proof.
  intros Hc Hk st e st' Hrun. unfold bind in Hrun.
  destruct (c st) as [[b|e1] st1] eqn:Hcst.
  - now apply (Hk b st1 e st').
  - inversion Hrun; subst. now apply (Hc st e st').
Qed.

Lemma raises_try_except (body : M A) (handler : exn -> M A) :
  raises_only Q body ->
  (forall e, Q e -> raises_only Q (handler e)) ->
  raises_only Q (try_except body handler).
Proof.
  intros Hb Hh st e st' Hrun. unfold try_except in Hrun.
  destruct (body st) as [[a|e1] st1] eqn:Hbst; [discriminate|].
  apply (Hh e1 (Hb st e1 st1 Hbst) st1 e st' Hrun).
Qed.

End RaisesOnly.

Lemma raises_s3_call (Q : exn -> Prop) (w : World) (c : client)
    (req : s3_request) :
  (forall t e, s3 w t c req = inl e -> Q e) ->
  raises_only Q (s3_call w c req).
Proof.
  intros Hs3 st e st' Hrun. rewrite run_s3_call in Hrun.
  destruct (s3 w (trace st) c req) as [e1|r] eqn:Hresp; inversion Hrun; subst.
  now apply (Hs3 (trace st)).
Qed.

(** An operation that never raises a retryable exception is invoked
    once: its decoration changes nothing. *)
Lemma retry_noop {A} (w : World) (max_attempts : Z) (base_delay max_delay : Q)
    (retryable_exceptions : list exn_class) (func : M A) (st : state) :
  1 <= max_attempts ->
  raises_only (fun e => isinstance_any e retryable_exceptions = false) func ->
  Retry.exponential_backoff_with_jitter w max_attempts base_delay max_delay
    retryable_exceptions func st = func st.
Proof.
  intros Hn Hraises.
  unfold Retry.exponential_backoff_with_jitter, Retry.wrapper.
  rewrite range_cons by lia.
  destruct (func st) as [[v|e] st1] eqn:Hf.
  - now apply attempts_success.
  - apply attempts_fail_fast; [exact Hf|]. now apply (Hraises st e st1).
Qed.

(** ** Single copies and probes that fail *)

Lemma classify_s3_denied (e : exn) (operation : string) :
  error_code e ∈ ["AccessDenied"; "403"] ->
  cls (S3Client._classify_s3_error e operation) = AccessDeniedError.
Proof.
  intros H. unfold S3Client._classify_s3_error.
  now rewrite bool_decide_eq_true_2 by exact H.
Qed.

Lemma classify_s3_other (e : exn) (operation : string) :
  error_code e ∉ ["AccessDenied"; "403"] ->
  cls (S3Client._classify_s3_error e operation) = RetryableError.
Proof.
  intros H. unfold S3Client._classify_s3_error.
  rewrite bool_decide_eq_false_2 by exact H. now destruct (bool_decide _).
Qed.

Section FailingCopy.
Variable w : World.
Variable s3_client : client.
Variables source_bucket source_key dest_bucket dest_key kms_key_id : string.

Let single :=
  CopyObject (source_bucket, source_key) dest_bucket dest_key
    (S3Client.sse_of kms_key_id).
Let copy :=
  S3Client.copy_object w s3_client source_bucket source_key dest_bucket
    dest_key kms_key_id.

(** X4: a single copy whose first answer from S3 is a denial (a
    [ClientError] with code [AccessDenied] or [403]) raises the
    [AccessDeniedError] made from it after that one request, with no
    retry and no sleep; and a first answer that is an exception of
    another kind, neither a [ClientError] nor a [RetryableError], is
    raised unchanged after that one request. *)
Theorem copy_object_fails_fast (st : state) (e : exn) :
  s3 w (trace st) s3_client single = inl e ->
  (isinstance e ClientError = true ->
   error_code e ∈ ["AccessDenied"; "403"] ->
   copy st
   = (Raise (S3Client._classify_s3_error e "copy_object"),
      log (EvS3 s3_client single (inl e)) st) /\
   cls (S3Client._classify_s3_error e "copy_object") = AccessDeniedError /\
   details (S3Client._classify_s3_error e "copy_object")
   = Fields [("error_code", error_code e); ("operation", "copy_object")]) /\
  (isinstance e ClientError = false ->
   isinstance e RetryableError = false ->
   copy st = (Raise e, log (EvS3 s3_client single (inl e)) st)).
Proof.
  intros Hresp.
  assert (Hfirst :
    S3Client.copy_object__wrapped__ w s3_client source_bucket source_key
      dest_bucket dest_key kms_key_id st
    = (Raise (if isinstance e ClientError
              then S3Client._classify_s3_error e "copy_object" else e),
       log (EvS3 s3_client single (inl e)) st)).
  { rewrite run_copy_object__wrapped__. fold single. now rewrite Hresp. }
  split.
  - intros Hclient Hcode. rewrite Hclient in Hfirst.
    pose proof (classify_s3_denied e "copy_object" Hcode) as Hcls.
    split; [|split; [exact Hcls|]].
    + unfold copy, S3Client.copy_object, S3Client.retried,
        Retry.exponential_backoff_with_jitter, Retry.wrapper.
      rewrite range_cons by lia. apply attempts_fail_fast; [exact Hfirst|].
      unfold isinstance_any, isinstance. simpl. now rewrite Hcls.
    + unfold S3Client._classify_s3_error.
      now rewrite bool_decide_eq_true_2 by exact Hcode.
  - intros Hclient Hretry. rewrite Hclient in Hfirst.
    unfold copy, S3Client.copy_object, S3Client.retried,
      Retry.exponential_backoff_with_jitter, Retry.wrapper.
    rewrite range_cons by lia. apply attempts_fail_fast; [exact Hfirst|].
    unfold isinstance_any. simpl. now rewrite Hretry.
Qed.

(** X5: when S3 answers every [CopyObject] with a [ClientError] whose
    code is not a denial (throttling, a server error, or any unknown
    code), a single copy makes exactly five requests, sleeps exactly
    four times and raises the [RetryableError] made from the last
    answer. *)
Theorem copy_object_exhausts (st : state) :
  (forall t, (0 <= rng w t <= 1)%Q) ->
  (forall t, exists e,
     s3 w t s3_client single = inl e /\
     isinstance e ClientError = true /\
     error_code e ∉ ["AccessDenied"; "403"]) ->
  exists e st' ds,
    copy st = (Raise (S3Client._classify_s3_error e "copy_object"), st') /\
    cls (S3Client._classify_s3_error e "copy_object") = RetryableError /\
    s3_requests (trace st') = s3_requests (trace st) ++ replicate 5 single /\
    sleeps (trace st') = sleeps (trace st) ++ ds /\
    length ds = 4%nat.
Proof.
  intros Hrng Hs3.
  destruct (attempts_exhaust_view s3_request_of w 5 1 60 [RetryableError]
              (S3Client.copy_object__wrapped__ w s3_client source_bucket
                 source_key dest_bucket dest_key kms_key_id)
              single (fun _ => True)) with (m := 4%nat) (k := 0)
                                            (last := @None exn) (st := st)
    as (e' & s_last & st' & ds & Hrun & _ & Hlast & _ & Hview & Hsleeps & Hlen);
    try easy.
  - intros s _. destruct (Hs3 (trace s)) as (e & Hresp & Hclient & Hcode).
    eexists _, _. rewrite run_copy_object__wrapped__. fold single.
    rewrite Hresp, Hclient. split; [reflexivity|].
    split; [|split; [exact I|split]].
    + unfold isinstance_any, isinstance. simpl.
      now rewrite (classify_s3_other e "copy_object" Hcode).
    + rewrite trace_log. unfold s3_requests. now rewrite omap_app.
    + now rewrite trace_log, sleeps_snoc.
  - destruct (Hs3 (trace s_last)) as (e & Hresp & Hclient & Hcode).
    rewrite run_copy_object__wrapped__ in Hlast. fold single in Hlast.
    rewrite Hresp, Hclient in Hlast. inversion Hlast; subst e'.
    exists e, st', ds. split; [exact Hrun|].
    split; [now apply classify_s3_other|]. now split.
Qed.

End FailingCopy.

(** ** Chunked copies: the guard, the division, the requests *)

Lemma part_tags_snoc (t : list event) (ev : event) :
  part_tags (t ++ [ev])
  = part_tags t ++ match part_tag_of ev with Some p => [p] | None => [] end.
Proof.
  unfold part_tags. rewrite omap_app. simpl. now destruct (part_tag_of ev).
Qed.

Lemma s3_requests_snoc (t : list event) (c : client) (req : s3_request)
    (resp : exn + s3_response) :
  s3_requests (t ++ [EvS3 c req resp]) = s3_requests t ++ [req].
Proof. unfold s3_requests. now rewrite omap_app. Qed.

Lemma num_parts_nonpos (object_size part_size n : Z) :
  object_size <= 0 -> 0 < part_size ->
  S3Client.num_parts object_size part_size = inr n -> n <= 0.
Proof.
  intros Hsize Hpart. unfold S3Client.num_parts.
  destruct (Py.truediv object_size part_size) as [| |x] eqn:Hdiv;
    try discriminate.
  intros [= <-].
  pose proof (truediv_nonpos object_size part_size x Hsize Hpart Hdiv) as Hx.
  apply Qceiling_resp_le in Hx. exact Hx.
Qed.

Lemma range_empty (lo hi : Z) : hi <= lo -> Py.range lo hi = [].
Proof.
  intros H. unfold Py.range. now replace (Z.to_nat (hi - lo)) with 0%nat by lia.
Qed.

Section ChunkedRequests.
Variable w : World.
Variable s3_client : client.
Variables source_bucket source_key dest_bucket dest_key : string.
Variable object_size : Z.
Variable kms_key_id : string.
Variable part_size : Z.

Let create :=
  CreateMultipartUpload dest_bucket dest_key (S3Client.sse_of kms_key_id).
Let part_request (upload_id : string) (part_num : Z) :=
  UploadPartCopy dest_bucket dest_key upload_id part_num
    (source_bucket +:+ "/" +:+ source_key)
    (S3Client.part_range object_size part_size part_num).
Let complete := CompleteMultipartUpload dest_bucket dest_key.
Let abort := AbortMultipartUpload dest_bucket dest_key.
Let body :=
  S3Client.multipart_copy__wrapped__ w s3_client source_bucket source_key
    dest_bucket dest_key object_size kms_key_id part_size.
Let chunked :=
  S3Client.multipart_copy w s3_client source_bucket source_key dest_bucket
    dest_key object_size kms_key_id part_size.

(** The loop, when it ends normally: one request per part number under
    the upload id, and the list it returns grows by the accepted
    parts, each with the tag S3 returned for it. *)
Lemma copy_parts_ok (upload_id : string) (part_nums : list Z) :
  forall (parts : list (Z * string)) (st : state) parts' st',
    S3Client.copy_parts w s3_client source_bucket source_key dest_bucket
      dest_key object_size part_size upload_id part_nums parts st
    = (Ok parts', st') ->
    exists new,
      parts' = parts ++ new /\
      map fst new = part_nums /\
      part_tags (trace st') = part_tags (trace st) ++ new /\
      s3_requests (trace st')
      = s3_requests (trace st) ++ map (part_request upload_id) part_nums.
Proof.
  induction part_nums as [|part_num rest IH]; intros parts st parts' st' Hrun.
  - simpl in Hrun. inversion Hrun; subst. exists [].
    now rewrite !app_nil_r.
  - simpl in Hrun. unfold bind at 1 in Hrun. rewrite run_s3_call in Hrun.
    fold (part_request upload_id part_num) in Hrun.
    destruct (s3 w (trace st) s3_client (part_request upload_id part_num))
      as [e|resp] eqn:Hresp; [discriminate|].
    destruct resp; try discriminate.
    apply IH in Hrun as (new & -> & Hfst & Htags & Hreqs).
    eexists (_ :: new). split; [now rewrite <- app_assoc|].
    split; [simpl; now rewrite Hfst|]. split.
    + rewrite Htags, trace_log, part_tags_snoc. simpl.
      now rewrite <- app_assoc.
    + rewrite Hreqs, trace_log, s3_requests_snoc. simpl.
      now rewrite <- app_assoc.
Qed.

(** A body that raises nothing retryable when S3 does not. *)
Lemma raises_multipart_copy (Q : exn -> Prop) :
  (forall cls_ text, cls_ <> RetryableError -> cls_ <> ClientError ->
                     Q (mk_exn cls_ text NoDetails)) ->
  (forall t c req e, s3 w t c req = inl e -> Q e) ->
  raises_only Q body.
Proof.
  intros Hown Hs3. unfold body, S3Client.multipart_copy__wrapped__.
  destruct (object_size >? S3Client.MAX_OBJECT_SIZE).
  { apply raises_raise. now apply Hown. }
  apply raises_bind.
  - unfold S3Client.create_upload. apply raises_bind.
    + apply raises_s3_call. intros t e. apply Hs3.
    + intros []; try (apply raises_raise; now apply Hown). apply raises_ret.
  - intros upload_id. apply raises_try_except.
    + unfold S3Client.copy_and_complete, S3Client.num_parts.
      destruct (Py.truediv object_size part_size) as [| |quotient];
        try (apply raises_raise; now apply Hown).
      apply raises_bind.
      * generalize (@nil (Z * string)).
        induction (Py.range 1 (Py.math_ceil quotient + 1))
          as [|part_num rest IH]; intros parts; simpl.
        -- apply raises_ret.
        -- apply raises_bind.
           ++ apply raises_s3_call. intros t e. apply Hs3.
           ++ intros []; try (apply raises_raise; now apply Hown). apply IH.
      * intros parts. apply raises_s3_call. intros t e. apply Hs3.
    + intros e He. apply raises_bind; [|intros _; now apply raises_raise].
      unfold S3Client.abort_upload. destruct (Py.truthy upload_id).
      * apply raises_try_except.
        -- apply raises_bind; [|intros _; apply raises_ret].
           apply raises_s3_call. intros t e0. apply Hs3.
        -- intros e0 _. apply raises_ret.
      * apply raises_ret.
Qed.


(** X7: with a part size of zero the chunked copy still initiates the
    upload; the division then raises [ZeroDivisionError], the upload is
    aborted, and that error is raised without a retry.  The requests
    are the initiation and the abort: no part is copied and nothing is
    completed. *)
Theorem zero_part_size_aborts (st : state) (upload_id : string) :
  object_size <= S3Client.MAX_OBJECT_SIZE ->
  part_size = 0 ->
  s3 w (trace st) s3_client create
  = inr (CreateMultipartUploadOutput upload_id) ->
  Py.truthy upload_id = true ->
  exists st',
    chunked st
    = (Raise (mk_exn ZeroDivisionError "division by zero" NoDetails), st') /\
    s3_requests (trace st')
    = s3_requests (trace st) ++ [create; abort upload_id] /\
    sleeps (trace st') = sleeps (trace st).
Proof.
  intros Hsize Hzero Hcreate Hid.
  assert (Hbody :
    body st
    = (Raise (mk_exn ZeroDivisionError "division by zero" NoDetails),
       log (EvS3 s3_client (abort upload_id)
              (s3 w (trace (log (EvS3 s3_client create
                                   (inr (CreateMultipartUploadOutput upload_id)))
                              st)) s3_client (abort upload_id)))
         (log (EvS3 s3_client create
                 (inr (CreateMultipartUploadOutput upload_id))) st))).
  { unfold body. rewrite run_multipart_copy by exact Hsize.
    rewrite run_create_upload. fold create. rewrite Hcreate.
    unfold S3Client.copy_and_complete. rewrite Hzero.
    change (S3Client.num_parts object_size 0)
      with (@inl exn Z (mk_exn ZeroDivisionError "division by zero" NoDetails)).
    unfold raise at 1.
    now rewrite run_abort_upload by exact Hid. }
  eexists. split; [|split].
  - unfold chunked, S3Client.multipart_copy, S3Client.retried,
      Retry.exponential_backoff_with_jitter, Retry.wrapper.
    rewrite range_cons by lia. apply attempts_fail_fast; [exact Hbody|].
    reflexivity.
  - rewrite !trace_log, !s3_requests_snoc. now rewrite <- app_assoc.
  - now rewrite !trace_log, !sleeps_snoc.
Qed.

(** X8: an object of size zero (or less) with a positive part size,
    when the float division of the sizes yields a number of parts [n]
    (it always does at size zero; it raises [OverflowError] instead for
    sizes from [-2^1024] down), has no parts, [n <= 0]: the chunked copy
    initiates the upload and at once asks S3 to complete it with an
    empty list of parts, copying nothing; what S3 answers to that
    completion decides the outcome. *)
Theorem empty_object_has_no_parts (st : state) (upload_id : string) (n : Z) :
  object_size <= 0 ->
  0 < part_size ->
  S3Client.num_parts object_size part_size = inr n ->
  s3 w (trace st) s3_client create
  = inr (CreateMultipartUploadOutput upload_id) ->
  let st1 :=
    log (EvS3 s3_client create (inr (CreateMultipartUploadOutput upload_id)))
      st in
  n <= 0 /\
  (forall r,
     s3 w (trace st1) s3_client (complete upload_id []) = inr r ->
     body st = (Ok r, log (EvS3 s3_client (complete upload_id []) (inr r)) st1)) /\
  part_copies (trace (snd (body st))) = part_copies (trace st) /\
  exists rest,
    s3_requests (trace (snd (body st)))
    = s3_requests (trace st) ++ create :: complete upload_id [] :: rest.
Proof.
  intros Hsize Hpart Hnum Hcreate st1.
  pose proof (num_parts_nonpos _ _ _ Hsize Hpart Hnum) as Hn.
  split; [exact Hn|].
  assert (Hmax : object_size <= S3Client.MAX_OBJECT_SIZE)
    by (unfold S3Client.MAX_OBJECT_SIZE; lia).
  assert (Hrest :
    S3Client.copy_and_complete w s3_client source_bucket source_key
      dest_bucket dest_key object_size part_size upload_id st1
    = s3_call w s3_client (complete upload_id []) st1).
  { unfold S3Client.copy_and_complete. rewrite Hnum.
    rewrite range_empty by lia. reflexivity. }
  assert (Hbody :
    body st
    = match s3_call w s3_client (complete upload_id []) st1 with
      | (Ok r, st2) => (Ok r, st2)
      | (Raise e, st2) =>
          match S3Client.abort_upload w s3_client dest_bucket dest_key
                  upload_id st2 with
          | (Ok _, st3) => (Raise e, st3)
          | (Raise e', st3) => (Raise e', st3)
          end
      end).
  { unfold body. rewrite run_multipart_copy by exact Hmax.
    rewrite run_create_upload. fold create. rewrite Hcreate.
    fold st1. now rewrite Hrest. }
  assert (Habort : forall st2,
    exists tail,
      trace (snd (S3Client.abort_upload w s3_client dest_bucket dest_key
                    upload_id st2)) = trace st2 ++ tail /\
      fst (S3Client.abort_upload w s3_client dest_bucket dest_key upload_id
             st2) = Ok tt /\
      part_copies tail = []).
  { intros st2. destruct (Py.truthy upload_id) eqn:Hid.
    - rewrite run_abort_upload by exact Hid. eexists [_].
      split; [reflexivity|]. split; reflexivity.
    - unfold S3Client.abort_upload. rewrite Hid. exists [].
      split; [now rewrite app_nil_r|]. split; reflexivity. }
  rewrite Hbody, run_s3_call.
  destruct (s3 w (trace st1) s3_client (complete upload_id [])) as [e|r]
    eqn:Hcomplete.
  - destruct (Habort (log (EvS3 s3_client (complete upload_id []) (inl e)) st1))
      as (tail & Htrace & Hok & Hparts).
    destruct (S3Client.abort_upload w s3_client dest_bucket dest_key upload_id
                (log (EvS3 s3_client (complete upload_id []) (inl e)) st1))
      as [[[]|e'] st3]; [|discriminate].
    cbn [snd] in *. rewrite Htrace. unfold st1. rewrite !trace_log.
    split; [intros r Hr; discriminate|]. split.
    + unfold part_copies in *. rewrite !omap_app, Hparts. simpl.
      now rewrite !app_nil_r.
    + exists (s3_requests tail). rewrite !s3_requests_app. simpl.
      now rewrite <- !app_assoc.
  - cbn [snd]. unfold st1. rewrite !trace_log. split; [|split].
    + intros r' Hr. now inversion Hr.
    + rewrite !part_copies_snoc. simpl. now rewrite !app_nil_r.
    + exists []. rewrite !s3_requests_snoc. now rewrite <- !app_assoc.
Qed.

(** X9: a chunked copy that returns has computed a number of parts [n]
    (the ceiling of the float quotient of the sizes, as Python rounds
    it) and made exactly these requests, in this order: the initiation;
    one [UploadPartCopy] for each part number from 1 to [n], all under
    the upload id the initiation returned and from the same copy
    source; and the completion of that upload, which lists every part
    once, in ascending order, with the tag S3 returned for that part.
    No abort is among them, and the result is the answer to the
    completion. *)
Theorem chunked_copy_requests (st st' : state) (r : s3_response) :
  body st = (Ok r, st') ->
  exists n upload_id parts st2,
    S3Client.num_parts object_size part_size = inr n /\
    s3 w (trace st) s3_client create
    = inr (CreateMultipartUploadOutput upload_id) /\
    map fst parts = Py.range 1 (n + 1) /\
    part_tags (trace st') = part_tags (trace st) ++ parts /\
    s3_requests (trace st')
    = s3_requests (trace st)
      ++ create
         :: map (part_request upload_id) (Py.range 1 (n + 1))
      ++ [complete upload_id parts] /\
    s3 w (trace st2) s3_client (complete upload_id parts) = inr r /\
    st' = log (EvS3 s3_client (complete upload_id parts) (inr r)) st2.
Proof.
  intros Hrun. unfold body in Hrun.
  assert (Hsize : object_size <= S3Client.MAX_OBJECT_SIZE).
  { unfold S3Client.multipart_copy__wrapped__ in Hrun.
    destruct (object_size >? S3Client.MAX_OBJECT_SIZE) eqn:Hg;
      [discriminate|].
    rewrite Z.gtb_ltb in Hg. now apply Z.ltb_ge in Hg. }
  rewrite run_multipart_copy in Hrun by exact Hsize.
  rewrite run_create_upload in Hrun. fold create in Hrun.
  destruct (s3 w (trace st) s3_client create) as [e|resp] eqn:Hcreate;
    [discriminate|].
  destruct resp as [| |upload_id| | | | |]; try discriminate.
  set (st1 := log (EvS3 s3_client create
                     (inr (CreateMultipartUploadOutput upload_id))) st) in *.
  destruct (S3Client.copy_and_complete w s3_client source_bucket source_key
              dest_bucket dest_key object_size part_size upload_id st1)
    as [[r'|e] st3] eqn:Hrest.
  2:{ destruct (S3Client.abort_upload w s3_client dest_bucket dest_key
                  upload_id st3) as [[] ?]; discriminate. }
  inversion Hrun; subst r' st3. clear Hrun.
  unfold S3Client.copy_and_complete in Hrest.
  destruct (S3Client.num_parts object_size part_size) as [e|n];
    [discriminate|].
  unfold bind at 1 in Hrest.
  destruct (S3Client.copy_parts w s3_client source_bucket source_key
              dest_bucket dest_key object_size part_size upload_id
              (Py.range 1 (n + 1)) [] st1)
    as [[parts|e] st2] eqn:Hparts; [|discriminate].
  apply copy_parts_ok in Hparts as (new & Hnew & Hfst & Htags & Hreqs).
  simpl in Hnew. subst parts.
  rewrite run_s3_call in Hrest. fold (complete upload_id new) in Hrest.
  destruct (s3 w (trace st2) s3_client (complete upload_id new))
    as [e|r'] eqn:Hresp; inversion Hrest; subst.
  exists n, upload_id, new, st2. split; [reflexivity|].
  split; [reflexivity|]. split; [exact Hfst|].
  split; [|split; [|split; [exact Hresp|reflexivity]]].
  - rewrite trace_log, part_tags_snoc, Htags. subst st1.
    rewrite trace_log, part_tags_snoc. simpl. now rewrite !app_nil_r.
  - rewrite trace_log, s3_requests_snoc, Hreqs. subst st1.
    rewrite trace_log, s3_requests_snoc. rewrite <- !app_assoc. reflexivity.
Qed.

(** X10: the retry decoration of [multipart_copy] never fires on an S3
    failure.  The body does not turn a [ClientError] into a
    [RetryableError] (unlike [copy_object] and [head_object]), so as
    long as the S3 client itself raises no [RetryableError] the
    decorated function behaves exactly as one call of its body: one
    run, no sleep, and the error of that run raised as it is. *)
Theorem multipart_copy_runs_once (st : state) :
  (forall t c req e, s3 w t c req = inl e -> isinstance e RetryableError = false) ->
  chunked st = body st.
Proof.
  intros Hs3. unfold chunked, S3Client.multipart_copy, S3Client.retried.
  apply retry_noop; [lia|].
  apply raises_multipart_copy.
  - intros cls_ text Hr Hc. unfold isinstance_any. simpl.
    rewrite orb_false_r. destruct cls_; try reflexivity; contradiction.
  - intros t c req e He. unfold isinstance_any. simpl.
    rewrite orb_false_r. now apply (Hs3 t c req).
Qed.

End ChunkedRequests.

(** ** The outcome of the retrier is the outcome of a run of the operation *)

Section EndsInRun.
Context {A : Type}.
Variable w : World.
Variable max_attempts : Z.
Variables base_delay max_delay : Q.
Variable retryable_exceptions : list exn_class.
Variable func : M A.
Variable I : state -> Prop.

Hypothesis base_delay_nonneg : (0 <= base_delay)%Q.
Hypothesis max_delay_nonneg : (0 <= max_delay)%Q.
Hypothesis rng_unit : forall t, (0 <= rng w t <= 1)%Q.
Hypothesis I_log : forall st ev, I st -> I (log ev st).
Hypothesis I_failed :
  forall st e st', I st -> func st = (Raise e, st') -> I st'.
Hypothesis attempts_convert : max_attempts <= 1025.

(** With an attempt left, and every delay computed at an attempt below
    1024, what the loop returns or raises is what the operation did in
    its last run; an invariant that failed runs and the events of the
    loop keep holds before that run. *)
Lemma attempts_ends_in_run (m : nat) :
  forall (k : Z) (last : option exn) (st : state),
    I st ->
    k + Z.of_nat (S m) = max_attempts ->
    exists s_last,
      I s_last /\
      Retry.attempts w max_attempts base_delay max_delay retryable_exceptions
        func (Py.range k max_attempts) last st = func s_last.
Proof.
  induction m as [|m IH]; intros k last st HI Hk;
    rewrite range_cons by lia;
    destruct (func st) as [[v|e] st1] eqn:Hf.
  - exists st. split; [exact HI|]. rewrite Hf. now apply attempts_success.
  - exists st. split; [exact HI|]. rewrite Hf.
    replace k with (max_attempts - 1) by lia. now apply attempts_last.
  - exists st. split; [exact HI|]. rewrite Hf. now apply attempts_success.
  - destruct (isinstance_any e retryable_exceptions) eqn:He.
    2:{ exists st. split; [exact HI|]. rewrite Hf.
        now apply attempts_fail_fast. }
    rewrite (attempts_retry w max_attempts base_delay max_delay
               retryable_exceptions base_delay_nonneg max_delay_nonneg
               rng_unit _ _ _ _ _ _ _ Hf He) by lia.
    cbv zeta. apply IH; [|lia].
    apply I_log, I_log. now apply (I_failed st e).
Qed.

End EndsInRun.

(** ** Credentials: failures and the cache *)

Section CredentialFailures.
Variable w : World.
Variables role_arn session_name external_id : string.
Variable duration_seconds : Z.

Let acquire :=
  StsClient.assume_role w role_arn session_name external_id duration_seconds.
Let acquire_once :=
  StsClient.assume_role__wrapped__ w role_arn session_name external_id
    duration_seconds.
Let request :=
  {| RoleArn := role_arn;
     RoleSessionName := session_name;
     DurationSeconds := duration_seconds;
     ExternalId := if Py.truthy external_id then Some external_id else None |}.

Lemma stale_or_fresh (st : state) :
  stale w role_arn st \/
  exists entry,
    _credential_cache st !! role_arn = Some entry /\
    (clock w (trace st)
     < expiry entry - StsClient._CREDENTIAL_BUFFER_SECONDS)%Q.
Proof.
  unfold stale. destruct (_credential_cache st !! role_arn) as [entry|];
    [|now left].
  destruct (Qlt_le_dec (clock w (trace st))
              (expiry entry - StsClient._CREDENTIAL_BUFFER_SECONDS)) as [H|H].
  - right. now exists entry.
  - now left.
Qed.

Lemma cache_checked (st : state) :
  _credential_cache (checked w role_arn st) = _credential_cache st.
Proof. unfold checked. now destruct (_credential_cache st !! role_arn). Qed.

Lemma sts_requests_checked (st : state) :
  sts_requests (trace (checked w role_arn st)) = sts_requests (trace st).
Proof.
  unfold checked. destruct (_credential_cache st !! role_arn); [|reflexivity].
  rewrite trace_log, sts_requests_app. apply app_nil_r.
Qed.

Lemma sleeps_checked (st : state) :
  sleeps (trace (checked w role_arn st)) = sleeps (trace st).
Proof.
  unfold checked. destruct (_credential_cache st !! role_arn); [|reflexivity].
  now rewrite trace_log, sleeps_snoc.
Qed.

(** What one run of the body does to the cache. *)
Lemma acquire_once_cache (st : state) :
  match acquire_once st with
  | (Ok creds, st') =>
      (exists entry,
         _credential_cache st' !! role_arn = Some entry /\
         cached_credentials entry = creds) /\
      forall other,
        other <> role_arn ->
        _credential_cache st' !! other = _credential_cache st !! other
  | (Raise _, st') => _credential_cache st' = _credential_cache st
  end.
Proof.
  destruct (stale_or_fresh st) as [Hstale|(entry & Hslot & Hnow)].
  - unfold acquire_once. rewrite run_acquire_once_miss by exact Hstale.
    fold request.
    destruct (sts w (trace (checked w role_arn st)) request) as [e|raw].
    + simpl. apply cache_checked.
    + simpl. split.
      * eexists. split; [apply lookup_insert_eq|reflexivity].
      * intros other Hother. now apply lookup_insert_ne.
  - unfold acquire_once.
    rewrite (run_acquire_once_hit w role_arn session_name external_id
               duration_seconds st entry Hslot Hnow).
    simpl. split; [now exists entry|reflexivity].
Qed.

(** X11: what [assume_role] does to the credential cache, whatever STS
    answers and however often the call is retried ([random()] in the
    unit interval): the slots of all other roles are left as they were;
    when it raises, the whole cache is as it was; and when it returns
    credentials, the slot of the role holds exactly those. *)
Theorem assume_role_cache (st : state) :
  (forall t, (0 <= rng w t <= 1)%Q) ->
  (forall other,
     other <> role_arn ->
     _credential_cache (snd (acquire st)) !! other
     = _credential_cache st !! other) /\
  (forall e,
     fst (acquire st) = Raise e ->
     _credential_cache (snd (acquire st)) = _credential_cache st) /\
  (forall creds,
     fst (acquire st) = Ok creds ->
     exists entry,
       _credential_cache (snd (acquire st)) !! role_arn = Some entry /\
       cached_credentials entry = creds).
Proof.
  intros Hrng.
  destruct (attempts_ends_in_run w 3 1 10 [RetryableError] acquire_once
              (fun s => _credential_cache s = _credential_cache st))
    with (m := 2%nat) (k := 0) (last := @None exn) (st := st)
    as (s_last & Hcache & Hrun); try easy.
  { intros s e s' Hs Hf. pose proof (acquire_once_cache s) as H.
    rewrite Hf in H. congruence. }
  unfold acquire, StsClient.assume_role,
    Retry.exponential_backoff_with_jitter, Retry.wrapper.
  fold acquire_once. rewrite Hrun.
  pose proof (acquire_once_cache s_last) as H.
  destruct (acquire_once s_last) as [[creds|e] st']; cbn [fst snd].
  - destruct H as [Hslot Hothers]. split; [|split].
    + intros other Hother. rewrite Hothers by exact Hother. now rewrite Hcache.
    + discriminate.
    + intros creds' [= <-]. exact Hslot.
  - split; [|split].
    + intros other _. now rewrite H, Hcache.
    + intros _ _. now rewrite H.
    + discriminate.
Qed.

(** X12: a denial by STS ends the acquisition at once.  When no usable
    credential is cached and STS answers the role-assumption call with a
    [ClientError] whose code is [AccessDenied] or
    [AccessDeniedException], [assume_role] raises the
    [AccessDeniedError] made from it after that single call, without a
    sleep, and leaves the cache as it was. *)
Theorem assume_role_denied (st : state) (e : exn) :
  stale w role_arn st ->
  sts w (trace (checked w role_arn st)) request = inl e ->
  isinstance e ClientError = true ->
  error_code e ∈ ["AccessDenied"; "AccessDeniedException"] ->
  exists st',
    acquire st = (Raise (StsClient.classify_sts_error role_arn e), st') /\
    cls (StsClient.classify_sts_error role_arn e) = AccessDeniedError /\
    sts_requests (trace st') = sts_requests (trace st) ++ [request] /\
    sleeps (trace st') = sleeps (trace st) /\
    _credential_cache st' = _credential_cache st.
Proof.
  intros Hstale Hresp Hclient Hcode.
  assert (Hcls : cls (StsClient.classify_sts_error role_arn e)
                 = AccessDeniedError).
  { unfold StsClient.classify_sts_error.
    now rewrite bool_decide_eq_true_2 by exact Hcode. }
  eexists. split; [|split; [exact Hcls|]].
  - unfold acquire, StsClient.assume_role,
      Retry.exponential_backoff_with_jitter, Retry.wrapper.
    rewrite range_cons by lia. apply attempts_fail_fast.
    + fold acquire_once. unfold acquire_once.
      rewrite run_acquire_once_miss by exact Hstale. fold request.
      rewrite Hresp, Hclient. reflexivity.
    + unfold isinstance_any, isinstance. simpl. now rewrite Hcls.
  - rewrite trace_log, sts_requests_app, sts_requests_checked, sleeps_snoc
      by reflexivity.
    split; [reflexivity|]. split; [apply sleeps_checked|apply cache_checked].
Qed.

(** X13: when the cache never holds a usable credential for the role
    (no slot, or one that is within the buffer of its expiry at every
    reading of the clock) and STS answers every role-assumption call
    with a [ClientError] that is no denial, [assume_role] makes exactly
    three calls, sleeps exactly twice, raises the [RetryableError] made
    from the last answer, and leaves the cache as it was. *)
Theorem assume_role_exhausts (st : state) :
  (forall t, (0 <= rng w t <= 1)%Q) ->
  (forall entry t,
     _credential_cache st !! role_arn = Some entry ->
     (expiry entry - StsClient._CREDENTIAL_BUFFER_SECONDS <= clock w t)%Q) ->
  (forall t, exists e,
     sts w t request = inl e /\
     isinstance e ClientError = true /\
     error_code e ∉ ["AccessDenied"; "AccessDeniedException"]) ->
  exists e st' ds,
    acquire st = (Raise (StsClient.classify_sts_error role_arn e), st') /\
    cls (StsClient.classify_sts_error role_arn e) = RetryableError /\
    sts_requests (trace st') = sts_requests (trace st) ++ replicate 3 request /\
    sleeps (trace st') = sleeps (trace st) ++ ds /\
    length ds = 2%nat /\
    _credential_cache st' = _credential_cache st.
Proof.
  intros Hrng Hexpired Hsts.
  assert (Hother : forall e,
    error_code e ∉ ["AccessDenied"; "AccessDeniedException"] ->
    cls (StsClient.classify_sts_error role_arn e) = RetryableError).
  { intros e Hcode. unfold StsClient.classify_sts_error.
    now rewrite bool_decide_eq_false_2 by exact Hcode. }
  assert (Hstale : forall s,
    _credential_cache s = _credential_cache st -> stale w role_arn s).
  { intros s Hs. unfold stale. rewrite Hs.
    destruct (_credential_cache st !! role_arn) as [entry|] eqn:Hslot;
      [|exact I].
    now apply Hexpired. }
  destruct (attempts_exhaust_view sts_request_of w 3 1 10 [RetryableError]
              acquire_once request
              (fun s => _credential_cache s = _credential_cache st))
    with (m := 2%nat) (k := 0) (last := @None exn) (st := st)
    as (e' & s_last & st' & ds & Hrun & Hlast_cache & Hlast & Hcache & Hview
        & Hsleeps & Hlen); try easy.
  - intros s Hs.
    destruct (Hsts (trace (checked w role_arn s))) as (e & Hresp & Hclient & Hcode).
    eexists _, _. unfold acquire_once.
    rewrite run_acquire_once_miss by (now apply Hstale). fold request.
    rewrite Hresp, Hclient. split; [reflexivity|].
    split; [|split; [|split]].
    + unfold isinstance_any, isinstance. simpl. now rewrite (Hother e Hcode).
    + simpl. now rewrite cache_checked.
    + rewrite trace_log. fold (sts_requests (trace (checked w role_arn s) ++
        [EvSts request (inl e)])).
      now rewrite sts_requests_app, sts_requests_checked.
    + now rewrite trace_log, sleeps_snoc, sleeps_checked.
  - destruct (Hsts (trace (checked w role_arn s_last)))
      as (e & Hresp & Hclient & Hcode).
    unfold acquire_once in Hlast.
    rewrite run_acquire_once_miss in Hlast by (now apply Hstale).
    fold request in Hlast. rewrite Hresp, Hclient in Hlast.
    inversion Hlast; subst e'.
    exists e, st', ds. split; [exact Hrun|]. split; [now apply Hother|].
    now repeat split.
Qed.

(** X14: clearing the cache forces a fresh acquisition.  Whatever the
    cache held, [clear_credential_cache] followed by [assume_role]
    starts with a role-assumption call to STS, and the clearing itself
    adds nothing to the trace. *)
Theorem clear_then_assume_role (st : state) :
  _credential_cache (snd (StsClient.clear_credential_cache st)) = ∅ /\
  trace (snd (StsClient.clear_credential_cache st)) = trace st /\
  exists more,
    sts_requests
      (trace (snd ((StsClient.clear_credential_cache ;; acquire) st)))
    = sts_requests (trace st) ++ request :: more.
Proof.
  split; [reflexivity|]. split; [reflexivity|].
  unfold bind. simpl.
  apply (acquire_miss_calls w role_arn session_name external_id
           duration_seconds {| trace := trace st; _credential_cache := ∅ |}).
  unfold stale. simpl. now rewrite lookup_empty.
Qed.

End CredentialFailures.


(** ** The handlers when a step before the work fails *)

Lemma only_nothing_s3 {A} (c : M A) (st : state) :
  only (s3_only (fun _ => False)) c ->
  s3_requests (trace (snd (c st))) = s3_requests (trace st).
Proof.
  intros Hc. destruct (Hc st) as (d & Hd & Hno).
  now rewrite Hd, s3_requests_app, (no_s3_requests d Hno), app_nil_r.
Qed.

Lemma assume_role_no_s3 (w : World) (role_arn session_name external_id : string)
    (duration_seconds : Z) (st : state) :
  s3_requests
    (trace (snd (StsClient.assume_role w role_arn session_name external_id
                   duration_seconds st)))
  = s3_requests (trace st).
Proof.
  apply only_nothing_s3. apply only_assume_role; intros; intros ? H;
    discriminate.
Qed.

(** X15: a transfer whose credentials cannot be acquired copies
    nothing.  When [assume_role] for the destination role raises, the
    transfer handler raises that same exception and no S3 request has
    been made. *)
Theorem transfer_without_credentials (w : World)
    (event : TransferObject.event_t) (st st1 : state) (e : exn) :
  StsClient.assume_role w (destination_role_arn (from_env w))
    ("Transfer-"
       +:+ Py.slice_to 8
             (default "unknown" (TransferObject.ev_execution_id event)))
    (external_id (from_env w)) 3600 st = (Raise e, st1) ->
  TransferObject.handler w event st = (Raise e, st1) /\
  s3_requests (trace st1) = s3_requests (trace st).
Proof.
  intros Hrole. split.
  - unfold TransferObject.handler. unfold bind at 1. now rewrite Hrole.
  - pose proof (assume_role_no_s3 w (destination_role_arn (from_env w))
                  ("Transfer-"
                     +:+ Py.slice_to 8
                           (default "unknown"
                              (TransferObject.ev_execution_id event)))
                  (external_id (from_env w)) 3600 st) as H.
    now rewrite Hrole in H.
Qed.

Section ValidationFailures.
Variable w : World.
Variable request : ValidateTransfer.event_t.

Let config := from_env w.
Let manifest_bucket := ValidateTransfer.ev_manifest_bucket request.
Let manifest_key := ValidateTransfer.ev_manifest_key request.
Let hub_s3 :=
  {| service_name := "s3"; client_credentials := None; region_name := None |}.
Let read := GetObject manifest_bucket manifest_key.
Let dest_prefix :=
  default (destination_prefix config)
    (ValidateTransfer.ev_destination_prefix request).
Let dest_bucket :=
  default (destination_bucket config)
    (ValidateTransfer.ev_destination_bucket request).
Let listing :=
  ListObjectsV2 dest_bucket
    (if Py.truthy dest_prefix then Some dest_prefix else None).

(** X16: a manifest that cannot be read ends the validation at once.
    When the [GetObject] for the manifest fails, or its body does not
    parse, the handler raises a [NonRetryableError] (whatever the class
    of the failure, a throttling included); that one request, made with
    the function's own credentials, is all that happened: no role was
    assumed, nothing was listed, probed or sampled. *)
Theorem unreadable_manifest_is_fatal (st : state) :
  (forall body manifest,
     s3 w (trace st) hub_s3 read = inr (GetObjectOutput body) ->
     json_loads w body <> inr manifest) ->
  exists e,
    ValidateTransfer.handler w request st
    = (Raise e, log (EvS3 hub_s3 read (s3 w (trace st) hub_s3 read)) st) /\
    cls e = NonRetryableError /\
    details e = NoDetails.
Proof.
  intros Hbad.
  assert (Hread : exists e,
    ValidateTransfer.read_manifest w hub_s3 manifest_bucket manifest_key st
    = (Raise e, log (EvS3 hub_s3 read (s3 w (trace st) hub_s3 read)) st) /\
    cls e = NonRetryableError /\ details e = NoDetails).
  { unfold ValidateTransfer.read_manifest, try_except. unfold bind at 1.
    rewrite run_s3_call. fold read.
    destruct (s3 w (trace st) hub_s3 read) as [e|resp] eqn:Hresp.
    - eexists. split; [reflexivity|]. split; reflexivity.
    - destruct resp; try (eexists; split; [reflexivity|]; split; reflexivity).
      destruct (json_loads w Body) as [e|manifest] eqn:Hjson.
      + eexists. split; [reflexivity|]. split; reflexivity.
      + now elim (Hbad Body manifest). }
  destruct Hread as (e & Hread & Hcls & Hdetails). exists e.
  split; [|split; assumption].
  unfold ValidateTransfer.handler. unfold bind at 1.
  fold manifest_bucket manifest_key hub_s3. now rewrite Hread.
Qed.

(** X17: a destination listing that fails is fatal too, and is not
    retried.  When the manifest was read and the role assumed, and the
    listing fails, at its first page or after some pages were counted,
    the handler raises a [NonRetryableError] carrying the text of that
    failure, right after the one listing request: no object is sampled
    and none is probed. *)
Theorem failed_listing_is_fatal (st st1 st2 : state) (manifest : manifest_t)
    (creds : credentials) (e : exn) :
  let dest_s3 := StsClient.get_boto3_client "s3" creds "" in
  let answer := s3 w (trace st2) dest_s3 listing in
  ValidateTransfer.read_manifest w hub_s3 manifest_bucket manifest_key st
  = (Ok manifest, st1) ->
  StsClient.assume_role w (destination_role_arn config)
    ("Validate-"
       +:+ Py.slice_to 8
             (default "unknown" (ValidateTransfer.ev_execution_id request)))
    (external_id config) 3600 st1 = (Ok creds, st2) ->
  (answer = inl e \/
   exists key_counts, answer = inr (ListObjectsV2Pages key_counts (Some e))) ->
  ValidateTransfer.handler w request st
  = (Raise (mk_exn NonRetryableError
              ("Failed to list destination objects: " +:+ message e)
              NoDetails),
     log (EvS3 dest_s3 listing answer) st2).
Proof.
  intros dest_s3 answer Hread Hrole Hanswer.
  unfold ValidateTransfer.handler. unfold bind at 1.
  fold config manifest_bucket manifest_key hub_s3. rewrite Hread.
  unfold bind at 1. rewrite Hrole. unfold bind at 1.
  fold dest_s3 dest_prefix dest_bucket.
  unfold ValidateTransfer.count_destination, try_except. unfold bind at 1.
  rewrite run_s3_call. fold listing answer.
  destruct Hanswer as [->|[key_counts ->]]; reflexivity.
Qed.

End ValidationFailures.

(** ** What the failure records say *)

Section FailureRecords.
Variable w : World.
Variable dest_s3 : client.
Variables dest_bucket source_prefix dest_prefix : string.

Lemma check_sample_record (obj : inventory_entry) (acc : list failure * Z)
    (st : state) :
  exists acc' st',
    ValidateTransfer.check_sample w dest_s3 dest_bucket source_prefix
      dest_prefix obj acc st = (Ok acc', st') /\
    ((fst acc' = fst acc /\ snd acc' = snd acc + 1) \/
     (exists record,
        fst acc' = fst acc ++ [record] /\ snd acc' = snd acc /\
        describes source_prefix dest_prefix obj record)).
Proof.
  unfold ValidateTransfer.check_sample, try_except, bind.
  destruct (S3Client.head_object w dest_s3 dest_bucket _ st)
    as [[dest_meta|e] st1].
  - destruct (S3Client.ContentLength dest_meta =? Size obj) eqn:Hsize;
      eexists _, _; (split; [reflexivity|]); simpl; [now left|].
    right. eexists. split; [reflexivity|]. split; [reflexivity|].
    unfold describes. simpl. apply Z.eqb_neq in Hsize. easy.
  - eexists _, _. split; [reflexivity|]. simpl. right. eexists.
    split; [reflexivity|]. split; [reflexivity|].
    unfold describes. simpl. split; [reflexivity|]. split; [reflexivity|].
    now exists e.
Qed.

(** The records the loop adds are made for distinct sampled entries, in
    the order of the sample. *)
Lemma check_samples_records (samples : list inventory_entry) :
  forall (acc : list failure * Z) (st : state),
    exists failed new passed st',
      ValidateTransfer.check_samples w dest_s3 dest_bucket source_prefix
        dest_prefix samples acc st = (Ok (fst acc ++ new, passed), st') /\
      sublist failed samples /\
      Forall2 (describes source_prefix dest_prefix) failed new /\
      passed = snd acc + Z.of_nat (length samples) - Z.of_nat (length failed).
Proof.
  induction samples as [|obj rest IH]; intros acc st.
  - exists [], [], (snd acc), st. simpl. rewrite app_nil_r.
    split; [now destruct acc|]. split; [constructor|].
    split; [constructor|lia].
  - destruct (check_sample_record obj acc st)
      as (acc1 & st1 & Hrun1 & [[Hf Hp]|(record & Hf & Hp & Hrecord)]);
      destruct (IH acc1 st1) as (failed & new & passed & st' & Hrun & Hsub
                                 & Hall & Hpassed).
    + exists failed, new, passed, st'. split; [|split; [|split]].
      * simpl. unfold bind at 1. rewrite Hrun1, Hrun. now rewrite Hf.
      * now apply sublist_cons.
      * exact Hall.
      * rewrite Hpassed, Hp. simpl length. lia.
    + exists (obj :: failed), (record :: new), passed, st'.
      split; [|split; [|split]].
      * simpl. unfold bind at 1. rewrite Hrun1, Hrun, Hf.
        now rewrite <- app_assoc.
      * now apply sublist_skip.
      * now constructor.
      * rewrite Hpassed, Hp. simpl length. lia.
Qed.

End FailureRecords.

(** X18: in a validation run whose manifest read, credential
    acquisition and destination listing succeed (non-negative sample
    size, a [random.sample] that returns as many entries as asked),
    the failure records of the result, returned or attached to the
    [ValidationError], describe distinct sampled entries, in the order
    they were drawn: each record carries the destination key derived
    from its entry's source key and the size the inventory lists, and
    either the differing size found at the destination with reason
    [size_mismatch], or no size and the reason [head_object_failed: ]
    followed by the text of the error.  The entries without a record
    are those counted in [samples_passed]. *)
Theorem failure_records_describe_samples (w : World)
    (request : ValidateTransfer.event_t) (st : state) (manifest : manifest_t)
    (st1 : state) (creds : credentials) (st2 : state) (dest_count : Z)
    (st3 : state) :
  let config := from_env w in
  let dest_prefix :=
    default (destination_prefix config)
      (ValidateTransfer.ev_destination_prefix request) in
  let dest_bucket :=
    default (destination_bucket config)
      (ValidateTransfer.ev_destination_bucket request) in
  let source_prefix :=
    default (source_prefix config) (manifest_source_prefix manifest) in
  let run := ValidateTransfer.handler w request st in
  ValidateTransfer.read_manifest w
    {| service_name := "s3"; client_credentials := None; region_name := None |}
    (ValidateTransfer.ev_manifest_bucket request)
    (ValidateTransfer.ev_manifest_key request) st = (Ok manifest, st1) ->
  StsClient.assume_role w (destination_role_arn config)
    ("Validate-"
       +:+ Py.slice_to 8
             (default "unknown" (ValidateTransfer.ev_execution_id request)))
    (external_id config) 3600 st1 = (Ok creds, st2) ->
  ValidateTransfer.count_destination w
    (StsClient.get_boto3_client "s3" creds "") dest_bucket dest_prefix st2
  = (Ok dest_count, st3) ->
  0 <= validation_sample_size config ->
  (forall t population k,
     (k <= length population)%nat -> length (sampler w t population k) = k) ->
  exists r samples failed,
    produced (fst run) = Some r /\
    sampled (trace (snd run)) = sampled (trace st) ++ samples /\
    sublist failed samples /\
    Forall2 (describes source_prefix dest_prefix) failed (failures r) /\
    samples_passed r
    = Z.of_nat (length samples) - Z.of_nat (length failed).
Proof.
  intros config dest_prefix dest_bucket source_prefix run Hm Hr Hc Hn Hs.
  destruct (validation_run w request st manifest st1 creds st2 dest_count st3
              Hm Hr Hc Hn Hs)
    as (samples & st4 & checked & st5 & _ & _ & Hsampled & Hcheck & Hrun).
  fold run in Hrun.
  match type of Hrun with
  | context [Ok ?res] => set (r := res) in *
  end.
  match type of Hcheck with
  | ValidateTransfer.check_samples w ?c ?b ?sp ?dp _ _ _ = _ =>
      destruct (check_samples_records w c b sp dp samples ([], 0) st4)
        as (failed & new & passed & st' & Hcheck' & Hsub & Hall & Hpassed)
  end.
  rewrite Hcheck in Hcheck'. inversion Hcheck'; subst checked st'.
  exists r, samples, failed.
  split; [rewrite Hrun; now destruct (status r)|].
  split; [rewrite Hrun; exact Hsampled|].
  split; [exact Hsub|]. split; [exact Hall|].
  simpl in *. lia.
Qed.

(** ** The exception classes *)

(** X19: no exception is both retryable and non-retryable: an
    instance of [RetryableError] is of that very class, which has no
    subclass; and the four specific transfer errors (access denied,
    object too large, manifest, validation) are all instances of
    [NonRetryableError] and of [TransferError].  So the retriers of
    this code, which retry on [RetryableError] only, retry none of
    them. *)
Theorem retryable_excludes_the_rest (e : exn) :
  (isinstance e RetryableError = true ->
   isinstance e NonRetryableError = false /\ cls e = RetryableError) /\
  (cls e ∈ [AccessDeniedError; ObjectTooLargeError; ManifestError;
            ValidationError] ->
   isinstance e NonRetryableError = true /\
   isinstance e TransferError = true /\
   isinstance_any e [RetryableError] = false).
Proof.
  split.
  - unfold isinstance. destruct (cls e); try discriminate. now split.
  - unfold isinstance_any, isinstance. intros H.
    repeat (apply elem_of_cons in H as [->|H]; [now repeat split|]).
    inversion H.
Qed.

(** ** Settings that are read and never used *)

(** X20: the three retry settings of the configuration
    ([max_retry_attempts], [retry_base_delay], [retry_max_delay]) reach
    no retrier: the attempts and delays are fixed where the functions
    are decorated.  Whatever values the environment gives the three,
    the transfer handler and the validation handler do the same, step
    for step. *)
Theorem retry_settings_unused (w : World) (attempts : Z)
    (base_delay max_delay : Q) (st : state) :
  let w' :=
    with_config w
      (with_retry_settings (from_env w) attempts base_delay max_delay) in
  (forall event,
     TransferObject.handler w' event st = TransferObject.handler w event st) /\
  (forall event,
     ValidateTransfer.handler w' event st
     = ValidateTransfer.handler w event st).
Proof. destruct w. split; reflexivity. Qed.

(** ** The inventory and its manifest *)

Lemma slice_to_length (n : nat) (s : string) :
  (String.length (Py.slice_to n s) <= n)%nat.
Proof.
  revert s. induction n as [|n IH]; intros s; simpl; [lia|].
  destruct s as [|c s]; simpl; [lia|]. specialize (IH s). lia.
Qed.

Lemma fold_add_object (objects : list Hub.listed_object) :
  forall acc,
    fold_left ListObjects.add_object objects acc
    = (fst acc ++ map inventory_item objects,
       snd acc + total_size objects).
Proof.
  induction objects as [|obj rest IH]; intros [items total]; simpl.
  - now rewrite app_nil_r, Z.add_0_r.
  - rewrite IH. simpl. rewrite <- app_assoc. simpl.
    unfold total_size. simpl. f_equal. lia.
Qed.

Lemma total_size_app (l1 l2 : list Hub.listed_object) :
  total_size (l1 ++ l2) = total_size l1 + total_size l2.
Proof.
  unfold total_size. induction l1 as [|obj l1 IH]; simpl; [reflexivity|].
  rewrite IH. lia.
Qed.

Lemma fold_add_page (pages : list (option (list Hub.listed_object))) :
  forall acc,
    fold_left ListObjects.add_page pages acc
    = (fst acc ++ map inventory_item (flat_map (default []) pages),
       snd acc + total_size (flat_map (default []) pages)).
Proof.
  induction pages as [|page rest IH]; intros [items total]; simpl.
  - now rewrite app_nil_r, Z.add_0_r.
  - rewrite IH. unfold ListObjects.add_page. rewrite fold_add_object. simpl.
    rewrite map_app, total_size_app, <- app_assoc. f_equal. lia.
Qed.

Section Inventory.
Variable h : Hub.HubWorld.
Variable event : ListObjects.event_t.

Let config := from_env (Hub.base h).
Let prefix := default (source_prefix config) (ListObjects.ev_source_prefix event).
Let execution_id := default (Hub.uuid4 h) (ListObjects.ev_execution_id event).
Let manifest_key := "manifests/" +:+ execution_id +:+ "/manifest.json".
Let acquire :=
  StsClient.assume_role (Hub.base h) (source_role_arn config)
    ("ListObjects-" +:+ Py.slice_to 8 execution_id) (external_id config) 3600.
Let listed (source_s3 : client) (listing : Hub.listing_t) : Hub.hub_event :=
  Hub.EvList source_s3 (source_bucket config)
    (if Py.truthy prefix then Some prefix else None) listing.
Let written (manifest : Hub.manifest_doc) (failure_ : option exn)
    : Hub.hub_event :=
  Hub.EvPut Hub.hub_s3 (manifest_bucket config) manifest_key
    (Hub.ManifestBody manifest) "application/json" "aws:kms" failure_.
Let manifest_of (listing : Hub.listing_t) (stamp : string) : Hub.manifest_doc :=
  {| Hub.md_execution_id := execution_id;
     Hub.md_timestamp := stamp;
     Hub.md_source_bucket := source_bucket config;
     Hub.md_source_prefix := prefix;
     Hub.md_destination_bucket := destination_bucket config;
     Hub.md_destination_prefix := destination_prefix config;
     Hub.md_total_objects := Z.of_nat (length (map inventory_item (contents listing)));
     Hub.md_total_size_bytes := total_size (contents listing);
     Hub.md_objects := map inventory_item (contents listing) |}.
Let receipt_of (listing : Hub.listing_t) : ListObjects.receipt :=
  {| ListObjects.rc_manifest_bucket := manifest_bucket config;
     ListObjects.rc_manifest_key := manifest_key;
     ListObjects.rc_total_objects :=
       Z.of_nat (length (map inventory_item (contents listing)));
     ListObjects.rc_total_size_bytes := total_size (contents listing);
     ListObjects.rc_execution_id := execution_id;
     ListObjects.rc_source_bucket := source_bucket config;
     ListObjects.rc_source_prefix := prefix;
     ListObjects.rc_destination_bucket := destination_bucket config;
     ListObjects.rc_destination_prefix := destination_prefix config |}.

(** The handler, step by step. *)
Lemma run_inventory (st : Hub.hub_state) :
  ListObjects.handler h event st
  = match acquire (Hub.inner st) with
    | (Raise e, inner1) =>
        (Raise e, {| Hub.inner := inner1; Hub.hub_log := Hub.hub_log st |})
    | (Ok credentials, inner1) =>
        let source_s3 := StsClient.get_boto3_client "s3" credentials "" in
        let st1 := {| Hub.inner := inner1; Hub.hub_log := Hub.hub_log st |} in
        let listing :=
          Hub.list_objects_v2 h (trace inner1) (Hub.hub_log st) source_s3
            (source_bucket config)
            (if Py.truthy prefix then Some prefix else None) in
        let st2 := Hub.hlog (listed source_s3 listing) st1 in
        match snd listing with
        | Some e =>
            (Raise (if isinstance e ClientError
                    then mk_exn NonRetryableError
                           ("Failed to list objects in s3://"
                              +:+ source_bucket config +:+ "/" +:+ prefix
                              +:+ ": " +:+ message e) NoDetails
                    else e), st2)
        | None =>
            let stamp := Hub.utcnow h (Hub.hub_log st2) in
            let st3 := Hub.hlog (Hub.EvNow stamp) st2 in
            let manifest := manifest_of listing stamp in
            match Hub.put_object h (Hub.hub_log st3) Hub.hub_s3
                    (manifest_bucket config) manifest_key
                    (Hub.ManifestBody manifest) with
            | Some e =>
                (Raise (if isinstance e ClientError
                        then mk_exn ManifestError
                               ("Failed to write manifest to s3://"
                                  +:+ manifest_bucket config +:+ "/"
                                  +:+ manifest_key +:+ ": " +:+ message e)
                               NoDetails
                        else e),
                 Hub.hlog (written manifest (Some e)) st3)
            | None =>
                (Ok (receipt_of listing),
                 Hub.hlog (written manifest None) st3)
            end
        end
    end.
Proof.
  unfold ListObjects.handler. fold config prefix execution_id acquire.
  unfold Hub.hbind at 1. unfold Hub.lift.
  destruct (acquire (Hub.inner st)) as [[credentials|e] inner1];
    [|reflexivity].
  cbv zeta. unfold Hub.hbind at 1.
  unfold ListObjects.list_source, Hub.htry. unfold Hub.hbind at 1.
  unfold Hub.paginate. cbv zeta. cbn [Hub.inner Hub.hub_log].
  match goal with
  | |- context [Hub.list_objects_v2 h ?t ?l ?c ?b ?p] =>
      set (listing := Hub.list_objects_v2 h t l c b p)
  end.
  destruct listing as [pages [e|]] eqn:Hlisting; cbn [fst snd].
  - unfold Hub.hraise. now destruct (isinstance e ClientError).
  - unfold Hub.hret at 1. unfold Hub.hbind at 1. unfold Hub.now_isoformat.
    cbv zeta. unfold Hub.hbind at 1.
    unfold ListObjects.write_manifest, Hub.htry, Hub.put_json. cbv zeta.
    rewrite fold_add_page. cbn [fst snd]. rewrite Z.add_0_l, app_nil_l.
    fold manifest_key.
    change (flat_map (default []) pages) with (contents (pages, @None exn)).
    fold (manifest_of (pages, None) (Hub.utcnow h
            (Hub.hub_log
               (Hub.hlog
                  (Hub.EvList (StsClient.get_boto3_client "s3" credentials "")
                     (source_bucket config)
                     (if Py.truthy prefix then Some prefix else None)
                     (pages, None))
                  {| Hub.inner := inner1; Hub.hub_log := Hub.hub_log st |})))).
    destruct (Hub.put_object h _ Hub.hub_s3 (manifest_bucket config)
                manifest_key _) as [e|].
    + now destruct (isinstance e ClientError).
    + reflexivity.
Qed.

(** X21: an inventory run that returns has listed the source once, with
    the credentials of the source role, and then written one manifest,
    encrypted, under [manifests/<execution id>/manifest.json] in the
    manifest bucket, which is the location the receipt names.  That
    manifest holds one entry for each object of each page, in the order
    listed, carrying its key, size and tag; its object count is the
    number of entries and its total size the sum of their sizes, and
    the receipt reports the same two totals. *)
Theorem inventory_manifest (st st' : Hub.hub_state) (r : ListObjects.receipt) :
  ListObjects.handler h event st = (Ok r, st') ->
  exists credentials listing stamp manifest,
    acquire (Hub.inner st) = (Ok credentials, Hub.inner st') /\
    Hub.hub_log st'
    = Hub.hub_log st
      ++ [listed (StsClient.get_boto3_client "s3" credentials "") listing;
          Hub.EvNow stamp;
          written manifest None] /\
    snd listing = None /\
    Hub.md_objects manifest = map inventory_item (contents listing) /\
    Hub.md_total_objects manifest
    = Z.of_nat (length (Hub.md_objects manifest)) /\
    Hub.md_total_size_bytes manifest
    = foldr Z.add 0 (map Size (Hub.md_objects manifest)) /\
    ListObjects.rc_total_objects r = Hub.md_total_objects manifest /\
    ListObjects.rc_total_size_bytes r = Hub.md_total_size_bytes manifest /\
    ListObjects.rc_manifest_bucket r = manifest_bucket config /\
    ListObjects.rc_manifest_key r
    = "manifests/" +:+ ListObjects.rc_execution_id r +:+ "/manifest.json" /\
    ListObjects.rc_manifest_key r = manifest_key.
Proof.
  rewrite run_inventory.
  destruct (acquire (Hub.inner st)) as [[credentials|e] inner1];
    [|discriminate].
  cbv zeta.
  match goal with
  | |- context [Hub.list_objects_v2 h ?t ?l ?c ?b ?p] =>
      set (listing := Hub.list_objects_v2 h t l c b p)
  end.
  destruct (snd listing) as [e|] eqn:Hfailure; [discriminate|].
  match goal with
  | |- context [Hub.utcnow h ?l] => set (stamp := Hub.utcnow h l)
  end.
  destruct (Hub.put_object h _ Hub.hub_s3 _ _ _) as [e|]; [discriminate|].
  intros [= <- <-].
  exists credentials, listing, stamp, (manifest_of listing stamp).
  split; [reflexivity|].
  split; [|repeat apply conj; try reflexivity; try exact Hfailure].
  - simpl. now rewrite <- !app_assoc.
  - simpl. unfold total_size. now rewrite map_map.
Qed.

(** X22: an inventory run that raises has written no manifest.  Either
    the credentials could not be acquired, and nothing was listed or
    written; or the one listing failed, and nothing was written: a
    [ClientError] of the listing is raised as a [NonRetryableError],
    any other exception as it is; or the one write of the manifest was
    refused: a [ClientError] of the write is raised as a
    [ManifestError], any other exception as it is.  No listing and no
    write is ever repeated. *)
Theorem inventory_failure (st st' : Hub.hub_state) (e : exn) :
  ListObjects.handler h event st = (Raise e, st') ->
  (Hub.hub_log st' = Hub.hub_log st /\
   acquire (Hub.inner st) = (Raise e, Hub.inner st')) \/
  (exists credentials listing e0,
     acquire (Hub.inner st) = (Ok credentials, Hub.inner st') /\
     Hub.hub_log st'
     = Hub.hub_log st
       ++ [listed (StsClient.get_boto3_client "s3" credentials "") listing] /\
     snd listing = Some e0 /\
     (isinstance e0 ClientError = true -> cls e = NonRetryableError) /\
     (isinstance e0 ClientError = false -> e = e0)) \/
  (exists credentials listing stamp manifest e0,
     acquire (Hub.inner st) = (Ok credentials, Hub.inner st') /\
     Hub.hub_log st'
     = Hub.hub_log st
       ++ [listed (StsClient.get_boto3_client "s3" credentials "") listing;
           Hub.EvNow stamp;
           written manifest (Some e0)] /\
     snd listing = None /\
     (isinstance e0 ClientError = true -> cls e = ManifestError) /\
     (isinstance e0 ClientError = false -> e = e0)).
Proof.
  rewrite run_inventory.
  destruct (acquire (Hub.inner st)) as [[credentials|e1] inner1].
  2:{ intros [= <- <-]. left. now split. }
  cbv zeta.
  match goal with
  | |- context [Hub.list_objects_v2 h ?t ?l ?c ?b ?p] =>
      set (listing := Hub.list_objects_v2 h t l c b p)
  end.
  destruct (snd listing) as [e0|] eqn:Hfailure.
  { intros [= <- <-]. right. left. exists credentials, listing, e0.
    split; [reflexivity|]. split; [reflexivity|]. split; [exact Hfailure|].
    destruct (isinstance e0 ClientError); split; easy. }
  match goal with
  | |- context [Hub.utcnow h ?l] => set (stamp := Hub.utcnow h l)
  end.
  destruct (Hub.put_object h _ Hub.hub_s3 _ _ _) as [e0|]; [|discriminate].
  intros [= <- <-]. right. right.
  exists credentials, listing, stamp, (manifest_of listing stamp), e0.
  split; [reflexivity|].
  split; [simpl; now rewrite <- !app_assoc|]. split; [exact Hfailure|].
  destruct (isinstance e0 ClientError); split; easy.
Qed.

End Inventory.

(** ** The report and its notification *)

Section Report.
Variable h : Hub.HubWorld.
Variable event : GenerateReport.event_t.

Let config := from_env (Hub.base h).
Let execution_id := default "unknown" (GenerateReport.ev_execution_id event).
Let transfer_status :=
  default "UNKNOWN"
    (default ∅ (GenerateReport.ev_validation event) !! "status").
Let report_key := "reports/" +:+ execution_id +:+ "/report.json".
Let written (report : Hub.report_doc) (failure_ : option exn) : Hub.hub_event :=
  Hub.EvPut Hub.hub_s3 (manifest_bucket config) report_key
    (Hub.ReportBody report) "application/json" "aws:kms" failure_.

(** X23: a report that cannot be written fails the run, and nobody is
    notified.  When the write of the report raises, whatever the
    exception, the handler raises a [NonRetryableError] carrying its
    text; the write was attempted once and nothing was published. *)
Theorem unwritten_report_is_fatal (st st' : Hub.hub_state) (e : exn) :
  GenerateReport.handler h event st = (Raise e, st') ->
  exists stamp report e0,
    Hub.hub_log st'
    = Hub.hub_log st ++ [Hub.EvNow stamp; written report (Some e0)] /\
    e = mk_exn NonRetryableError
          ("Failed to write report to s3://" +:+ manifest_bucket config
             +:+ "/" +:+ report_key +:+ ": " +:+ message e0) NoDetails /\
    Hub.inner st' = Hub.inner st.
Proof.
  unfold GenerateReport.handler. fold config execution_id transfer_status.
  unfold Hub.hbind at 1. unfold Hub.now_isoformat. cbv zeta.
  fold report_key. unfold Hub.hbind at 1.
  unfold GenerateReport.write_report, Hub.htry, Hub.put_json. cbv zeta.
  match goal with
  | |- context [Hub.put_object h ?l ?c ?b ?k (Hub.ReportBody ?r)] =>
      set (report := r);
      destruct (Hub.put_object h l c b k (Hub.ReportBody report)) as [e0|]
  end.
  - intros [= <- <-]. eexists _, report, e0.
    split; [simpl; now rewrite <- app_assoc|]. split; reflexivity.
  - unfold Hub.hbind at 1. unfold GenerateReport.notify.
    destruct (Py.truthy (sns_topic_arn config)); [|discriminate].
    unfold Hub.htry, Hub.hbind, Hub.new_sns_client, Hub.publish.
    destruct (Hub.sns_client h); [discriminate|].
    unfold Hub.hret. cbv beta iota zeta.
    destruct (Hub.sns_publish h _ _ _ _); discriminate.
Qed.

(** X24: once the report is written the run succeeds, whatever the
    validation status and whatever becomes of the notification.  The
    receipt carries the status of the validation, [UNKNOWN] when the
    event has none, and the key [reports/<execution id>/report.json].
    A notice is published at most once, only when a topic is
    configured, to that topic, under a subject of at most 100
    characters; [notification_sent] is true exactly when that
    publication was accepted. *)
Theorem notification_is_best_effort (st : Hub.hub_state) :
  let stamp := Hub.utcnow h (Hub.hub_log st) in
  let st1 := Hub.hlog (Hub.EvNow stamp) st in
  (forall report,
     Hub.put_object h (Hub.hub_log st1) Hub.hub_s3 (manifest_bucket config)
       report_key (Hub.ReportBody report) = None) ->
  exists r st' report notices,
    GenerateReport.handler h event st = (Ok r, st') /\
    Hub.hub_log st'
    = Hub.hub_log st ++ [Hub.EvNow stamp; written report None] ++ notices /\
    Hub.rd_status report = transfer_status /\
    GenerateReport.rc_status r = transfer_status /\
    GenerateReport.rc_report_key r = report_key /\
    GenerateReport.rc_report_bucket r = manifest_bucket config /\
    (sns_topic_arn config = "" -> notices = []) /\
    (notices = [] -> GenerateReport.rc_notification_sent r = false) /\
    (forall ev,
       ev ∈ notices ->
       exists subject message failure_,
         notices
         = [Hub.EvPublish (sns_topic_arn config) subject message failure_] /\
         (String.length subject <= 100)%nat /\
         (GenerateReport.rc_notification_sent r = true <-> failure_ = None)).
Proof.
  intros stamp st1 Hput.
  unfold GenerateReport.handler. fold config execution_id transfer_status.
  unfold Hub.hbind at 1. unfold Hub.now_isoformat. cbv zeta.
  fold stamp st1 report_key. unfold Hub.hbind at 1.
  unfold GenerateReport.write_report, Hub.htry, Hub.put_json. cbv zeta.
  match goal with
  | |- context [Hub.put_object h ?l ?c ?b ?k (Hub.ReportBody ?r)] =>
      set (report := r)
  end.
  rewrite (Hput report). unfold Hub.hbind at 1.
  unfold GenerateReport.notify.
  destruct (Py.truthy (sns_topic_arn config)) eqn:Htopic.
  - unfold Hub.htry, Hub.hbind, Hub.new_sns_client, Hub.publish.
    destruct (Hub.sns_client h) as [e|].
    + eexists _, _, report, []. split; [reflexivity|].
      split; [simpl; now rewrite <- app_assoc|].
      repeat apply conj; try reflexivity.
      intros ev Hev. inversion Hev.
    + unfold Hub.hret. cbv beta iota zeta.
      match goal with
      | |- context [Hub.sns_publish h ?l ?t ?s ?m] =>
          set (subject := s); set (message := m);
          destruct (Hub.sns_publish h l t subject message) as [e|] eqn:Hsent
      end.
      * eexists _, _, report,
          [Hub.EvPublish (sns_topic_arn config) subject message (Some e)].
        split; [reflexivity|].
        split; [simpl; now rewrite <- !app_assoc|].
        repeat apply conj; try reflexivity.
        -- intros Hnone. rewrite Hnone in Htopic. discriminate.
        -- intros ev _. exists subject, message, (Some e).
           split; [reflexivity|].
           split; [unfold subject; apply slice_to_length|].
           simpl. split; discriminate.
      * eexists _, _, report,
          [Hub.EvPublish (sns_topic_arn config) subject message None].
        split; [reflexivity|].
        split; [simpl; now rewrite <- !app_assoc|].
        repeat apply conj; try reflexivity.
        -- intros Hnone. rewrite Hnone in Htopic. discriminate.
        -- discriminate.
        -- intros ev _. exists subject, message, None.
           split; [reflexivity|].
           split; [unfold subject; apply slice_to_length|].
           simpl. split; reflexivity.
  - eexists _, _, report, []. split; [reflexivity|].
    split; [simpl; now rewrite <- app_assoc|].
    repeat apply conj; try reflexivity.
    intros ev Hev. inversion Hev.
Qed.

End Report.

(** ** The paginated listing of [s3_client.py] *)

Section PaginatedListing.
Variable h : Hub.HubWorld.
Variable s3_client : client.
Variables bucket prefix : string.

Let generator := S3Listing.generate h s3_client bucket prefix.

(** X25: the retry decoration of [list_objects_paginated] covers
    nothing.  The function is a generator function: calling it returns
    the generator at the first attempt, with no request made and no
    sleep taken.  The listing happens when the generator is consumed,
    outside the retrier: consumed to its end it makes one listing, and
    either yields one item for each object of each page, in the order
    listed, or raises; a [ClientError] is raised classified, so a
    throttled listing reaches the consumer as a [RetryableError] that
    nothing retries. *)
Theorem paginated_listing_is_not_retried (st : state) (hst : Hub.hub_state) :
  let listing :=
    Hub.list_objects_v2 h (trace (Hub.inner hst)) (Hub.hub_log hst) s3_client
      bucket (if Py.truthy prefix then Some prefix else None) in
  S3Listing.list_objects_paginated h s3_client bucket prefix st
  = (Ok generator, st) /\
  snd (generator hst)
  = Hub.hlog (Hub.EvList s3_client bucket
                (if Py.truthy prefix then Some prefix else None) listing) hst /\
  (snd listing = None ->
   fst (generator hst) = Ok (map S3Listing.item_of (contents listing))) /\
  (forall e,
     snd listing = Some e ->
     fst (generator hst)
     = Raise (if isinstance e ClientError
              then S3Client._classify_s3_error e "list_objects_v2" else e)) /\
  (forall e,
     snd listing = Some e ->
     isinstance e ClientError = true ->
     error_code e ∉ ["AccessDenied"; "403"] ->
     exists e', fst (generator hst) = Raise e' /\ cls e' = RetryableError).
Proof.
  intros listing.
  assert (Hrun :
    generator hst
    = (match snd listing with
       | None => Ok (map S3Listing.item_of (contents listing))
       | Some e =>
           Raise (if isinstance e ClientError
                  then S3Client._classify_s3_error e "list_objects_v2" else e)
       end,
       Hub.hlog (Hub.EvList s3_client bucket
                   (if Py.truthy prefix then Some prefix else None) listing)
         hst)).
  { unfold generator, S3Listing.generate, Hub.htry, Hub.hbind, Hub.paginate.
    cbv zeta. fold listing. destruct listing as [pages [e|]]; cbn [fst snd].
    - unfold Hub.hraise. now destruct (isinstance e ClientError).
    - unfold Hub.hret, contents. cbn [fst]. f_equal. f_equal.
      induction pages as [|page rest IH]; [reflexivity|].
      simpl. now rewrite map_app, IH. }
  split; [|rewrite Hrun; split; [reflexivity|split; [|split]]].
  - unfold S3Listing.list_objects_paginated, S3Client.retried,
      Retry.exponential_backoff_with_jitter, Retry.wrapper.
    rewrite range_cons by lia. now apply attempts_success.
  - intros ->. reflexivity.
  - intros e ->. reflexivity.
  - intros e -> Hclient Hcode. rewrite Hclient. eexists. split; [reflexivity|].
    now apply classify_s3_other.
Qed.

End PaginatedListing.

(** ** Probes of the destination *)

Section Probes.
Variable w : World.
Variable dest_s3 : client.
Variables dest_bucket source_prefix dest_prefix : string.

Lemma run_head_object__wrapped__ (key : string) (st : state) :
  S3Client.head_object__wrapped__ w dest_s3 dest_bucket key st
  = (match s3 w (trace st) dest_s3 (HeadObject dest_bucket key) with
     | inl e =>
         Raise (if isinstance e ClientError
                then S3Client._classify_s3_error e "head_object" else e)
     | inr (HeadObjectOutput content_length etag last_modified) =>
         Ok {| S3Client.ContentLength := content_length;
               S3Client.meta_ETag := default "" etag;
               S3Client.meta_LastModified := last_modified |}
     | inr _ => Raise (mk_exn KeyError "ContentLength" NoDetails)
     end,
     log (EvS3 dest_s3 (HeadObject dest_bucket key)
            (s3 w (trace st) dest_s3 (HeadObject dest_bucket key))) st).
Proof.
  unfold S3Client.head_object__wrapped__, try_except, bind.
  rewrite run_s3_call.
  destruct (s3 w (trace st) dest_s3 (HeadObject dest_bucket key)) as [e|[]];
    try reflexivity.
  unfold S3Client.classify_client_error. now destruct (isinstance e ClientError).
Qed.

(** X26: a sampled object that is missing at the destination is probed
    five times.  [head_object] treats every [ClientError] that is no
    denial as transient, a 404 included: when S3 answers every probe of
    the destination key with such an error, the check of that sample
    makes exactly five [HeadObject] requests and sleeps four times
    before it records the failure, with no size and the text of the
    last error as its reason, and leaves the count of passes as it
    was. *)
Theorem missing_object_is_probed_five_times (obj : inventory_entry)
    (acc : list failure * Z) (st : state) :
  let key := dest_key source_prefix dest_prefix (Key obj) in
  (forall t, (0 <= rng w t <= 1)%Q) ->
  (forall t, exists e,
     s3 w t dest_s3 (HeadObject dest_bucket key) = inl e /\
     isinstance e ClientError = true /\
     error_code e ∉ ["AccessDenied"; "403"]) ->
  exists e st' ds,
    ValidateTransfer.check_sample w dest_s3 dest_bucket source_prefix
      dest_prefix obj acc st
    = (Ok (fst acc
             ++ [{| f_key := key;
                    f_expected_size := Size obj;
                    f_actual_size := None;
                    f_reason :=
                      "head_object_failed: "
                        +:+ message
                              (S3Client._classify_s3_error e "head_object") |}],
           snd acc), st') /\
    s3_requests (trace st')
    = s3_requests (trace st) ++ replicate 5 (HeadObject dest_bucket key) /\
    sleeps (trace st') = sleeps (trace st) ++ ds /\
    length ds = 4%nat.
Proof.
  intros key Hrng Hs3.
  destruct (attempts_exhaust_view s3_request_of w 5 1 60 [RetryableError]
              (S3Client.head_object__wrapped__ w dest_s3 dest_bucket key)
              (HeadObject dest_bucket key) (fun _ => True))
    with (m := 4%nat) (k := 0) (last := @None exn) (st := st)
    as (e' & s_last & st' & ds & Hrun & _ & Hlast & _ & Hview & Hsleeps & Hlen);
    try easy.
  - intros s _. destruct (Hs3 (trace s)) as (e & Hresp & Hclient & Hcode).
    eexists _, _. rewrite run_head_object__wrapped__, Hresp, Hclient.
    split; [reflexivity|]. split; [|split; [exact I|split]].
    + unfold isinstance_any, isinstance. simpl.
      now rewrite (classify_s3_other e "head_object" Hcode).
    + rewrite trace_log. unfold s3_requests. now rewrite omap_app.
    + now rewrite trace_log, sleeps_snoc.
  - destruct (Hs3 (trace s_last)) as (e & Hresp & Hclient & Hcode).
    rewrite run_head_object__wrapped__, Hresp, Hclient in Hlast.
    inversion Hlast; subst e'.
    exists e, st', ds. split; [|now split].
    unfold ValidateTransfer.check_sample, try_except. unfold bind at 1.
    fold key. unfold S3Client.head_object, S3Client.retried,
      Retry.exponential_backoff_with_jitter, Retry.wrapper.
    now rewrite Hrun.
Qed.

End Probes.


(** ** The time a run can spend sleeping *)

Lemma total_sleep_app (ds1 ds2 : list Q) :
  (total_sleep (ds1 ++ ds2) == total_sleep ds1 + total_sleep ds2)%Q.
Proof.
  induction ds1 as [|d ds1 IH]; simpl; [ring|]. rewrite IH. ring.
Qed.

Lemma total_sleep_nonneg (ds : list Q) :
  Forall (fun d => (0 <= d)%Q) ds -> (0 <= total_sleep ds)%Q.
Proof.
  induction 1 as [|d ds Hd _ IH]; simpl; [apply Qle_refl|]. lra.
Qed.

Lemma no_sleep_sleeps (d : list event) :
  Forall (fun ev => sleep_of ev = None) d -> sleeps d = [].
Proof.
  induction 1 as [|ev d Hev _ IH]; [reflexivity|].
  unfold sleeps in *. simpl. now rewrite Hev.
Qed.

Section SleepsWithin.
Context {A : Type}.

Lemma sleeps_within_weaken (b b' : Q) (c : M A) :
  (b <= b')%Q -> sleeps_within b c -> sleeps_within b' c.
Proof.
  intros Hb Hc st. destruct (Hc st) as (ds & Hds & Hpos & Htotal).
  exists ds. split; [exact Hds|]. split; [exact Hpos|].
  now apply Qle_trans with b.
Qed.

(** What adds no sleep to the trace sleeps for no time. *)
Lemma sleeps_within_only (c : M A) :
  only (fun ev => sleep_of ev = None) c -> sleeps_within 0 c.
Proof.
  intros Hc st. destruct (Hc st) as (d & Hd & Hnone). exists [].
  split; [|split; [constructor|apply Qle_refl]].
  now rewrite Hd, sleeps_app, (no_sleep_sleeps d Hnone).
Qed.

Lemma sleeps_within_ret (a : A) : sleeps_within 0 (ret a).
Proof. apply sleeps_within_only, only_ret. Qed.

Lemma sleeps_within_raise (e : exn) : sleeps_within 0 (@raise A e).
Proof. apply sleeps_within_only, only_raise. Qed.

(** Sequencing adds the budgets; the second computation may rely on
    what the first returns. *)
Lemma sleeps_within_bind {B} (post : B -> Prop) (b1 b2 : Q) (c : M B)
    (k : B -> M A) :
  (0 <= b2)%Q ->
  (forall st v st', c st = (Ok v, st') -> post v) ->
  sleeps_within b1 c ->
  (forall v, post v -> sleeps_within b2 (k v)) ->
  sleeps_within (b1 + b2) (bind c k).
Proof.
  intros Hb2 Hpost Hc Hk st.
  destruct (Hc st) as (ds1 & Hds1 & Hpos1 & Ht1).
  unfold bind. destruct (c st) as [[v|e] st1] eqn:Hrun; simpl in Hds1.
  - destruct (Hk v (Hpost st v st1 Hrun) st1) as (ds2 & Hds2 & Hpos2 & Ht2).
    exists (ds1 ++ ds2). rewrite Hds2, Hds1, app_assoc.
    split; [reflexivity|]. split; [now apply Forall_app|].
    rewrite total_sleep_app. now apply Qplus_le_compat.
  - exists ds1. split; [exact Hds1|]. split; [exact Hpos1|]. lra.
Qed.

Lemma sleeps_within_try_except (b1 b2 : Q) (body : M A)
    (handler : exn -> M A) :
  (0 <= b2)%Q ->
  sleeps_within b1 body ->
  (forall e, sleeps_within b2 (handler e)) ->
  sleeps_within (b1 + b2) (try_except body handler).
Proof.
  intros Hb2 Hbody Hhandler st.
  destruct (Hbody st) as (ds1 & Hds1 & Hpos1 & Ht1).
  unfold try_except. destruct (body st) as [[v|e] st1]; simpl in Hds1.
  - exists ds1. split; [exact Hds1|]. split; [exact Hpos1|]. lra.
  - destruct (Hhandler e st1) as (ds2 & Hds2 & Hpos2 & Ht2).
    exists (ds1 ++ ds2). rewrite Hds2, Hds1, app_assoc.
    split; [reflexivity|]. split; [now apply Forall_app|].
    rewrite total_sleep_app. now apply Qplus_le_compat.
Qed.

End SleepsWithin.

Lemma sleeps_within_time_sleep (d cap : Q) :
  (0 <= d <= cap)%Q -> sleeps_within cap (time_sleep d).
Proof.
  intros [H0 Hcap] st. rewrite run_time_sleep by exact H0. exists [d].
  split; [cbn [snd]; now rewrite trace_log, sleeps_snoc_sleep|].
  split; [now constructor|]. simpl. lra.
Qed.

Section Budget.
Context {A : Type}.
Variable w : World.
Variable max_attempts : Z.
Variables base_delay max_delay : Q.
Variable retryable_exceptions : list exn_class.
Variable func : M A.

Hypothesis base_delay_nonneg : (0 <= base_delay)%Q.
Hypothesis max_delay_nonneg : (0 <= max_delay)%Q.
Hypothesis rng_unit : forall t, (0 <= rng w t <= 1)%Q.
Hypothesis func_no_sleep : sleeps_within 0 func.

Lemma backoff_budget_nonneg (remaining : list Z) :
  (0 <= backoff_budget max_attempts base_delay max_delay remaining)%Q.
Proof.
  induction remaining as [|attempt rest IH]; simpl; [apply Qle_refl|].
  pose proof (cap_nonneg base_delay max_delay base_delay_nonneg
                max_delay_nonneg attempt) as Hcap.
  destruct (attempt =? max_attempts - 1); lra.
Qed.

(** The loop sleeps, in all, no longer than the caps of the attempts
    that remain allow. *)
Lemma sleeps_within_attempts (remaining : list Z) :
  forall last,
    sleeps_within (backoff_budget max_attempts base_delay max_delay remaining)
      (Retry.attempts w max_attempts base_delay max_delay retryable_exceptions
         func remaining last).
Proof.
  induction remaining as [|attempt rest IH]; intros last.
  - simpl. destruct last; apply sleeps_within_raise.
  - pose proof (backoff_budget_nonneg (attempt :: rest)) as Hnonneg.
    pose proof (backoff_budget_nonneg rest) as Hrest.
    pose proof (cap_nonneg base_delay max_delay base_delay_nonneg
                  max_delay_nonneg attempt) as Hcap.
    apply sleeps_within_weaken
      with (0 + backoff_budget max_attempts base_delay max_delay
                  (attempt :: rest))%Q; [lra|].
    cbn [Retry.attempts].
    apply sleeps_within_try_except; [exact Hnonneg|exact func_no_sleep|].
    intros e. destruct (isinstance_any e retryable_exceptions).
    2:{ destruct (isinstance e NonRetryableError);
          (apply sleeps_within_weaken with 0%Q;
           [exact Hnonneg|apply sleeps_within_raise]). }
    cbn [backoff_budget] in *.
    destruct (attempt =? max_attempts - 1).
    { apply sleeps_within_weaken with 0%Q;
        [exact Hnonneg|apply sleeps_within_raise]. }
    unfold Retry.delay_cap. destruct (1024 <=? attempt).
    { apply sleeps_within_weaken with 0%Q;
        [exact Hnonneg|apply sleeps_within_raise]. }
    apply sleeps_within_weaken
      with (0 + (Retry.cap base_delay max_delay attempt
                 + backoff_budget max_attempts base_delay max_delay rest))%Q;
      [lra|].
    apply sleeps_within_bind
      with (post := fun delay =>
              (0 <= delay
               <= Retry.cap base_delay max_delay attempt)%Q).
    + lra.
    + intros st v st' Hrun. rewrite run_random_uniform in Hrun.
      injection Hrun as <- _.
      apply jitter_bounds; [assumption..|]. apply rng_unit.
    + apply sleeps_within_only. apply only_random_uniform. reflexivity.
    + intros delay Hdelay.
      apply sleeps_within_bind with (post := fun _ => True).
      * exact Hrest.
      * easy.
      * now apply sleeps_within_time_sleep.
      * intros _ _. apply IH.
Qed.

End Budget.

Section FunctionBudgets.
Variable w : World.
Hypothesis rng_unit : forall t, (0 <= rng w t <= 1)%Q.

(** Fifteen seconds for a function of [s3_client.py]: 1 + 2 + 4 + 8. *)
Lemma sleeps_within_retried {A} (func : M A) :
  sleeps_within 0 func -> sleeps_within 15 (S3Client.retried w func).
Proof.
  intros Hfunc.
  apply sleeps_within_weaken
    with (backoff_budget 5 1 60 (Py.range 0 5)); [vm_compute; discriminate|].
  apply sleeps_within_attempts; try easy.
Qed.

(** Three seconds for [assume_role]: 1 + 2. *)
Lemma sleeps_within_assume_role (role_arn session_name external_id : string)
    (duration_seconds : Z) :
  sleeps_within 3
    (StsClient.assume_role w role_arn session_name external_id
       duration_seconds).
Proof.
  apply sleeps_within_weaken
    with (backoff_budget 3 1 10 (Py.range 0 3)); [vm_compute; discriminate|].
  apply sleeps_within_attempts; try easy.
  apply sleeps_within_only. now apply only_assume_role__wrapped__.
Qed.

Lemma sleeps_within_s3_call (c : client) (req : s3_request) :
  sleeps_within 0 (s3_call w c req).
Proof. apply sleeps_within_only. now apply only_s3_call. Qed.

Lemma sleeps_within_copy_object (s3_client : client)
    (source_bucket source_key dest_bucket dest_key kms_key_id : string) :
  sleeps_within 15
    (S3Client.copy_object w s3_client source_bucket source_key dest_bucket
       dest_key kms_key_id).
Proof.
  apply sleeps_within_retried, sleeps_within_only.
  unfold S3Client.copy_object__wrapped__. apply only_try_except.
  - now apply only_s3_call.
  - intros e. unfold S3Client.classify_client_error.
    destruct (isinstance e ClientError); apply only_raise.
Qed.

Lemma sleeps_within_head_object (s3_client : client) (bucket key : string) :
  sleeps_within 15 (S3Client.head_object w s3_client bucket key).
Proof.
  apply sleeps_within_retried, sleeps_within_only.
  unfold S3Client.head_object__wrapped__. apply only_try_except.
  - apply only_bind; [now apply only_s3_call|].
    intros []; try apply only_raise. apply only_ret.
  - intros e. unfold S3Client.classify_client_error.
    destruct (isinstance e ClientError); apply only_raise.
Qed.

Lemma sleeps_within_multipart_copy (s3_client : client)
    (source_bucket source_key dest_bucket dest_key : string) (object_size : Z)
    (kms_key_id : string) (part_size : Z) :
  sleeps_within 15
    (S3Client.multipart_copy w s3_client source_bucket source_key dest_bucket
       dest_key object_size kms_key_id part_size).
Proof.
  apply sleeps_within_retried, sleeps_within_only.
  unfold S3Client.multipart_copy__wrapped__.
  destruct (object_size >? S3Client.MAX_OBJECT_SIZE); [apply only_raise|].
  apply only_bind.
  { unfold S3Client.create_upload. apply only_bind; [now apply only_s3_call|].
    intros []; try apply only_raise. apply only_ret. }
  intros upload_id. apply only_try_except.
  - unfold S3Client.copy_and_complete.
    destruct (S3Client.num_parts object_size part_size) as [e|n];
      [apply only_raise|].
    apply only_bind; [|intros parts; now apply only_s3_call].
    generalize (Py.range 1 (n + 1)).
    generalize (@nil (Z * string)).
    intros parts part_nums. revert parts.
    induction part_nums as [|part_num rest IH]; intros parts; simpl.
    + apply only_ret.
    + apply only_bind; [now apply only_s3_call|].
      intros []; try apply only_raise. apply IH.
  - intros e. apply only_bind; [|intros _; apply only_raise].
    unfold S3Client.abort_upload. destruct (Py.truthy upload_id).
    + apply only_try_except; [|intros _; apply only_ret].
      apply only_bind; [now apply only_s3_call|]. intros _. apply only_ret.
    + apply only_ret.
Qed.

(** X27: a transfer never sleeps for more than 18 seconds in all,
    whatever STS and S3 answer ([random()] in the unit interval): at
    most 3 seconds while it acquires the credentials (1 + 2, the caps of
    the two delays of three attempts) and at most 15 while it copies
    (1 + 2 + 4 + 8, the caps of the four delays of five attempts); and
    no sleep is negative. *)
Theorem transfer_sleeps_at_most_18_seconds (event : TransferObject.event_t) :
  sleeps_within 18 (TransferObject.handler w event).
Proof.
  unfold TransferObject.handler.
  apply sleeps_within_weaken with (3 + (15 + 0))%Q; [vm_compute; discriminate|].
  apply sleeps_within_bind with (post := fun _ => True); try easy.
  - apply sleeps_within_assume_role.
  - intros credentials _.
    apply sleeps_within_bind with (post := fun _ => True); try easy.
    + apply sleeps_within_weaken with (15 + 0)%Q; [vm_compute; discriminate|].
      apply sleeps_within_try_except; [easy| |intros e; apply sleeps_within_raise].
      unfold TransferObject.copy_by_size.
      destruct (_ <? _);
        (apply sleeps_within_weaken with (15 + 0)%Q;
         [vm_compute; discriminate|]);
        (apply sleeps_within_bind with (post := fun _ => True);
         [easy|easy| |intros; apply sleeps_within_ret]).
      * apply sleeps_within_copy_object.
      * apply sleeps_within_multipart_copy.
    + intros _ _. apply sleeps_within_ret.
Qed.

Lemma sleeps_within_check_samples (dest_s3 : client)
    (dest_bucket source_prefix dest_prefix : string)
    (samples : list inventory_entry) :
  forall acc,
    sleeps_within (15 * inject_Z (Z.of_nat (length samples)))
      (ValidateTransfer.check_samples w dest_s3 dest_bucket source_prefix
         dest_prefix samples acc).
Proof.
  induction samples as [|obj rest IH]; intros acc.
  - apply sleeps_within_weaken with 0%Q; [vm_compute; discriminate|].
    apply sleeps_within_ret.
  - assert (Hrest : (0 <= 15 * inject_Z (Z.of_nat (length rest)))%Q).
    { apply Qmult_le_0_compat; [discriminate|].
      change 0%Q with (inject_Z 0). rewrite <- Zle_Qle. lia. }
    apply sleeps_within_weaken
      with (15 + 0 + 0 + 15 * inject_Z (Z.of_nat (length rest)))%Q.
    { simpl length. rewrite Nat2Z.inj_succ. unfold Z.succ.
      rewrite inject_Z_plus. change (inject_Z 1) with 1%Q. lra. }
    cbn [ValidateTransfer.check_samples].
    apply sleeps_within_bind with (post := fun _ => True);
      [exact Hrest|easy| |intros acc' _; apply IH].
    unfold ValidateTransfer.check_sample.
    apply sleeps_within_try_except;
      [easy| |intros e; apply sleeps_within_ret].
    apply sleeps_within_bind with (post := fun _ => True); try easy.
    + apply sleeps_within_head_object.
    + intros dest_meta _. destruct (_ =? _); apply sleeps_within_ret.
Qed.

(** X28: a validation run never sleeps for more than
    [3 + 15 * validation_sample_size] seconds in all, whatever S3 and
    STS answer and whether it passes, fails or stops early
    ([random()] in the unit interval, a non-negative sample size, a
    [random.sample] that returns as many entries as asked): at most 3
    seconds for the credentials and at most 15 for each sampled
    object's probe; reading the manifest and listing the destination
    never sleep. *)
Theorem validation_sleeps_are_bounded (request : ValidateTransfer.event_t) :
  0 <= validation_sample_size (from_env w) ->
  (forall t population k,
     (k <= length population)%nat -> length (sampler w t population k) = k) ->
  sleeps_within (3 + 15 * inject_Z (validation_sample_size (from_env w)))
    (ValidateTransfer.handler w request).
Proof.
  intros Hsize Hsampler.
  assert (Hbudget :
    (0 <= 15 * inject_Z (validation_sample_size (from_env w)))%Q).
  { apply Qmult_le_0_compat; [discriminate|].
    change 0%Q with (inject_Z 0). now rewrite <- Zle_Qle. }
  unfold ValidateTransfer.handler. cbv zeta.
  apply sleeps_within_weaken
    with (0 + (3 + (0 + (0 + (15 * inject_Z
                                     (validation_sample_size (from_env w))
                              + 0)))))%Q; [lra|].
  apply sleeps_within_bind with (post := fun _ => True); [lra|easy| |].
  { apply sleeps_within_only. unfold ValidateTransfer.read_manifest.
    apply only_try_except.
    - apply only_bind; [now apply only_s3_call|].
      intros []; try apply only_raise.
      destruct (json_loads w Body); [apply only_raise|apply only_ret].
    - intros e. apply only_raise. }
  intros manifest _.
  apply sleeps_within_bind with (post := fun _ => True); [lra|easy| |].
  { apply sleeps_within_assume_role. }
  intros credentials _.
  apply sleeps_within_bind with (post := fun _ => True); [lra|easy| |].
  { apply sleeps_within_only. unfold ValidateTransfer.count_destination.
    apply only_try_except.
    - apply only_bind; [now apply only_s3_call|].
      intros []; try apply only_raise.
      destruct failure_; [apply only_raise|apply only_ret].
    - intros e. apply only_raise. }
  intros dest_count _.
  apply sleeps_within_bind
    with (post := fun samples : list inventory_entry =>
            Z.of_nat (length samples)
            <= validation_sample_size (from_env w)); [lra| | |].
  - intros st samples st' Hrun.
    destruct (objects manifest) as [|obj rest] eqn:Hobjects.
    + injection Hrun as <- _. simpl. exact Hsize.
    + unfold random_sample in Hrun.
      destruct ((_ <? 0) || (_ <? _)) eqn:Hk; [discriminate|].
      apply orb_false_iff in Hk as [Hk0 Hk1].
      apply Z.ltb_ge in Hk0, Hk1.
      injection Hrun as <- _. simpl length in *.
      rewrite Hsampler by (simpl length; lia). lia.
  - apply sleeps_within_only.
    destruct (objects manifest) as [|obj rest]; [apply only_ret|].
    unfold random_sample.
    destruct ((_ <? 0) || (_ <? _)); [apply only_raise|].
    intros st. eexists [_]. split; [reflexivity|]. now constructor.
  - intros samples Hsamples.
    apply sleeps_within_bind with (post := fun _ => True); [lra|easy| |].
    + apply sleeps_within_weaken
        with (15 * inject_Z (Z.of_nat (length samples)))%Q.
      * apply Qmult_le_l; [reflexivity|]. now rewrite <- Zle_Qle.
      * apply sleeps_within_check_samples.
    + intros checked _.
      destruct (ValidateTransfer.status_of _ _ _);
        [apply sleeps_within_ret|apply sleeps_within_raise].
Qed.

End FunctionBudgets.

(** ** The further properties at work in the concrete worlds *)

Lemma retry_bounded_witness :
  exists (invocations : nat) (ds : list Q),
    calls "op"
      (trace (snd (Retry.exponential_backoff_with_jitter demo_world 5 1 60
                     [RetryableError] (counted "op" (flaky 3)) initial)))
    = (calls "op" (trace initial) + invocations)%nat /\
    1 <= Z.of_nat invocations <= 5 /\
    sleeps
      (trace (snd (Retry.exponential_backoff_with_jitter demo_world 5 1 60
                     [RetryableError] (counted "op" (flaky 3)) initial)))
    = sleeps (trace initial) ++ ds /\
    S (length ds) = invocations /\
    Forall (fun d => (0 <= d <= 60)%Q) ds.
Proof.
  apply (retry_bounded demo_world 5 1 60 [RetryableError] "op" (flaky 3)
           initial).
  - lia.
  - discriminate.
  - discriminate.
  - intros t. split; discriminate.
  - intros st. unfold flaky. destruct (_ <? _)%nat; split; reflexivity.
Defined.


Lemma no_attempt_allowed_witness :
  exists e,
    Retry.exponential_backoff_with_jitter demo_world 0 1 60 [RetryableError]
      (counted "op" always_transient) initial = (Raise e, initial) /\
    cls e = TypeError /\
    isinstance e TransferError = false.
Proof. apply no_attempt_allowed. lia. Defined.

Lemma copy_object_fails_fast_witness :
  S3Client.copy_object (with_s3 denying_s3) demo_client "src" "data/x" "dst"
    "out/x" "key" initial
  = (Raise (S3Client._classify_s3_error (client_error "AccessDenied" "denied")
              "copy_object"),
     log (EvS3 demo_client
            (CopyObject ("src", "data/x") "dst" "out/x" (Some "key"))
            (inl (client_error "AccessDenied" "denied"))) initial).
Proof.
  destruct (copy_object_fails_fast (with_s3 denying_s3) demo_client "src"
              "data/x" "dst" "out/x" "key" initial
              (client_error "AccessDenied" "denied")) as [Hdenied _].
  - reflexivity.
  - destruct Hdenied as [Hrun _].
    + reflexivity.
    + vm_compute. left.
    + exact Hrun.
Defined.

Lemma copy_object_exhausts_witness :
  exists e st' ds,
    S3Client.copy_object (with_s3 throttling_s3) demo_client "src" "data/x"
      "dst" "out/x" "key" initial
    = (Raise (S3Client._classify_s3_error e "copy_object"), st') /\
    cls (S3Client._classify_s3_error e "copy_object") = RetryableError /\
    s3_requests (trace st')
    = s3_requests (trace initial)
      ++ replicate 5 (CopyObject ("src", "data/x") "dst" "out/x" (Some "key")) /\
    sleeps (trace st') = sleeps (trace initial) ++ ds /\
    length ds = 4%nat.
Proof.
  apply copy_object_exhausts.
  - intros t. split; discriminate.
  - intros t. exists (client_error "SlowDown" "slow down").
    split; [reflexivity|]. split; [reflexivity|].
    simpl. intros H. apply elem_of_cons in H as [H|H]; [discriminate|].
    apply elem_of_cons in H as [H|H]; [discriminate|]. inversion H.
Defined.


Lemma zero_part_size_aborts_witness :
  exists st',
    S3Client.multipart_copy demo_world demo_client "src" "data/x" "dst"
      "out/x" 130 "key" 0 initial
    = (Raise (mk_exn ZeroDivisionError "division by zero" NoDetails), st') /\
    s3_requests (trace st')
    = s3_requests (trace initial)
      ++ [CreateMultipartUpload "dst" "out/x" (S3Client.sse_of "key");
          AbortMultipartUpload "dst" "out/x" "upload-1"] /\
    sleeps (trace st') = sleeps (trace initial).
Proof.
  apply zero_part_size_aborts.
  - unfold S3Client.MAX_OBJECT_SIZE. lia.
  - reflexivity.
  - reflexivity.
  - reflexivity.
Defined.

Lemma empty_object_has_no_parts_witness :
  S3Client.num_parts 0 40 = inr 0 /\
  part_copies
    (trace (snd (S3Client.multipart_copy__wrapped__ demo_world demo_client
                   "src" "data/x" "dst" "out/x" 0 "key" 40 initial)))
  = part_copies (trace initial).
Proof.
  split; [reflexivity|].
  pose proof (empty_object_has_no_parts demo_world demo_client "src" "data/x"
                "dst" "out/x" 0 "key" 40 initial "upload-1" 0) as H.
  cbv zeta in H. destruct H as (_ & _ & Hparts & _).
  - lia.
  - lia.
  - reflexivity.
  - reflexivity.
  - exact Hparts.
Defined.

Lemma chunked_copy_requests_witness :
  exists n upload_id parts,
    S3Client.num_parts 80 40 = inr n /\
    map fst parts = Py.range 1 (n + 1) /\
    s3_requests
      (trace (snd (S3Client.multipart_copy__wrapped__ demo_world demo_client
                     "src" "data/x" "dst" "out/x" 80 "key" 40 initial)))
    = s3_requests (trace initial)
      ++ CreateMultipartUpload "dst" "out/x" (S3Client.sse_of "key")
         :: map (fun part_num =>
                   UploadPartCopy "dst" "out/x" upload_id part_num
                     ("src" +:+ "/" +:+ "data/x")
                     (S3Client.part_range 80 40 part_num))
              (Py.range 1 (n + 1))
      ++ [CompleteMultipartUpload "dst" "out/x" upload_id parts].
Proof.
  destruct (S3Client.multipart_copy__wrapped__ demo_world demo_client "src"
              "data/x" "dst" "out/x" 80 "key" 40 initial) as [out st'] eqn:Hrun.
  destruct (chunked_copy_requests demo_world demo_client "src" "data/x" "dst"
              "out/x" 80 "key" 40 initial st'
              (CompleteMultipartUploadOutput "etag"))
    as (n & upload_id & parts & st2 & Hnum & _ & Hfst & _ & Hreqs & _).
  - rewrite Hrun. vm_compute in Hrun. inversion Hrun. reflexivity.
  - exists n, upload_id, parts.
    split; [exact Hnum|]. split; [exact Hfst|exact Hreqs].
Defined.

Lemma multipart_copy_runs_once_witness :
  S3Client.multipart_copy demo_world demo_client "src" "data/x" "dst" "out/x"
    130 "key" 40 initial
  = S3Client.multipart_copy__wrapped__ demo_world demo_client "src" "data/x"
      "dst" "out/x" 130 "key" 40 initial.
Proof.
  apply multipart_copy_runs_once.
  intros t c req e He. simpl in He. unfold demo_s3 in He.
  destruct req; try discriminate.
  - destruct (String.eqb _ _); inversion He; reflexivity.
  - destruct (_ =? 3); inversion He; reflexivity.
  - inversion He; reflexivity.
Defined.

Lemma assume_role_cache_witness :
  _credential_cache
    (snd (StsClient.assume_role demo_world "arn:destination" "session" "ext"
            3600 initial)) !! "arn:source"
  = _credential_cache initial !! "arn:source" /\
  exists entry,
    _credential_cache
      (snd (StsClient.assume_role demo_world "arn:destination" "session" "ext"
              3600 initial)) !! "arn:destination" = Some entry /\
    cached_credentials entry
    = {| aws_access_key_id := "id"; aws_secret_access_key := "secret";
         aws_session_token := "token" |}.
Proof.
  destruct (assume_role_cache demo_world "arn:destination" "session" "ext" 3600
              initial) as (Hothers & _ & Hslot).
  - intros t. split; discriminate.
  - split.
    + apply Hothers. discriminate.
    + apply Hslot. vm_compute. reflexivity.
Defined.

Lemma assume_role_denied_witness :
  exists st',
    StsClient.assume_role (with_sts denying_sts) "arn:destination" "session"
      "ext" 3600 initial
    = (Raise (StsClient.classify_sts_error "arn:destination"
                (client_error "AccessDenied" "not authorized")), st') /\
    sts_requests (trace st')
    = sts_requests (trace initial)
      ++ [{| RoleArn := "arn:destination"; RoleSessionName := "session";
             DurationSeconds := 3600; ExternalId := Some "ext" |}] /\
    _credential_cache st' = _credential_cache initial.
Proof.
  destruct (assume_role_denied (with_sts denying_sts) "arn:destination"
              "session" "ext" 3600 initial
              (client_error "AccessDenied" "not authorized"))
    as (st' & Hrun & _ & Hrequests & _ & Hcache).
  - exact I.
  - reflexivity.
  - reflexivity.
  - vm_compute. left.
  - exists st'. split; [exact Hrun|]. split; [exact Hrequests|exact Hcache].
Defined.

Lemma assume_role_exhausts_witness :
  exists e st' ds,
    StsClient.assume_role (with_sts failing_sts) "arn:destination" "session"
      "ext" 3600 initial
    = (Raise (StsClient.classify_sts_error "arn:destination" e), st') /\
    cls (StsClient.classify_sts_error "arn:destination" e) = RetryableError /\
    sts_requests (trace st')
    = sts_requests (trace initial)
      ++ replicate 3
           {| RoleArn := "arn:destination"; RoleSessionName := "session";
              DurationSeconds := 3600; ExternalId := Some "ext" |} /\
    sleeps (trace st') = sleeps (trace initial) ++ ds /\
    length ds = 2%nat /\
    _credential_cache st' = _credential_cache initial.
Proof.
  apply (assume_role_exhausts (with_sts failing_sts) "arn:destination"
           "session" "ext" 3600 initial).
  - intros t. split; discriminate.
  - intros entry t H. discriminate.
  - intros t. exists (client_error "ServiceUnavailable" "try again").
    split; [reflexivity|]. split; [reflexivity|].
    simpl. intros H. apply elem_of_cons in H as [H|H]; [discriminate|].
    apply elem_of_cons in H as [H|H]; [discriminate|]. inversion H.
Defined.

Lemma transfer_without_credentials_witness :
  exists e st1,
    TransferObject.handler (with_sts denying_sts) small_transfer initial
    = (Raise e, st1) /\
    s3_requests (trace st1) = s3_requests (trace initial).
Proof.
  eexists _, _.
  apply (transfer_without_credentials (with_sts denying_sts) small_transfer
           initial).
  vm_compute. reflexivity.
Defined.

Lemma unreadable_manifest_is_fatal_witness :
  exists e,
    fst (ValidateTransfer.handler (with_s3 throttling_s3) demo_validation
           initial) = Raise e /\
    cls e = NonRetryableError.
Proof.
  destruct (unreadable_manifest_is_fatal (with_s3 throttling_s3)
              demo_validation initial) as (e & Hrun & Hcls & _).
  - intros body manifest H. discriminate.
  - exists e. rewrite Hrun. split; [reflexivity|exact Hcls].
Defined.

Lemma failed_listing_is_fatal_witness :
  fst (ValidateTransfer.handler (with_s3 failing_listing_s3) demo_validation
         initial)
  = Raise (mk_exn NonRetryableError
             ("Failed to list destination objects: " +:+ "slow down")
             NoDetails).
Proof.
  pose proof (fun st1 st2 manifest creds =>
                failed_listing_is_fatal (with_s3 failing_listing_s3)
                  demo_validation initial st1 st2 manifest creds
                  (client_error "SlowDown" "slow down")) as H.
  cbv zeta in H. erewrite H.
  - reflexivity.
  - vm_compute. reflexivity.
  - vm_compute. reflexivity.
  - right. exists [Some 2]. reflexivity.
Defined.

Lemma failure_records_describe_samples_witness :
  exists r samples failed,
    produced (fst (ValidateTransfer.handler demo_world demo_validation initial))
    = Some r /\
    sublist failed samples /\
    Forall2 (describes "data/" "out/") failed (failures r) /\
    samples_passed r = Z.of_nat (length samples) - Z.of_nat (length failed).
Proof.
  edestruct (failure_records_describe_samples demo_world demo_validation
               initial)
    as (r & samples & failed & Hp & _ & Hsub & Hall & Hpassed).
  - reflexivity.
  - reflexivity.
  - reflexivity.
  - simpl. lia.
  - intros t population k Hk. simpl. now apply length_take_le.
  - exists r, samples, failed. split; [exact Hp|]. split; [exact Hsub|].
    split; [exact Hall|exact Hpassed].
Defined.

Lemma retryable_excludes_the_rest_witness :
  isinstance (mk_exn RetryableError "transient" NoDetails) NonRetryableError
  = false /\
  isinstance (mk_exn ValidationError "failed" NoDetails) NonRetryableError
  = true.
Proof.
  split.
  - apply (proj1 (retryable_excludes_the_rest
                    (mk_exn RetryableError "transient" NoDetails))).
    reflexivity.
  - apply (proj2 (retryable_excludes_the_rest
                    (mk_exn ValidationError "failed" NoDetails))).
    vm_compute. do 3 right. left.
Defined.

Lemma inventory_manifest_witness :
  exists r manifest,
    fst (ListObjects.handler demo_hub inventory_request hub_initial) = Ok r /\
    Hub.md_objects manifest = map inventory_item (contents demo_listing) /\
    ListObjects.rc_total_objects r
    = Z.of_nat (length (Hub.md_objects manifest)) /\
    ListObjects.rc_total_size_bytes r
    = foldr Z.add 0 (map Size (Hub.md_objects manifest)) /\
    ListObjects.rc_manifest_key r = "manifests/0123456789/manifest.json".
Proof.
  destruct (ListObjects.handler demo_hub inventory_request hub_initial)
    as [[r|e] st'] eqn:Hrun; [|vm_compute in Hrun; discriminate].
  destruct (inventory_manifest demo_hub inventory_request hub_initial st' r
              Hrun)
    as (credentials & listing & stamp & manifest & _ & Hlog & _ & Hobjects
        & Hcount & Hsize & Hrcount & Hrsize & _ & _ & Hkey).
  assert (Hlisting : listing = demo_listing).
  { vm_compute in Hrun. injection Hrun as _ <-. simpl in Hlog.
    now injection Hlog. }
  exists r, manifest. split; [reflexivity|].
  split; [now rewrite Hobjects, Hlisting|].
  split; [now rewrite Hrcount|]. split; [now rewrite Hrsize|exact Hkey].
Defined.

Lemma inventory_failure_witness :
  exists e st',
    ListObjects.handler
      (hub_with (fst demo_listing, Some (client_error "SlowDown" "slow down"))
         None None) inventory_request hub_initial = (Raise e, st') /\
    forall c bucket key body content_type sse,
      Hub.EvPut c bucket key body content_type sse None ∉ Hub.hub_log st'.
Proof.
  destruct (ListObjects.handler
              (hub_with
                 (fst demo_listing, Some (client_error "SlowDown" "slow down"))
                 None None) inventory_request hub_initial)
    as [[r|e] st'] eqn:Hrun; [vm_compute in Hrun; discriminate|].
  exists e, st'. split; [reflexivity|].
  intros c bucket key body content_type sse Hin.
  destruct (inventory_failure _ _ _ _ _ Hrun)
    as [[Hlog _]|[(credentials & listing & e0 & _ & Hlog & _)
                 |(credentials & listing & stamp & manifest & e0 & _ & Hlog
                   & _)]];
    rewrite Hlog in Hin; simpl in Hin.
  - inversion Hin.
  - apply elem_of_cons in Hin as [Hin|Hin]; [discriminate|]. inversion Hin.
  - repeat (apply elem_of_cons in Hin as [Hin|Hin]; [discriminate|]).
    inversion Hin.
Defined.

Lemma unwritten_report_is_fatal_witness :
  exists e st',
    GenerateReport.handler
      (hub_with demo_listing (Some (client_error "InternalError" "refused"))
         None) report_request hub_initial = (Raise e, st') /\
    cls e = NonRetryableError /\
    Hub.inner st' = Hub.inner hub_initial.
Proof.
  destruct (GenerateReport.handler
              (hub_with demo_listing
                 (Some (client_error "InternalError" "refused")) None)
              report_request hub_initial)
    as [[r|e] st'] eqn:Hrun; [vm_compute in Hrun; discriminate|].
  exists e, st'. split; [reflexivity|].
  destruct (unwritten_report_is_fatal _ _ _ _ _ Hrun)
    as (stamp & report & e0 & _ & -> & Hinner).
  split; [reflexivity|exact Hinner].
Defined.

Lemma notification_is_best_effort_witness :
  exists r st',
    GenerateReport.handler
      (hub_with demo_listing None (Some (client_error "Throttled" "later")))
      report_request hub_initial = (Ok r, st') /\
    GenerateReport.rc_status r = "PASSED" /\
    GenerateReport.rc_report_key r = "reports/0123456789/report.json".
Proof.
  destruct (notification_is_best_effort
              (hub_with demo_listing None
                 (Some (client_error "Throttled" "later")))
              report_request hub_initial)
    as (r & st' & report & notices & Hrun & _ & _ & Hstatus & Hkey & _).
  - intros report. reflexivity.
  - exists r, st'. split; [exact Hrun|]. split; [exact Hstatus|exact Hkey].
Defined.

Lemma paginated_listing_is_not_retried_witness :
  exists e',
    fst (S3Listing.generate
           (hub_with
              (fst demo_listing, Some (client_error "SlowDown" "slow down"))
              None None) demo_client "src" "data/" hub_initial) = Raise e' /\
    cls e' = RetryableError.
Proof.
  pose proof (paginated_listing_is_not_retried
                (hub_with
                   (fst demo_listing,
                    Some (client_error "SlowDown" "slow down")) None None)
                demo_client "src" "data/" initial hub_initial) as H.
  cbv zeta in H. destruct H as (_ & _ & _ & _ & Hthrottled).
  apply (Hthrottled (client_error "SlowDown" "slow down")).
  - reflexivity.
  - reflexivity.
  - simpl. intros H. apply elem_of_cons in H as [H|H]; [discriminate|].
    apply elem_of_cons in H as [H|H]; [discriminate|]. inversion H.
Defined.

Lemma missing_object_is_probed_five_times_witness :
  exists e st' ds,
    ValidateTransfer.check_sample demo_world demo_client "dst" "data/" "out/"
      {| Key := "data/b"; Size := 7; ETag := "b" |} ([], 0) initial
    = (Ok ([] ++ [{| f_key := "out/b";
                     f_expected_size := 7;
                     f_actual_size := None;
                     f_reason :=
                       "head_object_failed: "
                         +:+ message
                               (S3Client._classify_s3_error e "head_object") |}],
           0), st') /\
    s3_requests (trace st')
    = s3_requests (trace initial) ++ replicate 5 (HeadObject "dst" "out/b") /\
    sleeps (trace st') = sleeps (trace initial) ++ ds /\
    length ds = 4%nat.
Proof.
  apply (missing_object_is_probed_five_times demo_world demo_client "dst"
           "data/" "out/" {| Key := "data/b"; Size := 7; ETag := "b" |}
           ([], 0) initial).
  - intros t. split; discriminate.
  - intros t. exists (client_error "404" "Not Found").
    split; [reflexivity|]. split; [reflexivity|].
    simpl. intros H. apply elem_of_cons in H as [H|H]; [discriminate|].
    apply elem_of_cons in H as [H|H]; [discriminate|]. inversion H.
Defined.

Lemma transfer_sleeps_at_most_18_seconds_witness :
  exists ds,
    sleeps (trace (snd (TransferObject.handler (with_s3 throttling_s3)
                          small_transfer initial)))
    = sleeps (trace initial) ++ ds /\
    Forall (fun d => (0 <= d)%Q) ds /\
    (total_sleep ds <= 18)%Q.
Proof.
  apply (transfer_sleeps_at_most_18_seconds (with_s3 throttling_s3)).
  intros t. split; discriminate.
Defined.

Lemma validation_sleeps_are_bounded_witness :
  exists ds,
    sleeps (trace (snd (ValidateTransfer.handler demo_world demo_validation
                          initial)))
    = sleeps (trace initial) ++ ds /\
    Forall (fun d => (0 <= d)%Q) ds /\
    (total_sleep ds <= 3 + 15 * inject_Z 2)%Q.
Proof.
  apply (validation_sleeps_are_bounded demo_world).
  - intros t. split; discriminate.
  - simpl. lia.
  - intros t population k Hk. simpl. now apply length_take_le.
Defined.
